(** * d20-mc-simulator: a shallow embedding of the combat engine

    The development embeds the dice roller ([dice_roller.py]), the combatant
    operations ([creature.py]), the temporary effects ([duration.py]), the
    concentration spells ([spells.py]), the swallowing creatures
    ([mm_bestiary.py]) and the initiative order ([adventuring_day.py]).

    Python objects live in a store and are referred to by their index, so
    that two references to one object alias as they do in the source.  A
    method that mutates objects is a function from stores to results; a
    result is either a value with the new store or a raised exception with
    the store as it was when the exception was raised (mutations made before
    a [raise] are kept, as in Python). *)

From stdpp Require Import base numbers list strings gmap sorting.

Local Open Scope Z_scope.

(** ** dice_roller.py *)

(** The pseudorandom generator is an infinite tape of raw draws and a cursor.
    [integers low high] is [Generator.integers(low, high, endpoint=True)]:
    it consumes one cell and returns a value in [low .. high]. *)
Record Rng := mkRng { tape : nat -> Z; cursor : nat }.

Definition integers (low high : Z) (g : Rng) : Z * Rng :=
  (low + tape g (cursor g) `mod` (high - low + 1), mkRng (tape g) (S (cursor g))).

(** [integers(low, high, size=n, endpoint=True)]: [n] successive draws. *)
Fixpoint integers_size (low high : Z) (n : nat) (g : Rng) : list Z * Rng :=
  match n with
  | O => ([], g)
  | S n' =>
      let '(x, g1) := integers low high g in
      let '(xs, g2) := integers_size low high n' g1 in
      (x :: xs, g2)
  end.

Record Die := mkDie { sides : Z }.

(** [Die.roll(N_dice)] for [N_dice != 1]: an array of rolls. *)
Definition Die_roll (d : Die) (N_dice : nat) (g : Rng) : list Z * Rng :=
  integers_size 1 (sides d) N_dice g.

(** [Die.roll(1)]: a single roll. *)
Definition Die_roll1 (d : Die) (g : Rng) : Z * Rng := integers 1 (sides d) g.

Definition sum_list (l : list Z) : Z := foldr Z.add 0 l.

(** [Die.sum(N_dice)]. *)
Definition Die_sum (d : Die) (N_dice : nat) (g : Rng) : Z * Rng :=
  let '(xs, g') := Die_roll d N_dice g in (sum_list xs, g').

(** [Die.__call__(N_dice)]. *)
Definition Die_call (d : Die) (N_dice : nat) (g : Rng) : Z * Rng :=
  if decide (N_dice = 1%nat) then Die_roll1 d g else Die_sum d N_dice g.

Definition d4 : Die := mkDie 4.
Definition d20 : Die := mkDie 20.

(** [numpy.amax] and [numpy.amin] of a non-empty array. *)
Definition amax (l : list Z) : Z :=
  match l with [] => 0 | x :: t => foldl Z.max x t end.
Definition amin (l : list Z) : Z :=
  match l with [] => 0 | x :: t => foldl Z.min x t end.

Definition roll_d20 (advantage disadvantage : bool) (g : Rng) : Z * Rng :=
  if advantage && negb disadvantage then
    let '(rs, g') := Die_roll d20 2 g in (amax rs, g')
  else if disadvantage && negb advantage then
    let '(rs, g') := Die_roll d20 2 g in (amin rs, g')
  else Die_call d20 1 g.

(** The face shown by the [k]-th d20 rolled from generator state [g]. *)
Definition d20_face (g : Rng) (k : nat) : Z := 1 + tape g (cursor g + k)%nat `mod` 20.

Definition advance (g : Rng) (k : nat) : Rng := mkRng (tape g) (cursor g + k)%nat.

(** ** creature.py: the data model *)

Inductive Ability := Str | Dex | Con | Int | Wis | Cha.

(** [Creature.DAMAGE_TYPES]. *)
Inductive DamageType :=
| acid | bludgeoning | cold | fire | force | lightning
| magic_bludgeoning | magic_piercing | magic_slashing
| necrotic | piercing | poison | psychic | radiant | slashing | thunder.

(** The entries of [Creature.SKILLS] the embedded methods use: the two
    skills read by [escape_grapple] and the unskilled Strength check. *)
Inductive Skill := athletics | acrobatics | str_check.

Definition SKILLS (k : Skill) : Ability :=
  match k with athletics => Str | acrobatics => Dex | str_check => Str end.

(** The [save_type] labels. *)
Inductive SaveType := charm | magic | save_poison.

(** The classes whose overrides of [take_damage] and [fall_unconscious] are
    embedded: the base [Creature] and [Behir] (a swallowing creature). *)
Inductive Klass := Generic | Behir.

(** Integer attributes initialised by [Creature.reset_conditions]: the
    stacking condition counters. *)
Inductive Counter :=
| baned | blessed | blinded | frightened | invisible | paralyzed
| poisoned | restrained | slowed | stunned | target_adv.

(** List attributes initialised by [Creature.reset_conditions]; they hold
    references to Duration objects, [spirit_guardians] to Spell objects. *)
Inductive ListAttr :=
| start_turn_duration | end_turn_duration | grappled | grappling | spirit_guardians.

(** Exclusive-slot attributes initialised to [None] by
    [Creature.reset_conditions]. [concentration] refers to a Spell object,
    the others to a Duration object. *)
Inductive SlotAttr := concentration | engulfed | swallowed | turned.

#[global] Instance Ability_eq_dec : EqDecision Ability.
Proof. solve_decision. Defined.
#[global] Instance DamageType_eq_dec : EqDecision DamageType.
Proof. solve_decision. Defined.
#[global] Instance SaveType_eq_dec : EqDecision SaveType.
Proof. solve_decision. Defined.
#[global] Instance Counter_eq_dec : EqDecision Counter.
Proof. solve_decision. Defined.
#[global] Instance ListAttr_eq_dec : EqDecision ListAttr.
Proof. solve_decision. Defined.
#[global] Instance SlotAttr_eq_dec : EqDecision SlotAttr.
Proof. solve_decision. Defined.

(** Features fixed by [Creature.__init__] and [initialize_features], and
    the attributes the embedded methods only read ([skill_adv] and
    [skill_disadv]).  [has_lair_action] says whether the class overrides
    [Creature.lair_action]. *)
Record Traits := mkTraits {
  abilities : Ability -> Z;
  save_modifiers : Ability -> Z;
  save_proficiencies : Ability -> bool;
  skill_modifiers : Skill -> Z;
  skill_proficiencies : Skill -> bool;
  skill_adv : Skill -> Z;
  skill_disadv : Skill -> Z;
  proficiency : Z;
  initiative_modifier : Z;
  immunities : DamageType -> bool;
  resistances : DamageType -> bool;
  vulnerabilities : DamageType -> bool;
  charm_adv : bool;
  evasion : bool;
  gnome_cunning : bool;
  heavy_armor_master : bool;
  magic_resistance : bool;
  poison_adv : bool;
  war_caster : bool;
  has_lair_action : bool
}.

(** A [Creature] instance.  The attributes set by [Creature.__init__],
    [reset_hp] and [reset_conditions] are fields; any other attribute name
    (an attribute added by a derived class, or a name no class defines) is
    looked up in [extra_lists] or [extra_ints], where a missing key is
    Python's [AttributeError]. *)
Record Creature := mkCreature {
  klass : Klass;
  verbose : bool;
  traits : Traits;
  base_armor_class : Z;
  hp : Z;
  total_hp : Z;
  action : bool;
  death_ward : bool;
  prone : bool;
  counters : Counter -> Z;
  lists : ListAttr -> list nat;
  slots : SlotAttr -> option nat;
  extra_lists : gmap string (list nat);
  extra_ints : gmap string Z
}.

(** Field updates. *)
Definition set_base_armor_class (v : Z) (c : Creature) : Creature :=
  mkCreature (klass c) (verbose c) (traits c) v (hp c) (total_hp c)
    (action c) (death_ward c) (prone c) (counters c) (lists c) (slots c)
    (extra_lists c) (extra_ints c).
Definition set_hp (v : Z) (c : Creature) : Creature :=
  mkCreature (klass c) (verbose c) (traits c) (base_armor_class c) v (total_hp c)
    (action c) (death_ward c) (prone c) (counters c) (lists c) (slots c)
    (extra_lists c) (extra_ints c).
Definition set_action (v : bool) (c : Creature) : Creature :=
  mkCreature (klass c) (verbose c) (traits c) (base_armor_class c) (hp c) (total_hp c)
    v (death_ward c) (prone c) (counters c) (lists c) (slots c)
    (extra_lists c) (extra_ints c).
Definition set_death_ward (v : bool) (c : Creature) : Creature :=
  mkCreature (klass c) (verbose c) (traits c) (base_armor_class c) (hp c) (total_hp c)
    (action c) v (prone c) (counters c) (lists c) (slots c)
    (extra_lists c) (extra_ints c).
Definition set_prone (v : bool) (c : Creature) : Creature :=
  mkCreature (klass c) (verbose c) (traits c) (base_armor_class c) (hp c) (total_hp c)
    (action c) (death_ward c) v (counters c) (lists c) (slots c)
    (extra_lists c) (extra_ints c).
Definition set_counter (k : Counter) (v : Z) (c : Creature) : Creature :=
  mkCreature (klass c) (verbose c) (traits c) (base_armor_class c) (hp c) (total_hp c)
    (action c) (death_ward c) (prone c)
    (fun k' => if decide (k' = k) then v else counters c k')
    (lists c) (slots c) (extra_lists c) (extra_ints c).
Definition set_list (a : ListAttr) (v : list nat) (c : Creature) : Creature :=
  mkCreature (klass c) (verbose c) (traits c) (base_armor_class c) (hp c) (total_hp c)
    (action c) (death_ward c) (prone c) (counters c)
    (fun a' => if decide (a' = a) then v else lists c a')
    (slots c) (extra_lists c) (extra_ints c).
Definition set_slot (a : SlotAttr) (v : option nat) (c : Creature) : Creature :=
  mkCreature (klass c) (verbose c) (traits c) (base_armor_class c) (hp c) (total_hp c)
    (action c) (death_ward c) (prone c) (counters c) (lists c)
    (fun a' => if decide (a' = a) then v else slots c a')
    (extra_lists c) (extra_ints c).
Definition set_extra_list (name : string) (v : list nat) (c : Creature) : Creature :=
  mkCreature (klass c) (verbose c) (traits c) (base_armor_class c) (hp c) (total_hp c)
    (action c) (death_ward c) (prone c) (counters c) (lists c) (slots c)
    (<[name := v]> (extra_lists c)) (extra_ints c).
Definition set_extra_int (name : string) (v : Z) (c : Creature) : Creature :=
  mkCreature (klass c) (verbose c) (traits c) (base_armor_class c) (hp c) (total_hp c)
    (action c) (death_ward c) (prone c) (counters c) (lists c) (slots c)
    (extra_lists c) (<[name := v]> (extra_ints c)).

(** ** duration.py and spells.py: the objects *)

Inductive DurationKind :=
| BleedingDuration | EngulfedDuration | FrightenedDuration
| FrightenedOneTurnDuration | GrappleDuration | ParalyzedDuration
| PoisonedDuration | RecklessDuration | RestrainedDuration | SlowedDuration
| StunnedDuration | SwallowedDuration | TurnUndeadDuration.

#[global] Instance DurationKind_eq_dec : EqDecision DurationKind.
Proof. solve_decision. Defined.

(** A Duration instance.  [duration] is [None] when the constructor of the
    class never assigns [self.duration].  [applier] is the attribute the
    classes call engulfer, frightener, grappler, paralyzer, poisoner, slower,
    stunner, swallower or turner; [target] is [self.target]
    ([self.creature] for [RecklessDuration]) and is [None] only for a
    [BleedingDuration] whose constructor returned early. [save_dc] is also
    [check_dc] and [regurgitation_save_dc]. *)
Inductive Roller := ADie (d : Die) | ADice (d : Die) (N_dice : nat).

Record Duration := mkDuration {
  kind : DurationKind;
  duration : option Z;
  applier : option nat;
  target : option nat;
  save_dc : Z;
  escape_priority : bool;
  grapple_restrained : bool;
  grapple_stunned : bool;
  regurgitation_threshold : Z;
  N_wounds : Z;
  wound_damage : Roller;
  damage_type : DamageType
}.

Definition set_duration (v : option Z) (d : Duration) : Duration :=
  mkDuration (kind d) v (applier d) (target d) (save_dc d) (escape_priority d)
    (grapple_restrained d) (grapple_stunned d) (regurgitation_threshold d)
    (N_wounds d) (wound_damage d) (damage_type d).
Definition set_N_wounds (v : Z) (d : Duration) : Duration :=
  mkDuration (kind d) (duration d) (applier d) (target d) (save_dc d) (escape_priority d)
    (grapple_restrained d) (grapple_stunned d) (regurgitation_threshold d)
    v (wound_damage d) (damage_type d).

(** The concentration spells of [spells.py] with the attributes their
    [end()] reads. *)
Inductive SpellEffect :=
| Bane (targets : list nat)
| Bless (targets : list nat)
| GreaterInvisibility (target : nat)
| ShieldOfFaith
| SpiritGuardians (targets : list nat).

Record Spell := mkSpell { caster : nat; effect : SpellEffect }.

(** ** The store and the monad of methods *)

Record Store := mkStore {
  creatures : list Creature;
  durations : list Duration;
  spells : list Spell;
  rng : Rng
}.

(** [DanglingReference] cannot happen in Python (a reference always points to
    an object); it is what a lookup of an index outside the store gives. *)
Inductive Exn := AttributeError | ValueError | NameError | DanglingReference.

Inductive Res (A : Type) :=
| Ok (a : A) (s : Store)
| Raise (e : Exn) (s : Store).
Arguments Ok {A} a s.
Arguments Raise {A} e s.

Definition M (A : Type) : Type := Store -> Res A.

Definition ret {A} (a : A) : M A := fun s => Ok a s.
Definition raise {A} (e : Exn) : M A := fun s => Raise e s.
Definition bind {A B} (m : M A) (k : A -> M B) : M B :=
  fun s => match m s with Ok a s' => k a s' | Raise e s' => Raise e s' end.

Declare Scope py_scope.
Delimit Scope py_scope with py.
Notation "'let*' x ':=' m 'in' k" := (bind m (fun x => k))
  (at level 10, x pattern, m at level 100, k at level 200) : py_scope.
Notation "m >> k" := (bind m (fun _ => k))
  (at level 190, right associativity) : py_scope.
Local Open Scope py_scope.

(** The store of a result, whether the call returned or raised. *)
Definition store_of {A} (r : Res A) : Store :=
  match r with Ok _ s => s | Raise _ s => s end.

Definition when (b : bool) (m : M unit) : M unit := if b then m else ret tt.

(** [for x in l: body(x)] over a list fixed before the loop starts (the
    source iterates over a copy [l[:]] wherever the body mutates [l]). *)
Fixpoint for_each {A} (l : list A) (body : A -> M unit) : M unit :=
  match l with
  | [] => ret tt
  | x :: t => body x >> for_each t body
  end.

Definition get_creature (i : nat) : M Creature :=
  fun s => match creatures s !! i with
           | Some c => Ok c s
           | None => Raise DanglingReference s
           end.

Definition get_duration (i : nat) : M Duration :=
  fun s => match durations s !! i with
           | Some d => Ok d s
           | None => Raise DanglingReference s
           end.

Definition get_spell (i : nat) : M Spell :=
  fun s => match spells s !! i with
           | Some d => Ok d s
           | None => Raise DanglingReference s
           end.

Definition update_creature (i : nat) (f : Creature -> Creature) (s : Store) : Store :=
  mkStore (alter f i (creatures s)) (durations s) (spells s) (rng s).

Definition update_duration (i : nat) (f : Duration -> Duration) (s : Store) : Store :=
  mkStore (creatures s) (alter f i (durations s)) (spells s) (rng s).

Definition set_rng (g : Rng) (s : Store) : Store :=
  mkStore (creatures s) (durations s) (spells s) g.

(** An assignment to attributes of creature [i]. *)
Definition modify_creature (i : nat) (f : Creature -> Creature) : M unit :=
  get_creature i >> (fun s => Ok tt (update_creature i f s)).

Definition modify_duration (i : nat) (f : Duration -> Duration) : M unit :=
  get_duration i >> (fun s => Ok tt (update_duration i f s)).

(** Object creation: the new object gets the next free index. *)
Definition alloc_duration (d : Duration) : M nat :=
  fun s => Ok (length (durations s))
              (mkStore (creatures s) (durations s ++ [d]) (spells s) (rng s)).

(** A call to the dice roller. *)
Definition with_rng {A} (f : Rng -> A * Rng) : M A :=
  fun s => let '(a, g) := f (rng s) in Ok a (set_rng g s).

(** Reading an attribute of a Duration that the constructor may not have set. *)
Definition attr {A} (o : option A) : M A :=
  match o with Some a => ret a | None => raise AttributeError end.

(** [x.k += n] on a counter. *)
Definition add_counter (i : nat) (k : Counter) (n : Z) : M unit :=
  modify_creature i (fun c => set_counter k (counters c k + n) c).

(** [x.a.append(v)]. *)
Definition list_append (i : nat) (a : ListAttr) (v : nat) : M unit :=
  modify_creature i (fun c => set_list a (lists c a ++ [v]) c).

(** [l.remove(v)]: drop the first occurrence; [None] stands for the
    [ValueError] Python raises when [v] is not in [l]. *)
Fixpoint remove_first (v : nat) (l : list nat) : option (list nat) :=
  match l with
  | [] => None
  | x :: t => if decide (x = v) then Some t else cons x <$> remove_first v t
  end.

(** [x.a.remove(v)]. *)
Definition list_remove (i : nat) (a : ListAttr) (v : nat) : M unit :=
  let* c := get_creature i in
  match remove_first v (lists c a) with
  | Some l => modify_creature i (set_list a l)
  | None => raise ValueError
  end.

(** [x.<name>.append(v)] for an attribute that is not a field. *)
Definition extra_list_append (i : nat) (name : string) (v : nat) : M unit :=
  let* c := get_creature i in
  match extra_lists c !! name with
  | Some l => modify_creature i (set_extra_list name (l ++ [v]))
  | None => raise AttributeError
  end.

(** [x.<name>.remove(v)] for an attribute that is not a field. *)
Definition extra_list_remove (i : nat) (name : string) (v : nat) : M unit :=
  let* c := get_creature i in
  match extra_lists c !! name with
  | Some l =>
      match remove_first v l with
      | Some l' => modify_creature i (set_extra_list name l')
      | None => raise ValueError
      end
  | None => raise AttributeError
  end.

(** Reading [x.<name>] for a list or integer attribute that is not a field. *)
Definition get_extra_list (i : nat) (name : string) : M (list nat) :=
  let* c := get_creature i in
  match extra_lists c !! name with
  | Some l => ret l
  | None => raise AttributeError
  end.

Definition get_extra_int (i : nat) (name : string) : M Z :=
  let* c := get_creature i in
  match extra_ints c !! name with
  | Some n => ret n
  | None => raise AttributeError
  end.

(** [x.<name> = v] for an integer attribute that is not a field (an
    assignment creates the attribute when it is missing). *)
Definition set_extra_int_attr (i : nat) (name : string) (v : Z) : M unit :=
  modify_creature i (set_extra_int name v).

(** ** spells.py: ending a concentration spell *)

(** [Spell.end()] as overridden by the five concentration spells.
    [ShieldOfFaith.end] evaluates the undefined name [seldf] when the caster
    is verbose. *)
Definition Spell_end (self : nat) : M unit :=
  let* sp := get_spell self in
  match effect sp with
  | Bane targets =>
      modify_creature (caster sp) (set_slot concentration None) >>
      for_each targets (fun target => add_counter target baned (-1))
  | Bless targets =>
      modify_creature (caster sp) (set_slot concentration None) >>
      for_each targets (fun target => add_counter target blessed (-1))
  | GreaterInvisibility target =>
      modify_creature (caster sp) (set_slot concentration None) >>
      add_counter target invisible (-1)
  | ShieldOfFaith =>
      let* c := get_creature (caster sp) in
      when (verbose c) (raise NameError) >>
      modify_creature (caster sp) (set_slot concentration None) >>
      modify_creature (caster sp)
        (fun c => set_base_armor_class (base_armor_class c - 2) c)
  | SpiritGuardians targets =>
      modify_creature (caster sp) (set_slot concentration None) >>
      for_each targets (fun target => list_remove target spirit_guardians self)
  end.

(** ** duration.py: ending an effect *)

Definition BleedingDuration_end (self : nat) : M unit :=
  let* d := get_duration self in
  let* target := attr (target d) in
  list_remove target start_turn_duration self.

Definition EngulfedDuration_end (self : nat) : M unit :=
  let* d := get_duration self in
  let* target := attr (target d) in
  let* engulfer := attr (applier d) in
  add_counter target restrained (-1) >>
  modify_creature target (set_slot engulfed None) >>
  list_remove target start_turn_duration self >>
  extra_list_remove engulfer "engulfed_creatures" target.

Definition FrightenedDuration_end (self : nat) : M unit :=
  let* d := get_duration self in
  let* target := attr (target d) in
  let* frightener := attr (applier d) in
  add_counter target frightened (-1) >>
  list_remove target end_turn_duration self >>
  list_remove frightener start_turn_duration self.

Definition FrightenedOneTurnDuration_end (self : nat) : M unit :=
  let* d := get_duration self in
  let* target := attr (target d) in
  add_counter target frightened (-1) >>
  list_remove target end_turn_duration self.

Definition GrappleDuration_end (self : nat) : M unit :=
  let* d := get_duration self in
  let* grappler := attr (applier d) in
  let* target := attr (target d) in
  list_remove grappler grappling self >>
  list_remove target grappled self >>
  when (escape_priority d) (list_remove target start_turn_duration self) >>
  when (grapple_restrained d) (add_counter target restrained (-1)) >>
  when (grapple_stunned d) (add_counter target stunned (-1)).

Definition ParalyzedDuration_end (self : nat) : M unit :=
  let* d := get_duration self in
  let* target := attr (target d) in
  let* paralyzer := attr (applier d) in
  add_counter target paralyzed (-1) >>
  list_remove target end_turn_duration self >>
  list_remove paralyzer start_turn_duration self.

Definition PoisonedDuration_end (self : nat) : M unit :=
  let* d := get_duration self in
  let* target := attr (target d) in
  let* poisoner := attr (applier d) in
  add_counter target poisoned (-1) >>
  list_remove target end_turn_duration self >>
  list_remove poisoner start_turn_duration self.

Definition RecklessDuration_end (self : nat) : M unit :=
  let* d := get_duration self in
  let* creature := attr (target d) in
  add_counter creature target_adv (-1) >>
  list_remove creature start_turn_duration self.

Definition RestrainedDuration_end (self : nat) : M unit :=
  let* d := get_duration self in
  let* target := attr (target d) in
  add_counter target restrained (-1) >>
  list_remove target start_turn_duration self.

Definition SlowedDuration_end (self : nat) : M unit :=
  let* d := get_duration self in
  let* target := attr (target d) in
  let* slower := attr (applier d) in
  add_counter target slowed (-1) >>
  list_remove target end_turn_duration self >>
  list_remove slower start_turn_duration self.

Definition StunnedDuration_end (self : nat) : M unit :=
  let* d := get_duration self in
  let* target := attr (target d) in
  let* stunner := attr (applier d) in
  add_counter target stunned (-1) >>
  list_remove target end_turn_duration self >>
  list_remove stunner start_turn_duration self.

Definition SwallowedDuration_end (self : nat) : M unit :=
  let* d := get_duration self in
  let* swallower := attr (applier d) in
  let* target := attr (target d) in
  extra_list_remove swallower "swallowed_creatures" target >>
  modify_creature target (set_slot swallowed None) >>
  list_remove target start_turn_duration self >>
  list_remove target end_turn_duration self >>
  add_counter target blinded (-1) >>
  add_counter target restrained (-1) >>
  modify_creature target (set_prone true).

Definition TurnUndeadDuration_end (self : nat) : M unit :=
  let* d := get_duration self in
  let* target := attr (target d) in
  let* turner := attr (applier d) in
  modify_creature target (set_slot turned None) >>
  list_remove turner start_turn_duration self.

(** [effect.end()]: dispatch on the class of the object. *)
Definition Duration_end (self : nat) : M unit :=
  let* d := get_duration self in
  match kind d with
  | BleedingDuration => BleedingDuration_end self
  | EngulfedDuration => EngulfedDuration_end self
  | FrightenedDuration => FrightenedDuration_end self
  | FrightenedOneTurnDuration => FrightenedOneTurnDuration_end self
  | GrappleDuration => GrappleDuration_end self
  | ParalyzedDuration => ParalyzedDuration_end self
  | PoisonedDuration => PoisonedDuration_end self
  | RecklessDuration => RecklessDuration_end self
  | RestrainedDuration => RestrainedDuration_end self
  | SlowedDuration => SlowedDuration_end self
  | StunnedDuration => StunnedDuration_end self
  | SwallowedDuration => SwallowedDuration_end self
  | TurnUndeadDuration => TurnUndeadDuration_end self
  end.

(** ** creature.py: the methods *)

Definition is_incapacitated (c : Creature) : bool :=
  (0 <? counters c paralyzed) || (0 <? counters c stunned).

(** [int(x / 2)]: Python divides as floats and truncates toward zero (exact
    for the magnitudes a damage roll can reach). *)
Definition int_half (x : Z) : Z := Z.quot x 2.

Definition roll_save (self : nat) (ability : Ability) (adv disadv : bool) : M Z :=
  let* c := get_creature self in
  let* r := with_rng (roll_d20 adv disadv) in
  let result := r + abilities (traits c) ability + save_modifiers (traits c) ability in
  let result :=
    if save_proficiencies (traits c) ability then result + proficiency (traits c)
    else result in
  let* result :=
    if bool_decide (counters c baned ≠ 0)
    then (let* x := with_rng (Die_call d4 1) in ret (result - x))
    else ret result in
  let* result :=
    if bool_decide (counters c blessed ≠ 0)
    then (let* x := with_rng (Die_call d4 1) in ret (result + x))
    else ret result in
  ret result.

Definition roll_skill (self : nat) (skill : Skill) (adv disadv : bool) : M Z :=
  let* c := get_creature self in
  let adv := if 0 <? skill_adv (traits c) skill then true else adv in
  let disadv :=
    if (0 <? skill_disadv (traits c) skill) || (0 <? counters c frightened)
       || (0 <? counters c poisoned)
    then true else disadv in
  let* r := with_rng (roll_d20 adv disadv) in
  let result := r + abilities (traits c) (SKILLS skill) + skill_modifiers (traits c) skill in
  ret (if skill_proficiencies (traits c) skill then result + proficiency (traits c)
       else result).

Definition skill_check (self : nat) (skill : Skill) (difficulty_class : Z)
    (adv disadv : bool) : M bool :=
  let* result := roll_skill self skill adv disadv in
  ret (difficulty_class <=? result).

Definition escape_grapple (self : nat) (adv : bool) : M Z :=
  let* c := get_creature self in
  let t := traits c in
  let athletics_modifier := abilities t Str + skill_modifiers t athletics in
  let athletics_modifier :=
    if skill_proficiencies t athletics then athletics_modifier + proficiency t
    else athletics_modifier in
  let athletics_modifier :=
    if 0 <? skill_adv t athletics then athletics_modifier + 5 else athletics_modifier in
  let acrobatics_modifier := abilities t Dex + skill_modifiers t acrobatics in
  let acrobatics_modifier :=
    if skill_proficiencies t acrobatics then acrobatics_modifier + proficiency t
    else acrobatics_modifier in
  let acrobatics_modifier :=
    if 0 <? skill_adv t acrobatics then acrobatics_modifier + 5 else acrobatics_modifier in
  if acrobatics_modifier <=? athletics_modifier
  then roll_skill self athletics adv false
  else roll_skill self acrobatics adv false.

Definition saving_throw (self : nat) (ability : Ability) (difficulty_class : Z)
    (adv disadv : bool) (save_type : option SaveType) : M bool :=
  let* c := get_creature self in
  if is_incapacitated c && (bool_decide (ability = Str) || bool_decide (ability = Dex))
  then ret false
  else
    let disadv :=
      if (0 <? counters c restrained) && bool_decide (ability = Dex) then true
      else disadv in
    let adv :=
      if (charm_adv (traits c) && bool_decide (save_type = Some charm))
         || (gnome_cunning (traits c) && bool_decide (save_type = Some magic)
             && bool_decide (ability ∈ [Int; Wis; Cha]))
         || (magic_resistance (traits c) && bool_decide (save_type = Some magic))
         || (poison_adv (traits c) && bool_decide (save_type = Some save_poison))
      then true else adv in
    let* result := roll_save self ability adv disadv in
    ret (difficulty_class <=? result).

Definition is_physical (t : DamageType) : bool :=
  bool_decide (t ∈ [bludgeoning; piercing; slashing;
                    magic_bludgeoning; magic_piercing; magic_slashing]).

Definition take_damage_type (self : nat) (damage : Z) (damage_type : DamageType) : M Z :=
  let* c := get_creature self in
  let damage :=
    if heavy_armor_master (traits c) && is_physical damage_type then damage - 3
    else damage in
  let damage := if resistances (traits c) damage_type then int_half damage else damage in
  let damage := if vulnerabilities (traits c) damage_type then damage * 2 else damage in
  if (damage <=? 0) || immunities (traits c) damage_type then ret 0
  else
    modify_creature self (fun c => set_hp (hp c - damage) c) >>
    let* c := get_creature self in
    when (hp c <? 0) (modify_creature self (set_hp 0)) >>
    ret damage.

(** [Creature.fall_unconscious]. *)
Definition Creature_fall_unconscious (self : nat) : M unit :=
  let* c := get_creature self in
  if death_ward c && (0 <? total_hp c) then
    modify_creature self (set_death_ward false) >>
    modify_creature self (set_hp 1)
  else
    modify_creature self (set_prone true) >>
    let* c := get_creature self in
    for_each (lists c grappling) Duration_end >>
    let* c := get_creature self in
    match slots c concentration with
    | Some sp => Spell_end sp
    | None => ret tt
    end.

(** [creature.swallowed.end()]. *)
Definition end_swallowed (creature : nat) : M unit :=
  let* t := get_creature creature in
  match slots t swallowed with
  | Some d => Duration_end d
  | None => raise AttributeError
  end.

(** [Behir.fall_unconscious] (mm_bestiary.py). *)
Definition Behir_fall_unconscious (self : nat) : M unit :=
  Creature_fall_unconscious self >>
  let* l := get_extra_list self "swallowed_creatures" in
  for_each l end_swallowed.

Definition fall_unconscious (self : nat) : M unit :=
  let* c := get_creature self in
  match klass c with
  | Generic => Creature_fall_unconscious self
  | Behir => Behir_fall_unconscious self
  end.

(** [self.concentration.end()]. *)
Definition end_concentration (self : nat) : M unit :=
  let* c := get_creature self in
  match slots c concentration with
  | Some sp => Spell_end sp
  | None => raise AttributeError
  end.

(** [Creature.take_damage]. *)
Definition Creature_take_damage (self : nat) (primary_damage : Z)
    (primary_type : DamageType) (dealer : option nat) (ranged : bool)
    (secondary_damage : Z) (secondary_type : option DamageType) : M (Z * Z) :=
  let* primary_damage_taken := take_damage_type self primary_damage primary_type in
  let* secondary_damage_taken :=
    match secondary_type with
    | Some t => take_damage_type self secondary_damage t
    | None => ret 0
    end in
  let damage_taken := primary_damage_taken + secondary_damage_taken in
  let* c := get_creature self in
  when (hp c =? 0) (fall_unconscious self) >>
  let* c := get_creature self in
  (if bool_decide (slots c concentration ≠ None) && (0 <? damage_taken) then
     let* saved := saving_throw self Con (Z.max 10 (int_half damage_taken))
                     (war_caster (traits c)) false None in
     when (negb saved) (end_concentration self)
   else ret tt) >>
  let* c := get_creature self in
  match slots c turned with
  | Some d => Duration_end d
  | None => ret tt
  end >>
  ret (primary_damage_taken, secondary_damage_taken).

(** [Behir.take_damage] (mm_bestiary.py). *)
Definition Behir_take_damage (self : nat) (primary_damage : Z)
    (primary_type : DamageType) (dealer : option nat) (ranged : bool)
    (secondary_damage : Z) (secondary_type : option DamageType) : M (Z * Z) :=
  let* taken := Creature_take_damage self primary_damage primary_type dealer ranged
                  secondary_damage secondary_type in
  let* l := get_extra_list self "swallowed_creatures" in
  match dealer with
  | Some d =>
      when (bool_decide (d ∈ l))
        (let* n := get_extra_int self "damage_taken_this_turn" in
         set_extra_int_attr self "damage_taken_this_turn" (n + (taken.1 + taken.2)))
  | None => ret tt
  end >>
  ret taken.

Definition take_damage (self : nat) (primary_damage : Z)
    (primary_type : DamageType) (dealer : option nat) (ranged : bool)
    (secondary_damage : Z) (secondary_type : option DamageType) : M (Z * Z) :=
  let* c := get_creature self in
  match klass c with
  | Generic => Creature_take_damage self primary_damage primary_type dealer ranged
                 secondary_damage secondary_type
  | Behir => Behir_take_damage self primary_damage primary_type dealer ranged
               secondary_damage secondary_type
  end.

Definition is_bleeding (effect : nat) : M bool :=
  let* d := get_duration effect in
  ret (bool_decide (kind d = BleedingDuration)).

Definition heal (self : nat) (healing : Z) (magic_healing : bool) : M unit :=
  modify_creature self (fun c => set_hp (hp c + healing) c) >>
  let* c := get_creature self in
  when (total_hp c <? hp c) (modify_creature self (set_hp (total_hp c))) >>
  when magic_healing
    (let* c := get_creature self in
     for_each (lists c start_turn_duration)
       (fun effect =>
          let* b := is_bleeding effect in
          when b (Duration_end effect))).

Definition half_saving_throw (self : nat) (ability : Ability) (difficulty_class : Z)
    (damage : Z) (damage_type : DamageType) (secondary_damage : Z)
    (secondary_type : option DamageType) (adv disadv : bool)
    (save_type : option SaveType) : M bool :=
  let* result := saving_throw self ability difficulty_class adv disadv save_type in
  let* c := get_creature self in
  (if negb result && negb (bool_decide (ability = Dex) && evasion (traits c)) then
     take_damage self damage damage_type None false secondary_damage secondary_type
     >> ret tt
   else if negb (result && bool_decide (ability = Dex) && evasion (traits c)) then
     take_damage self (int_half damage) damage_type None false
       (int_half secondary_damage) secondary_type
     >> ret tt
   else ret tt) >>
  ret result.

(** ** duration.py: creating an effect *)

(** The attribute values a constructor assigns to [self]; the fields a class
    does not have keep these defaults. *)
Definition blank (k : DurationKind) : Duration :=
  mkDuration k None None None 0 false false false 0 0 (ADie d4) acid.

Definition find_bleeding (s : Store) (l : list nat) : option nat :=
  list_find (fun e => kind <$> durations s !! e = Some BleedingDuration) l
  ≫= fun p => Some p.2.

(** [duration.BleedingDuration.__init__]: a target that is already bleeding
    gets one more wound on its existing effect, and the new object is left
    without attributes. *)
Definition BleedingDuration_init (target : nat) (wound_damage : Roller)
    (damage_type : DamageType) (max_duration : Z) : M nat :=
  let* c := get_creature target in
  let* found := (fun s => Ok (find_bleeding s (lists c start_turn_duration)) s) in
  match found with
  | Some effect =>
      let* self := alloc_duration (blank BleedingDuration) in
      let* e := get_duration effect in
      modify_duration effect (set_N_wounds (N_wounds e + 1)) >>
      let* n := attr (duration e) in
      modify_duration effect (set_duration (Some (Z.max n max_duration))) >>
      ret self
  | None =>
      let* self := alloc_duration
        (mkDuration BleedingDuration (Some max_duration) None (Some target) 0
           false false false 0 1 wound_damage damage_type) in
      list_append target start_turn_duration self >>
      ret self
  end.

Definition EngulfedDuration_init (engulfer target : nat) (save_dc : Z) : M nat :=
  let* self := alloc_duration
    (mkDuration EngulfedDuration None (Some engulfer) (Some target) save_dc
       false false false 0 0 (ADie d4) acid) in
  add_counter target restrained 1 >>
  modify_creature target (set_slot engulfed (Some self)) >>
  list_append target start_turn_duration self >>
  extra_list_append engulfer "engulfed_creature" target >>
  ret self.

Definition FrightenedDuration_init (frightener target : nat) (save_dc max_duration : Z)
    : M nat :=
  let* self := alloc_duration
    (mkDuration FrightenedDuration (Some max_duration) (Some frightener) (Some target)
       save_dc false false false 0 0 (ADie d4) acid) in
  add_counter target frightened 1 >>
  list_append target end_turn_duration self >>
  list_append frightener start_turn_duration self >>
  ret self.

Definition FrightenedOneTurnDuration_init (target : nat) : M nat :=
  let* self := alloc_duration
    (mkDuration FrightenedOneTurnDuration None None (Some target) 0
       false false false 0 0 (ADie d4) acid) in
  add_counter target frightened 1 >>
  list_append target end_turn_duration self >>
  ret self.

Definition GrappleDuration_init (grappler target : nat)
    (restrained_ stunned_ escape_priority : bool) : M nat :=
  let* self := alloc_duration
    (mkDuration GrappleDuration None (Some grappler) (Some target) 0
       escape_priority restrained_ stunned_ 0 0 (ADie d4) acid) in
  list_append grappler grappling self >>
  list_append target grappled self >>
  when escape_priority (list_append target start_turn_duration self) >>
  when restrained_ (add_counter target restrained 1) >>
  when stunned_ (add_counter target stunned 1) >>
  ret self.

(** [if target.concentration != None: target.concentration.end()]. *)
Definition break_concentration (target : nat) : M unit :=
  let* c := get_creature target in
  match slots c concentration with
  | Some sp => Spell_end sp
  | None => ret tt
  end.

Definition ParalyzedDuration_init (paralyzer target : nat) (save_dc max_duration : Z)
    : M nat :=
  let* self := alloc_duration
    (mkDuration ParalyzedDuration (Some max_duration) (Some paralyzer) (Some target)
       save_dc false false false 0 0 (ADie d4) acid) in
  add_counter target paralyzed 1 >>
  list_append target end_turn_duration self >>
  list_append paralyzer start_turn_duration self >>
  break_concentration target >>
  ret self.

Definition PoisonedDuration_init (poisoner target : nat) (save_dc max_duration : Z)
    : M nat :=
  let* self := alloc_duration
    (mkDuration PoisonedDuration (Some max_duration) (Some poisoner) (Some target)
       save_dc false false false 0 0 (ADie d4) acid) in
  add_counter target poisoned 1 >>
  extra_list_append target "end_turn_duartion" self >>
  list_append poisoner start_turn_duration self >>
  ret self.

Definition RecklessDuration_init (creature : nat) (max_duration : Z) : M nat :=
  let* self := alloc_duration
    (mkDuration RecklessDuration (Some max_duration) None (Some creature) 0
       false false false 0 0 (ADie d4) acid) in
  add_counter creature target_adv 1 >>
  list_append creature start_turn_duration self >>
  ret self.

Definition RestrainedDuration_init (target : nat) (check_dc : Z) : M nat :=
  let* self := alloc_duration
    (mkDuration RestrainedDuration None None (Some target) check_dc
       false false false 0 0 (ADie d4) acid) in
  add_counter target restrained 1 >>
  list_append target start_turn_duration self >>
  ret self.

Definition SlowedDuration_init (slower target : nat) (save_dc : Z) : M nat :=
  let* self := alloc_duration
    (mkDuration SlowedDuration (Some 10) (Some slower) (Some target) save_dc
       false false false 0 0 (ADie d4) acid) in
  add_counter target slowed 1 >>
  list_append target end_turn_duration self >>
  list_append slower start_turn_duration self >>
  ret self.

Definition StunnedDuration_init (stunner target : nat) (save_dc max_duration : Z)
    : M nat :=
  let* self := alloc_duration
    (mkDuration StunnedDuration (Some max_duration) (Some stunner) (Some target)
       save_dc false false false 0 0 (ADie d4) acid) in
  add_counter target stunned 1 >>
  list_append target end_turn_duration self >>
  list_append stunner start_turn_duration self >>
  break_concentration target >>
  ret self.

Definition SwallowedDuration_init (swallower target : nat)
    (regurgitation_threshold regurgitation_save_dc : Z) : M nat :=
  let* self := alloc_duration
    (mkDuration SwallowedDuration None (Some swallower) (Some target)
       regurgitation_save_dc false false false regurgitation_threshold 0
       (ADie d4) acid) in
  extra_list_append swallower "swallowed_creatures" target >>
  modify_creature target (set_slot swallowed (Some self)) >>
  list_append target start_turn_duration self >>
  list_append target end_turn_duration self >>
  add_counter target blinded 1 >>
  add_counter target restrained 1 >>
  ret self.

Definition TurnUndeadDuration_init (turner target : nat) : M nat :=
  let* self := alloc_duration
    (mkDuration TurnUndeadDuration (Some 10) (Some turner) (Some target) 0
       false false false 0 0 (ADie d4) acid) in
  modify_creature target (set_slot turned (Some self)) >>
  list_append turner start_turn_duration self >>
  ret self.

(** ** duration.py: the passage of time *)

(** [Duration.tick], the method of the base class. *)
Definition Duration_tick (self : nat) : M unit :=
  let* d := get_duration self in
  let* n := attr (duration d) in
  modify_duration self (set_duration (Some (n - 1))) >>
  when (n - 1 =? 0) (Duration_end self).

(** [effect.tick()]: [GrappleDuration] overrides it with [pass]. *)
Definition tick (self : nat) : M unit :=
  let* d := get_duration self in
  match kind d with
  | GrappleDuration => ret tt
  | _ => Duration_tick self
  end.

(** Calling a [Die] or a [Dice]. *)
Definition Roller_call (r : Roller) (g : Rng) : Z * Rng :=
  match r with
  | ADie d => Die_call d 1 g
  | ADice d n => Die_sum d n g
  end.

(** [for i in range(n): damage += wound_damage()]. *)
Fixpoint roll_wounds (n : nat) (r : Roller) (damage : Z) : M Z :=
  match n with
  | O => ret damage
  | S n' => let* x := with_rng (Roller_call r) in roll_wounds n' r (damage + x)
  end.

Definition BleedingDuration_start_turn_effect (self : nat) : M unit :=
  let* d := get_duration self in
  let* damage := roll_wounds (Z.to_nat (N_wounds d)) (wound_damage d) 0 in
  let* target := attr (target d) in
  take_damage target damage (damage_type d) None false 0 None >>
  tick self.

(** The DC to escape a grapple, from the grappler's statistics. *)
Definition escape_dc (grapple : nat) : M Z :=
  let* g := get_duration grapple in
  let* grappler := attr (applier g) in
  let* gc := get_creature grappler in
  ret (8 + proficiency (traits gc) + abilities (traits gc) Str).

Definition GrappleDuration_start_turn_effect (self : nat) : M unit :=
  let* d := get_duration self in
  let* target := attr (target d) in
  let* t := get_creature target in
  when (action t)
    (modify_creature target (set_action false) >>
     let* escape_grapple_check := escape_grapple target false in
     let* t := get_creature target in
     for_each (lists t grappled)
       (fun grapple =>
          let* dc := escape_dc grapple in
          when (dc <=? escape_grapple_check) (Duration_end grapple))).

Definition RestrainedDuration_start_turn_effect (self : nat) : M unit :=
  let* d := get_duration self in
  let* target := attr (target d) in
  let* t := get_creature target in
  when (action t)
    (modify_creature target (set_action false) >>
     let* passed := skill_check target str_check (save_dc d) false false in
     when passed (Duration_end self)).

Definition SwallowedDuration_start_turn_effect (self : nat) : M unit :=
  let* d := get_duration self in
  let* swallower := attr (applier d) in
  set_extra_int_attr swallower "damage_taken_this_turn" 0.

(** [effect.start_turn_effect()]. *)
Definition start_turn_effect (self : nat) : M unit :=
  let* d := get_duration self in
  match kind d with
  | BleedingDuration => BleedingDuration_start_turn_effect self
  | GrappleDuration => GrappleDuration_start_turn_effect self
  | RestrainedDuration => RestrainedDuration_start_turn_effect self
  | SwallowedDuration => SwallowedDuration_start_turn_effect self
  | EngulfedDuration | FrightenedOneTurnDuration => ret tt
  | FrightenedDuration | ParalyzedDuration | PoisonedDuration | RecklessDuration
  | SlowedDuration | StunnedDuration | TurnUndeadDuration => tick self
  end.

(** The end-of-turn saving throw that ends an effect on a success. *)
Definition save_to_end (self : nat) (ability : Ability) (disadv : bool) : M unit :=
  let* d := get_duration self in
  let* target := attr (target d) in
  let* saved := saving_throw target ability (save_dc d) false disadv None in
  when saved (Duration_end self).

Definition SwallowedDuration_end_turn_effect (self : nat) : M unit :=
  let* d := get_duration self in
  let* swallower := attr (applier d) in
  let* taken := get_extra_int swallower "damage_taken_this_turn" in
  if regurgitation_threshold d <=? taken then
    let* saved := saving_throw swallower Con (save_dc d) false false None in
    when (negb saved)
      (let* l := get_extra_list swallower "swallowed_creatures" in
       for_each l end_swallowed)
  else ret tt.

(** [effect.end_turn_effect()]. *)
Definition end_turn_effect (self : nat) : M unit :=
  let* d := get_duration self in
  match kind d with
  | FrightenedDuration => save_to_end self Wis true
  | FrightenedOneTurnDuration => Duration_end self
  | ParalyzedDuration => save_to_end self Con false
  | PoisonedDuration => save_to_end self Con false
  | SlowedDuration => save_to_end self Wis false
  | StunnedDuration => save_to_end self Int false
  | SwallowedDuration => SwallowedDuration_end_turn_effect self
  | BleedingDuration | EngulfedDuration | GrappleDuration | RecklessDuration
  | RestrainedDuration | TurnUndeadDuration => ret tt
  end.

(** [Creature.end_turn]. *)
Definition end_turn (self : nat) : M unit :=
  let* c := get_creature self in
  for_each (lists c end_turn_duration) end_turn_effect.

(** The loop of [Creature.start_turn] that fires the start-of-turn effects. *)
Definition start_turn_effects (self : nat) : M unit :=
  let* c := get_creature self in
  for_each (lists c start_turn_duration) start_turn_effect.

(** ** adventuring_day.py: the initiative order *)

(** An entry of the initiative order: a creature, or the [LairAction] of a
    creature. *)
Inductive Participant := ACreature (i : nat) | ALairAction (creature : nat).

(** [Creature.roll_initiative] and [LairAction.roll_initiative]. *)
Definition roll_initiative (x : Participant) : M Z :=
  match x with
  | ACreature i =>
      let* c := get_creature i in
      let* r := with_rng (roll_d20 false false) in
      ret (r + abilities (traits c) Dex + initiative_modifier (traits c))
  | ALairAction _ => ret 20
  end.

(** The key of every element, computed once each, in list order. *)
Fixpoint roll_keys (l : list Participant) : M (list (Z * Participant)) :=
  match l with
  | [] => ret []
  | x :: t =>
      let* k := roll_initiative x in
      let* rest := roll_keys t in
      ret ((k, x) :: rest)
  end.

(** [sorted(l, key=..., reverse=True)] on the keyed list: Python's sort is
    stable, also with [reverse=True], so an element goes in front of the
    first element whose key is not greater than its own. *)
Fixpoint insert_reverse (x : Z * Participant) (l : list (Z * Participant))
    : list (Z * Participant) :=
  match l with
  | [] => [x]
  | y :: t => if x.1 <? y.1 then y :: insert_reverse x t else x :: y :: t
  end.

Definition sorted_reverse (l : list (Z * Participant)) : list (Z * Participant) :=
  foldr insert_reverse [] l.

(** The lair actions of [Encounter.__init__]: one per creature whose class
    overrides [lair_action]. *)
Fixpoint lair_actions_of (s : Store) (l : list nat) : list Participant :=
  match l with
  | [] => []
  | i :: t =>
      match creatures s !! i with
      | Some c => if has_lair_action (traits c)
                  then ALairAction i :: lair_actions_of s t
                  else lair_actions_of s t
      | None => lair_actions_of s t
      end
  end.

(** The participants in the order [side_A + side_B + self.lair_actions]. *)
Definition participants (s : Store) (side_A side_B : list nat) : list Participant :=
  (ACreature <$> side_A) ++ (ACreature <$> side_B) ++ lair_actions_of s (side_A ++ side_B).

(** The keyed initiative order of [Encounter.__init__]. *)
Definition initiative_keys (side_A side_B : list nat) : M (list (Z * Participant)) :=
  let* l := (fun s => Ok (participants s side_A side_B) s) in
  let* keyed := roll_keys l in
  ret (sorted_reverse keyed).

Definition initiative_order (side_A side_B : list nat) : M (list Participant) :=
  let* keyed := initiative_keys side_A side_B in
  ret (keyed.*2).

(** ** dice_roller.py: rerolls *)

Definition d6 : Die := mkDie 6.

(** [Die.reroll(reroll_threshold)]. *)
Definition Die_reroll (d : Die) (reroll_threshold : Z) (g : Rng) : Z * Rng :=
  let '(result, g1) := Die_roll1 d g in
  if result <=? reroll_threshold then Die_roll1 d g1 else (result, g1).

(** [twod6_reroll_1_2()]: the operands of [+] are evaluated left to right. *)
Definition twod6_reroll_1_2 (g : Rng) : Z * Rng :=
  let '(a, g1) := Die_reroll d6 2 g in
  let '(b, g2) := Die_reroll d6 2 g1 in
  (a + b, g2).

(** ** adventuring_day.py: sides and targets *)

(** [[creature.hp > 0 for creature in side]]. *)
Fixpoint alive_flags (side : list nat) : M (list bool) :=
  match side with
  | [] => ret []
  | i :: t =>
      let* c := get_creature i in
      let* r := alive_flags t in
      ret ((0 <? hp c) :: r)
  end.

(** [numpy.any] of a list of booleans. *)
Definition numpy_any (l : list bool) : bool := existsb id l.

(** [Encounter.active]; [and] evaluates its second operand only when the
    first is true. *)
Definition Encounter_active (side_A side_B : list nat) : M bool :=
  let* a := alive_flags side_A in
  if numpy_any a then
    let* b := alive_flags side_B in
    ret (numpy_any b)
  else ret false.

(** [Encounter.get_allies] and [Encounter.get_foes]. *)
Definition get_allies (side_A side_B : list nat) (creature : nat) : list nat :=
  if bool_decide (creature ∈ side_A) then side_A else side_B.

Definition get_foes (side_A side_B : list nat) (creature : nat) : list nat :=
  if bool_decide (creature ∈ side_A) then side_B else side_A.

(** [[creature for creature in side if creature.hp > 0]]. *)
Fixpoint with_positive_hp (side : list nat) : M (list nat) :=
  match side with
  | [] => ret []
  | i :: t =>
      let* c := get_creature i in
      let* r := with_positive_hp t in
      ret (if 0 <? hp c then i :: r else r)
  end.

(** [Generator.choice(a)] for a non-empty list: one draw picks the index. *)
Definition choice (a : list nat) : M nat :=
  with_rng (fun g =>
    let '(k, g') := integers 0 (Z.of_nat (length a) - 1) g in
    (nth (Z.to_nat k) a 0%nat, g')).

(** [Encounter.choose_target(chooser, target_allies=...)] for one target
    ([N_targets = 1], the default); the result is [None] when no target is
    valid. *)
Definition choose_target (side_A side_B : list nat) (chooser : nat)
    (target_allies : bool) : M (option nat) :=
  let* c := get_creature chooser in
  let* valid_targets :=
    match slots c swallowed with
    | Some d =>
        let* dd := get_duration d in
        let* swallower := attr (applier dd) in
        ret [swallower]
    | None =>
        if target_allies then with_positive_hp (get_allies side_A side_B chooser)
        else with_positive_hp (get_foes side_A side_B chooser)
    end in
  if bool_decide (length valid_targets = 0%nat) then ret None
  else let* t := choice valid_targets in ret (Some t).

(** ** creature.py: the statistics of a character *)

(** [Die.mean], set by [Die.__init__]: [int(sides / 2) + 1]. *)
Definition Die_mean (d : Die) : Z := int_half (sides d) + 1.

(** The proficiency bonus set by [Character.__init__]:
    [int((level - 1) / 4) + 2]. *)
Definition Character_proficiency (level : Z) : Z := Z.quot (level - 1) 4 + 2.

(** [Character.get_total_hp]. *)
Definition Character_get_total_hp (hit_die : Die) (level con : Z) : Z :=
  Z.max 1 (sides hit_die - Die_mean hit_die + level * (Die_mean hit_die + con)).

(** [Creature.get_total_hp]: the hit dice are rolled. *)
Definition Creature_get_total_hp (hit_die : Die) (total_hit_dice : nat) (con : Z)
    (g : Rng) : Z * Rng :=
  let '(x, g') := Die_call hit_die total_hit_dice g in
  (Z.max 1 (x + Z.of_nat total_hit_dice * con), g').

(** * Specification-level definitions *)

(** A property of the store that a method keeps, whether it returns or
    raises. *)
Definition preserves {A} (P : Store -> Prop) (m : M A) : Prop :=
  forall s, P s -> P (store_of (m s)).

(** The mitigation of one damage component in the words of the
    specification: subtract 3 for Heavy Armor Master on a physical type, then
    halve (rounding down) for resistance, then double for vulnerability,
    then nothing for immunity; the damage taken is never negative. *)
Definition after_heavy_armor_master (t : Traits) (ty : DamageType) (d : Z) : Z :=
  if heavy_armor_master t && is_physical ty then d - 3 else d.
Definition after_resistance (t : Traits) (ty : DamageType) (d : Z) : Z :=
  if resistances t ty then d `div` 2 else d.
Definition after_vulnerability (t : Traits) (ty : DamageType) (d : Z) : Z :=
  if vulnerabilities t ty then d * 2 else d.
Definition after_immunity (t : Traits) (ty : DamageType) (d : Z) : Z :=
  if immunities t ty then 0 else d.
Definition mitigated (t : Traits) (ty : DamageType) (d : Z) : Z :=
  Z.max 0 (after_immunity t ty
             (after_vulnerability t ty
                (after_resistance t ty (after_heavy_armor_master t ty d)))).

(** The amount [take_damage_type] has computed when it tests it against zero
    and immunity. *)
Definition code_damage (t : Traits) (ty : DamageType) (d : Z) : Z :=
  let d := if heavy_armor_master t && is_physical ty then d - 3 else d in
  let d := if resistances t ty then int_half d else d in
  if vulnerabilities t ty then d * 2 else d.

(** Hit points within bounds, for one creature and for all of them. *)
Definition hp_ok (c : Creature) : Prop := 0 <= hp c <= total_hp c.
Definition hp_in_range (s : Store) : Prop := Forall hp_ok (creatures s).

(** Example objects: a creature with all modifiers zero and no feature, a
    behir with the attributes [Behir.reset_conditions] adds, and a store
    whose generator makes every d20 show [face]. *)
Definition plain_traits : Traits :=
  mkTraits (fun _ => 0) (fun _ => 0) (fun _ => false) (fun _ => 0) (fun _ => false)
    (fun _ => 0) (fun _ => 0) 0 0 (fun _ => false) (fun _ => false) (fun _ => false)
    false false false false false false false false.

Definition plain_creature (h : Z) : Creature :=
  mkCreature Generic false plain_traits 10 h h false false false
    (fun _ => 0) (fun _ => []) (fun _ => None) ∅ ∅.

Definition behir_creature (h : Z) : Creature :=
  mkCreature Behir false plain_traits 14 h h false false false
    (fun _ => 0) (fun _ => []) (fun _ => None)
    {[ "swallowed_creatures" := [] ]} {[ "damage_taken_this_turn" := 0 ]}.

Definition fixed_rng (face : Z) : Rng := mkRng (fun _ => face - 1) 0.

Definition arena (cs : list Creature) (face : Z) : Store :=
  mkStore cs [] [] (fixed_rng face).

(** A creature resistant and vulnerable to fire, with Heavy Armor Master. *)
Definition resistant_vulnerable_fire : Creature :=
  mkCreature Generic false
    (mkTraits (fun _ => 0) (fun _ => 0) (fun _ => false) (fun _ => 0) (fun _ => false)
       (fun _ => 0) (fun _ => 0) 0 0 (fun _ => false)
       (fun ty => bool_decide (ty = fire)) (fun ty => bool_decide (ty = fire))
       false false false true false false false false)
    10 20 20 false false false (fun _ => 0) (fun _ => []) (fun _ => None) ∅ ∅.

(** The hit points and maximum hit points of every creature. *)
Definition hp_view (s : Store) : list (Z * Z) :=
  (fun c => (hp c, total_hp c)) <$> creatures s.

(** A method that leaves all hit points as they are. *)
Definition keeps_hp {A} (m : M A) : Prop :=
  forall v, preserves (fun s => hp_view s = v) m.

(** A call of [take_damage] or [heal] on some creature. *)
Inductive HpCall :=
| call_take_damage (self : nat) (primary_damage : Z) (primary_type : DamageType)
    (dealer : option nat) (ranged : bool) (secondary_damage : Z)
    (secondary_type : option DamageType)
| call_heal (self : nat) (healing : Z) (magic_healing : bool).

Definition nonneg_call (c : HpCall) : Prop :=
  match c with
  | call_take_damage _ p _ _ _ q _ => 0 <= p /\ 0 <= q
  | call_heal _ h _ => 0 <= h
  end.

Definition run_call (c : HpCall) : M unit :=
  match c with
  | call_take_damage self p pt dealer ranged q qt =>
      take_damage self p pt dealer ranged q qt >> ret tt
  | call_heal self h m => heal self h m
  end.

(** The stores observed after each call of a sequence; an exception ends the
    sequence, and the store it leaves is observed too. *)
Fixpoint observations (calls : list HpCall) (s : Store) : list Store :=
  match calls with
  | [] => []
  | c :: t =>
      match run_call c s with
      | Ok _ s' => s' :: observations t s'
      | Raise _ s' => [s']
      end
  end.

(** A creature with the Evasion feature. *)
Definition evasive_creature : Creature :=
  mkCreature Generic false
    (mkTraits (fun _ => 0) (fun _ => 0) (fun _ => false) (fun _ => 0) (fun _ => false)
       (fun _ => 0) (fun _ => 0) 0 0 (fun _ => false) (fun _ => false) (fun _ => false)
       false true false false false false false false)
    10 20 20 false false false (fun _ => 0) (fun _ => []) (fun _ => None) ∅ ∅.

(** The initiative value of every participant in the words of the
    specification: the [k]-th, [k+1]-th, ... d20 of the generator plus the
    Dexterity and initiative modifiers for the creatures, in list order, and
    20 for a lair action. *)
Fixpoint keys_from (cs : list Creature) (g : Rng) (k : nat) (l : list Participant)
    : list (Z * Participant) :=
  match l with
  | [] => []
  | ACreature i :: t =>
      match cs !! i with
      | Some c =>
          (d20_face g k + abilities (traits c) Dex + initiative_modifier (traits c),
           ACreature i) :: keys_from cs g (S k) t
      | None => []
      end
  | ALairAction o :: t => (20, ALairAction o) :: keys_from cs g k t
  end.

(** Descending order of the keys. *)
Definition key_ge (x y : Z * Participant) : Prop := y.1 <= x.1.

(** The entries with initiative value [k], in the order of the list. *)
Definition with_key (k : Z) (l : list (Z * Participant)) : list (Z * Participant) :=
  filter (fun x => x.1 = k) l.

Definition is_creature_entry (p : Z * Participant) : Prop :=
  match p.2 with ACreature _ => True | ALairAction _ => False end.

(** An entry rolled by a creature: a d20 face plus its Dexterity and
    initiative modifiers. *)
Definition creature_key (s : Store) (x : Z * Participant) : Prop :=
  exists i c r,
    x.2 = ACreature i /\ creatures s !! i = Some c /\ 1 <= r <= 20
    /\ x.1 = r + abilities (traits c) Dex + initiative_modifier (traits c).

(** A creature whose class overrides [lair_action]. *)
Definition lair_creature (h : Z) : Creature :=
  mkCreature Generic false
    (mkTraits (fun _ => 0) (fun _ => 0) (fun _ => false) (fun _ => 0) (fun _ => false)
       (fun _ => 0) (fun _ => 0) 0 0 (fun _ => false) (fun _ => false) (fun _ => false)
       false false false false false false false true)
    10 h h false false false (fun _ => 0) (fun _ => []) (fun _ => None) ∅ ∅.

(** Reading one attribute of the creature at an index. *)
Definition field {A} (g : Creature -> A) (s : Store) (i : nat) : option A :=
  g <$> creatures s !! i.

(** [x] is in the list attribute [a] of creature [i]. *)
Definition listed (s : Store) (i : nat) (a : ListAttr) (x : nat) : Prop :=
  exists l, field (fun c => lists c a) s i = Some l /\ x ∈ l.

(** What the passing of a round does to an effect by itself: the clock tick
    and the end-of-turn trigger. *)
Inductive Passage := pass_tick | pass_end_turn.

Definition pass (effect : nat) (p : Passage) : M unit :=
  match p with
  | pass_tick => tick effect
  | pass_end_turn => end_turn_effect effect
  end.

(** The escape DC of a grapple as a function of the store. *)
Definition escape_dc_of (s : Store) (grapple : nat) : option Z :=
  durations s !! grapple ≫= fun g =>
  applier g ≫= fun grappler =>
  field (fun c => 8 + proficiency (traits c) + abilities (traits c) Str) s grappler.

(** A store in which creature 0 grapples creature 1 (effect 0). *)
Definition grapple_0_1 : Duration :=
  mkDuration GrappleDuration None (Some 0%nat) (Some 1%nat) 0 false false false 0 0
    (ADie d4) acid.

Definition grappled_arena : Store :=
  mkStore [set_list grappling [0%nat] (plain_creature 10);
           set_list grappled [0%nat] (plain_creature 10)]
    [grapple_0_1] [] (fixed_rng 1).

(** A gelatinous cube with the attribute [GelatinousCube.reset_conditions]
    adds. *)
Definition cube_creature (h : Z) : Creature :=
  mkCreature Generic false plain_traits 10 h h false false false
    (fun _ => 0) (fun _ => []) (fun _ => None)
    {[ "engulfed_creatures" := [] ]} ∅.

(** The damage taken of the optional secondary component. *)
Definition optional_mitigated (t : Traits) (ty : option DamageType) (d : Z) : Z :=
  match ty with
  | Some ty => mitigated t ty d
  | None => 0
  end.


(** A creature that concentrates on spell 0, a Bless without targets, and a
    store with it alone. *)
Definition concentrating_creature (h : Z) : Creature :=
  set_slot concentration (Some 0%nat) (plain_creature h).

Definition concentrating_arena : Store :=
  mkStore [concentrating_creature 20] [] [mkSpell 0 (Bless [])] (fixed_rng 20).

(** An optional registration or counter increment of a constructor: it
    succeeds and keeps what is listed. *)
Definition keeps_listed (m : M unit) (s : Store) : Prop :=
  exists s', m s = Ok tt s' /\ durations s' = durations s
    /\ (forall j, is_Some (creatures s' !! j) <-> is_Some (creatures s !! j))
    /\ (forall j a' x, listed s j a' x -> listed s' j a' x).

(** The loop that expels every swallowed creature, as written in
    [Behir.fall_unconscious] and in [SwallowedDuration.end_turn_effect]:
    [for creature in swallower.swallowed_creatures[:]: creature.swallowed.end()]. *)
Definition expel_all (swallower : nat) : M unit :=
  let* l := get_extra_list swallower "swallowed_creatures" in
  for_each l end_swallowed.

(** The store after [SwallowedDuration.end] has released [t] from [sw]:
    [l'], [ls'] and [le'] are the swallowed creatures, the start-of-turn
    list and the end-of-turn list without the released entry. *)
Definition release_one (sw t : nat) (l' ls' le' : list nat) (s : Store) : Store :=
  update_creature t (set_prone true)
    (update_creature t (fun c => set_counter restrained (counters c restrained + -1) c)
       (update_creature t (fun c => set_counter blinded (counters c blinded + -1) c)
          (update_creature t (set_list end_turn_duration le')
             (update_creature t (set_list start_turn_duration ls')
                (update_creature t (set_slot swallowed None)
                   (update_creature sw (set_extra_list "swallowed_creatures" l') s)))))).

(** The swallowed creatures [l] of [sw] are linked as
    [SwallowedDuration.__init__] links them. *)
Definition swallow_wf (s : Store) (sw : nat) (l : list nat) : Prop :=
  NoDup l
  /\ field (fun c => extra_lists c !! "swallowed_creatures") s sw = Some (Some l)
  /\ forall t, t ∈ l ->
       exists d dd,
         field (fun c => slots c swallowed) s t = Some (Some d)
         /\ durations s !! d = Some dd
         /\ kind dd = SwallowedDuration
         /\ applier dd = Some sw /\ target dd = Some t
         /\ listed s t start_turn_duration d
         /\ listed s t end_turn_duration d.

(** What the expulsion does to the counters of an expelled creature. *)
Definition released_counter (k : Counter) (x : Z) : Z :=
  if decide (k = blinded \/ k = restrained) then x - 1 else x.

(** Every creature of [l] has been expelled from [sw] between [s] and [s']:
    the swallower's list is empty, the creatures are no longer swallowed, are
    prone, and their blinded and restrained counters are one lower. *)
Definition expelled (s s' : Store) (sw : nat) (l : list nat) : Prop :=
  field (fun c => extra_lists c !! "swallowed_creatures") s' sw = Some (Some [])
  /\ forall t, t ∈ l ->
       field (fun c => (slots c swallowed, prone c)) s' t = Some (None, true)
       /\ forall k, field (fun c => counters c k) s' t
                    = released_counter k <$> field (fun c => counters c k) s t.

(** A store in which the behir 0 has swallowed creature 1 (effect 0, with
    threshold 30 and DC 14) and has taken 30 damage from it this turn. *)
Definition swallow_0_1 : Duration :=
  mkDuration SwallowedDuration None (Some 0%nat) (Some 1%nat) 14 false false false 30 0
    (ADie d4) acid.

Definition swallowed_arena : Store :=
  mkStore
    [set_extra_int "damage_taken_this_turn" 30
       (set_extra_list "swallowed_creatures" [1%nat] (behir_creature 100));
     set_counter restrained 1
       (set_counter blinded 1
          (set_list end_turn_duration [0%nat]
             (set_list start_turn_duration [0%nat]
                (set_slot swallowed (Some 0%nat) (plain_creature 20)))))]
    [swallow_0_1] [] (fixed_rng 1).

(** An assignment made only when [b] holds. *)
Definition cond_update (b : bool) (i : nat) (f : Creature -> Creature) (s : Store) : Store :=
  if b then update_creature i f s else s.

(** The store after [GrappleDuration.end] on the grapple [dd] of grappler
    [gr] on target [t]; [lg'], [lt'] and [ls'] are the grappler's
    [grappling], the target's [grappled] and the target's start-of-turn list
    without the grapple. *)
Definition release_grapple (gr t : nat) (dd : Duration) (lg' lt' ls' : list nat)
    (s : Store) : Store :=
  cond_update (grapple_stunned dd) t
    (fun c => set_counter stunned (counters c stunned + -1) c)
    (cond_update (grapple_restrained dd) t
       (fun c => set_counter restrained (counters c restrained + -1) c)
       (cond_update (escape_priority dd) t (set_list start_turn_duration ls')
          (update_creature t (set_list grappled lt')
             (update_creature gr (set_list grappling lg') s)))).

(** The grapples [gs] of the grappler [gr] are linked as
    [GrappleDuration.__init__] links them, each once. *)
Definition grapples_wf (s : Store) (gr : nat) (gs : list nat) : Prop :=
  NoDup gs
  /\ field (fun c => lists c grappling) s gr = Some gs
  /\ forall g, g ∈ gs ->
       exists dd t lt,
         durations s !! g = Some dd /\ kind dd = GrappleDuration
         /\ applier dd = Some gr /\ target dd = Some t
         /\ field (fun c => lists c grappled) s t = Some lt /\ g ∈ lt /\ NoDup lt
         /\ (escape_priority dd = true -> listed s t start_turn_duration g).

(** An attribute that ending a grapple does not assign. *)
Definition grapple_framed {A} (g : Creature -> A) : Prop :=
  (forall c a v, a <> spirit_guardians -> a <> end_turn_duration ->
                 g (set_list a v c) = g c)
  /\ (forall c k v, g (set_counter k v c) = g c).

(** The concentration spell [sp_id] of [self] can be ended: its targets
    exist, a Spirit Guardians is on the list of each of its (distinct)
    targets, and the caster of a Shield of Faith is not verbose. *)
Definition spell_wf (s : Store) (self sp_id : nat) : Prop :=
  exists sp,
    spells s !! sp_id = Some sp /\ caster sp = self
    /\ is_Some (creatures s !! self)
    /\ match effect sp with
       | Bane ts | Bless ts => Forall (fun t => is_Some (creatures s !! t)) ts
       | GreaterInvisibility t => is_Some (creatures s !! t)
       | ShieldOfFaith => field verbose s self = Some false
       | SpiritGuardians ts =>
           NoDup ts /\ Forall (fun t => listed s t spirit_guardians sp_id) ts
       end.

(** An attribute that ending a concentration spell does not assign. *)
Definition spell_framed {A} (g : Creature -> A) : Prop :=
  (forall c v, g (set_slot concentration v c) = g c)
  /\ (forall c k v, g (set_counter k v c) = g c)
  /\ (forall c v, g (set_base_armor_class v c) = g c)
  /\ (forall c v, g (set_list spirit_guardians v c) = g c).

(** An attribute that expelling a swallowed creature does not assign. *)
Definition swallow_framed {A} (g : Creature -> A) : Prop :=
  (forall c nm l, g (set_extra_list nm l c) = g c)
  /\ (forall c v, g (set_slot swallowed v c) = g c)
  /\ (forall c v, g (set_list start_turn_duration v c) = g c)
  /\ (forall c v, g (set_list end_turn_duration v c) = g c)
  /\ (forall c k v, g (set_counter k v c) = g c)
  /\ (forall c v, g (set_prone v c) = g c).

(** The fixed part of a saving throw: ability and save modifiers, and the
    proficiency bonus of a proficient creature. *)
Definition save_bonus (t : Traits) (ability : Ability) : Z :=
  abilities t ability + save_modifiers t ability
  + (if save_proficiencies t ability then proficiency t else 0).

(** A plain creature with a condition counter set. *)
Definition afflicted_creature (k : Counter) (n h : Z) : Creature :=
  set_counter k n (plain_creature h).

(** Whether effect [e] is a [BleedingDuration] among the effects [ds]. *)
Definition bleeds (ds : list Duration) (e : nat) : bool :=
  bool_decide (kind <$> ds !! e = Some BleedingDuration).

(** An attribute that [heal] does not assign. *)
Definition heal_framed {A} (g : Creature -> A) : Prop :=
  (forall c v, g (set_hp v c) = g c)
  /\ (forall c v, g (set_list start_turn_duration v c) = g c).

(** A creature that bleeds from effect 0 and is also under effect 1, a
    Reckless Attack of its own. *)
Definition bleeding_arena : Store :=
  mkStore
    [set_hp 9 (set_list start_turn_duration [0%nat; 1%nat] (plain_creature 10))]
    [mkDuration BleedingDuration (Some 5) None (Some 0%nat) 0 false false false 0 1
       (ADie d4) slashing;
     mkDuration RecklessDuration (Some 1) None (Some 0%nat) 0 false false false 0 0
       (ADie d4) acid]
    [] (fixed_rng 1).

(** Two states of a creature with the same value in every attribute. *)
Definition same_creature (c c' : Creature) : Prop :=
  klass c' = klass c /\ verbose c' = verbose c /\ traits c' = traits c
  /\ base_armor_class c' = base_armor_class c
  /\ hp c' = hp c /\ total_hp c' = total_hp c /\ action c' = action c
  /\ death_ward c' = death_ward c /\ prone c' = prone c
  /\ (forall k, counters c' k = counters c k)
  /\ (forall a, lists c' a = lists c a)
  /\ (forall a, slots c' a = slots c a)
  /\ extra_lists c' = extra_lists c /\ extra_ints c' = extra_ints c.

(** Creating an effect and ending it at once: both calls return, the new
    object is the only trace, and every creature is as it was. *)
Definition round_trip (init : M nat) (s : Store) : Prop :=
  exists s1 s2 d,
    init s = Ok (length (durations s)) s1
    /\ Duration_end (length (durations s)) s1 = Ok tt s2
    /\ durations s2 = durations s ++ [d]
    /\ spells s2 = spells s /\ rng s2 = rng s
    /\ Forall2 same_creature (creatures s) (creatures s2).

(** The effects registered on creature [i] are objects of the store. *)
Definition registered_exist (s : Store) (i : nat) : Prop :=
  forall a x, listed s i a x -> (x < length (durations s))%nat.

(** The counter that [end()] of a class decrements first, and the list of
    the target it then removes the effect from. *)
Definition end_counter (k : DurationKind) : option (Counter * ListAttr) :=
  match k with
  | FrightenedDuration | FrightenedOneTurnDuration => Some (frightened, end_turn_duration)
  | ParalyzedDuration => Some (paralyzed, end_turn_duration)
  | PoisonedDuration => Some (poisoned, end_turn_duration)
  | SlowedDuration => Some (slowed, end_turn_duration)
  | StunnedDuration => Some (stunned, end_turn_duration)
  | RecklessDuration => Some (target_adv, start_turn_duration)
  | RestrainedDuration => Some (restrained, start_turn_duration)
  | _ => None
  end.

(** A restrained condition on creature 0 that has already ended. *)
Definition ended_arena : Store :=
  mkStore [plain_creature 10]
    [mkDuration RestrainedDuration None None (Some 0%nat) 12 false false false 0 0
       (ADie d4) acid]
    [] (fixed_rng 1).

(** [k] successive calls of [effect.tick()]. *)
Fixpoint ticks (k : nat) (effect : nat) : M unit :=
  match k with
  | O => ret tt
  | S k' => tick effect >> ticks k' effect
  end.

(** A Reckless Attack effect with a duration of [n] rounds on creature 0. *)
Definition reckless_arena (n : Z) : Store :=
  mkStore
    [set_counter target_adv 1 (set_list start_turn_duration [0%nat] (plain_creature 10))]
    [mkDuration RecklessDuration (Some n) None (Some 0%nat) 0 false false false 0 0
       (ADie d4) acid]
    [] (fixed_rng 1).

(** Creature 1 has turned creature 0 (effect 0), which is immune to fire. *)
Definition fire_immune_turned : Creature :=
  mkCreature Generic false
    (mkTraits (fun _ => 0) (fun _ => 0) (fun _ => false) (fun _ => 0) (fun _ => false)
       (fun _ => 0) (fun _ => 0) 0 0 (fun t => bool_decide (t = fire))
       (fun _ => false) (fun _ => false)
       false false false false false false false false)
    10 10 10 false false false
    (fun _ => 0) (fun _ => []) (fun a => if decide (a = turned) then Some 0%nat else None)
    ∅ ∅.

Definition turning_1_0 : Duration :=
  mkDuration TurnUndeadDuration (Some 10) (Some 1%nat) (Some 0%nat) 0
    false false false 0 0 (ADie d4) acid.

Definition turned_arena : Store :=
  mkStore
    [fire_immune_turned; set_list start_turn_duration [0%nat] (plain_creature 10)]
    [turning_1_0] [] (fixed_rng 1).

(** A verbose creature that concentrates on spell 0, a Shield of Faith. *)
Definition verbose_caster : Creature :=
  mkCreature Generic true plain_traits 12 10 10 false false false
    (fun _ => 0) (fun _ => [])
    (fun a => if decide (a = concentration) then Some 0%nat else None) ∅ ∅.

Definition shielded_arena : Store :=
  mkStore [verbose_caster] [] [mkSpell 0 ShieldOfFaith] (fixed_rng 1).

(** [creature.hp > 0] for the creature at an index. *)
Definition has_positive_hp (s : Store) (i : nat) : bool :=
  match creatures s !! i with
  | Some c => 0 <? hp c
  | None => false
  end.

(** Whether a grapple had raised counter [k] of its target. *)
Definition raised_by (dd : Duration) (k : Counter) : bool :=
  (bool_decide (k = restrained) && grapple_restrained dd)
  || (bool_decide (k = stunned) && grapple_stunned dd).

(** What ending the grapple [g] gives back on counter [k] of creature [j],
    and what ending the grapples [gs] gives back in all. *)
Definition grapple_release (ds : list Duration) (j : nat) (k : Counter) (g : nat) : Z :=
  match ds !! g with
  | Some dd => if bool_decide (target dd = Some j) && raised_by dd k then 1 else 0
  | None => 0
  end.

Definition released_by_grapples (ds : list Duration) (gs : list nat) (j : nat)
    (k : Counter) : Z :=
  sum_list (grapple_release ds j k <$> gs).

(** Creature 0 restrains creature 1 in a grapple with escape priority
    (effect 0) and is itself grappled by creature 2 (effect 1). *)
Definition restraining_arena : Store :=
  mkStore
    [set_list grappled [1%nat] (set_list grappling [0%nat] (plain_creature 10));
     set_counter restrained 1
       (set_list start_turn_duration [0%nat]
          (set_list grappled [0%nat] (plain_creature 10)));
     set_list grappling [1%nat] (plain_creature 10)]
    [mkDuration GrappleDuration None (Some 0%nat) (Some 1%nat) 0 true true false 0 0
       (ADie d4) acid;
     mkDuration GrappleDuration None (Some 2%nat) (Some 0%nat) 0 false false false 0 0
       (ADie d4) acid]
    [] (fixed_rng 1).

(** The creature of [concentrating_arena] with 1 hit point and an active
    Death Ward, and a store with it alone. *)
Definition warded_creature : Creature :=
  set_death_ward true (concentrating_creature 1).

Definition warded_arena : Store :=
  mkStore [warded_creature] [] [mkSpell 0 (Bless [])] (fixed_rng 20).

(** * Properties *)

(** ** The dice roller *)

Lemma d20_face_range (g : Rng) (k : nat) : 1 <= d20_face g k <= 20.
Proof.
  unfold d20_face.
  pose proof (Z.mod_pos_bound (tape g (cursor g + k)%nat) 20). lia.
Qed.

Lemma integers_d20 (g : Rng) : integers 1 20 g = (d20_face g 0, advance g 1).
Proof.
  unfold integers, d20_face, advance.
  rewrite Nat.add_0_r, Nat.add_1_r. reflexivity.
Qed.

Lemma Die_roll_d20_twice (g : Rng) :
  Die_roll d20 2 g = ([d20_face g 0; d20_face g 1], advance g 2).
Proof.
  unfold Die_roll, d20_face, advance; simpl.
  rewrite Nat.add_0_r, Nat.add_1_r.
  replace (cursor g + 2)%nat with (S (S (cursor g))) by lia.
  reflexivity.
Qed.

(** C9.  With advantage alone [roll_d20] returns the larger of two
    successive d20 draws, with disadvantage alone the smaller of two, and
    with both flags set it makes the single plain draw it makes with neither
    flag. *)
Theorem roll_d20_advantage_disadvantage (g : Rng) :
  roll_d20 true false g = (Z.max (d20_face g 0) (d20_face g 1), advance g 2)
  ∧ roll_d20 false true g = (Z.min (d20_face g 0) (d20_face g 1), advance g 2)
  ∧ roll_d20 true true g = roll_d20 false false g
  ∧ roll_d20 false false g = (d20_face g 0, advance g 1).
Proof.
  unfold roll_d20; cbn [andb negb].
  rewrite Die_roll_d20_twice. unfold Die_call.
  rewrite decide_True by reflexivity.
  unfold Die_roll1; cbn [sides d20]. rewrite integers_d20.
  repeat split.
Qed.

(** A roll without flags is one draw. *)
Lemma roll_d20_plain (g : Rng) : roll_d20 false false g = (d20_face g 0, advance g 1).
Proof.
  unfold roll_d20; cbn [andb negb]. unfold Die_call.
  rewrite decide_True by reflexivity.
  unfold Die_roll1; cbn [sides d20]. rewrite integers_d20. reflexivity.
Qed.

(** ** Reasoning about methods *)

Lemma bind_Ok {A B} (m : M A) (k : A -> M B) s a s' :
  m s = Ok a s' -> bind m k s = k a s'.
Proof. unfold bind. intros ->. reflexivity. Qed.

Lemma bind_Raise {A B} (m : M A) (k : A -> M B) s e s' :
  m s = Raise e s' -> bind m k s = Raise e s'.
Proof. unfold bind. intros ->. reflexivity. Qed.

Lemma get_creature_Ok s i c : creatures s !! i = Some c -> get_creature i s = Ok c s.
Proof. unfold get_creature. intros ->. reflexivity. Qed.

Lemma get_duration_Ok s i d : durations s !! i = Some d -> get_duration i s = Ok d s.
Proof. unfold get_duration. intros ->. reflexivity. Qed.

Lemma get_spell_Ok s i sp : spells s !! i = Some sp -> get_spell i s = Ok sp s.
Proof. unfold get_spell. intros ->. reflexivity. Qed.

Lemma modify_creature_Ok s i f c :
  creatures s !! i = Some c -> modify_creature i f s = Ok tt (update_creature i f s).
Proof. intros H. unfold modify_creature. rewrite (bind_Ok _ _ _ _ _ (get_creature_Ok _ _ _ H)). reflexivity. Qed.


Section Preserves.
Context (P : Store -> Prop).

Lemma preserves_ret {A} (a : A) : preserves P (ret a).
Proof. intros s H. exact H. Qed.

Lemma preserves_raise {A} e : preserves P (raise (A:=A) e).
Proof. intros s H. exact H. Qed.

Lemma preserves_pure {A} (f : Store -> A) : preserves P (fun s => Ok (f s) s).
Proof. intros s H. exact H. Qed.

Lemma preserves_bind {A B} (m : M A) (k : A -> M B) :
  preserves P m -> (forall a, preserves P (k a)) -> preserves P (bind m k).
Proof.
  intros Hm Hk s H. unfold bind. specialize (Hm s H).
  destruct (m s) as [a s'|e s']; simpl in *; [apply Hk; exact Hm | exact Hm].
Qed.

Lemma preserves_when b (m : M unit) : preserves P m -> preserves P (when b m).
Proof. intros Hm. destruct b; simpl; [exact Hm | apply preserves_ret]. Qed.

Lemma preserves_for_each {A} (l : list A) (body : A -> M unit) :
  (forall x, preserves P (body x)) -> preserves P (for_each l body).
Proof.
  intros Hb. induction l as [|x l IH]; simpl.
  - apply preserves_ret.
  - apply preserves_bind; [apply Hb | intros _; exact IH].
Qed.

Lemma preserves_attr {A} (o : option A) : preserves P (attr o).
Proof. destruct o; [apply preserves_ret | apply preserves_raise]. Qed.

Lemma preserves_get_creature i : preserves P (get_creature i).
Proof. intros s H. unfold get_creature. destruct (creatures s !! i); exact H. Qed.

Lemma preserves_get_duration i : preserves P (get_duration i).
Proof. intros s H. unfold get_duration. destruct (durations s !! i); exact H. Qed.

Lemma preserves_get_spell i : preserves P (get_spell i).
Proof. intros s H. unfold get_spell. destruct (spells s !! i); exact H. Qed.

Lemma preserves_modify_creature i f :
  (forall s c, creatures s !! i = Some c -> P s -> P (update_creature i f s)) ->
  preserves P (modify_creature i f).
Proof.
  intros Hf s H. unfold modify_creature, bind, get_creature.
  destruct (creatures s !! i) as [c|] eqn:E; simpl; [eapply Hf; eauto | exact H].
Qed.

Lemma preserves_modify_duration i f :
  (forall s, P s -> P (update_duration i f s)) -> preserves P (modify_duration i f).
Proof.
  intros Hf s H. unfold modify_duration, bind, get_duration.
  destruct (durations s !! i) as [c|] eqn:E; simpl; [eapply Hf; eauto | exact H].
Qed.

Lemma preserves_with_rng {A} (f : Rng -> A * Rng) :
  (forall s g, P s -> P (set_rng g s)) -> preserves P (with_rng f).
Proof.
  intros Hf s H. unfold with_rng. destruct (f (rng s)) as [a g]. simpl. apply Hf, H.
Qed.
End Preserves.

(** Structural steps of a [preserves] proof; [leaf] closes the goals about
    the assignments. *)
Ltac pres_step leaf :=
  lazymatch goal with
  | |- preserves _ (bind _ _) => apply preserves_bind; [| intros ?]
  | |- preserves _ (ret _) => apply preserves_ret
  | |- preserves _ (raise _) => apply preserves_raise
  | |- preserves _ (when _ _) => apply preserves_when
  | |- preserves _ (for_each _ _) => apply preserves_for_each; intros ?
  | |- preserves _ (attr _) => apply preserves_attr
  | |- preserves _ (get_creature _) => apply preserves_get_creature
  | |- preserves _ (get_duration _) => apply preserves_get_duration
  | |- preserves _ (get_spell _) => apply preserves_get_spell
  | |- preserves _ (modify_creature _ _) => apply preserves_modify_creature; leaf
  | |- preserves _ (modify_duration _ _) => apply preserves_modify_duration; leaf
  | |- preserves _ (with_rng _) => apply preserves_with_rng; leaf
  | |- preserves _ (match ?x with _ => _ end) => destruct x
  | |- preserves _ (fun s => Ok _ s) => apply preserves_pure
  | |- preserves _ (let '(_, _) := ?x in _) => destruct x
  end.

Ltac unfold_prims :=
  unfold add_counter, list_append, list_remove, extra_list_append, extra_list_remove,
    get_extra_list, get_extra_int, set_extra_int_attr.

Ltac pres leaf := unfold_prims; repeat pres_step leaf.

(** ** Damage *)

Lemma update_creature_lookup s i f j :
  creatures (update_creature i f s) !! j =
  if decide (i = j) then f <$> creatures s !! j else creatures s !! j.
Proof.
  unfold update_creature; simpl. destruct (decide (i = j)) as [->|Hne].
  - apply list_lookup_alter_eq.
  - apply list_lookup_alter_ne, Hne.
Qed.

Lemma update_creature_lookup_eq s i f :
  creatures (update_creature i f s) !! i = f <$> creatures s !! i.
Proof. rewrite update_creature_lookup, decide_True; reflexivity. Qed.

Lemma int_half_floor (x : Z) : 0 <= x -> int_half x = x `div` 2.
Proof. intros H. unfold int_half. apply Z.quot_div_nonneg; lia. Qed.

Lemma int_half_nonpos (x : Z) : x <= 0 -> int_half x <= 0.
Proof.
  intros H. unfold int_half.
  rewrite <- (Z.opp_involutive x), Z.quot_opp_l by lia.
  pose proof (Z.quot_pos (- x) 2). lia.
Qed.

Lemma floor_half_nonpos (x : Z) : x <= 0 -> x `div` 2 <= 0.
Proof. intros H. apply Z.div_le_upper_bound; lia. Qed.

Lemma code_damage_mitigated t ty d :
  (if (code_damage t ty d <=? 0) || immunities t ty then 0 else code_damage t ty d)
  = mitigated t ty d.
Proof.
  unfold code_damage, mitigated, after_immunity, after_vulnerability,
    after_resistance, after_heavy_armor_master.
  set (x := if heavy_armor_master t && is_physical ty then d - 3 else d).
  clearbody x.
  destruct (resistances t ty), (vulnerabilities t ty), (immunities t ty);
    rewrite ?orb_true_r, ?orb_false_r; try lia;
    destruct (Z_le_gt_dec x 0) as [Hx|Hx];
    try (pose proof (int_half_nonpos x Hx); pose proof (floor_half_nonpos x Hx));
    try (rewrite (int_half_floor x) by lia;
         assert (0 <= x `div` 2) by (apply Z.div_pos; lia));
    repeat case_match; lia.
Qed.

Lemma take_damage_type_unfold s i c d ty :
  creatures s !! i = Some c ->
  take_damage_type i d ty s =
  if mitigated (traits c) ty d =? 0 then Ok 0 s
  else Ok (mitigated (traits c) ty d)
          (update_creature i (set_hp (Z.max 0 (hp c - mitigated (traits c) ty d))) s).
Proof.
  intros Hc. unfold take_damage_type.
  rewrite (bind_Ok _ _ _ _ _ (get_creature_Ok _ _ _ Hc)).
  fold (code_damage (traits c) ty d).
  rewrite <- code_damage_mitigated.
  destruct ((code_damage (traits c) ty d <=? 0) || immunities (traits c) ty) eqn:E.
  - reflexivity.
  - apply orb_false_iff in E as [E1 E2]. apply Z.leb_gt in E1.
    rewrite (proj2 (Z.eqb_neq _ _)) by lia.
    rewrite (bind_Ok _ _ _ _ _ (modify_creature_Ok _ _ _ _ Hc)).
    assert (Hc' : creatures (update_creature i (fun c0 => set_hp (hp c0 - code_damage (traits c) ty d) c0) s) !! i
                  = Some (set_hp (hp c - code_damage (traits c) ty d) c)).
    { rewrite update_creature_lookup_eq, Hc. reflexivity. }
    rewrite (bind_Ok _ _ _ _ _ (get_creature_Ok _ _ _ Hc')).
    cbn [hp set_hp].
    destruct (hp c - code_damage (traits c) ty d <? 0) eqn:E3; cbn [when].
    + apply Z.ltb_lt in E3.
      rewrite (bind_Ok _ _ _ _ _ (modify_creature_Ok _ _ _ _ Hc')).
      unfold ret. f_equal. unfold update_creature; cbn [creatures durations spells rng].
      f_equal. rewrite list_alter_alter_eq. apply list_alter_ext; [|reflexivity].
      intros x _. unfold compose, set_hp; cbn. f_equal. lia.
    + apply Z.ltb_ge in E3. unfold ret, bind. f_equal.
      unfold update_creature; cbn [creatures durations spells rng].
      f_equal. apply list_alter_ext; [|reflexivity].
      intros x Hx. rewrite Hc in Hx. injection Hx as <-. f_equal. lia.
Qed.

(** C4.  [take_damage_type] takes the damage the fixed chain gives (Heavy
    Armor Master, resistance rounding down, vulnerability, immunity) and
    lowers the hit points by it, never below zero; a creature resistant and
    vulnerable to a type, not immune to it and without the Heavy Armor Master
    reduction, that takes 5 damage of the type loses 4 hit points. *)
Theorem take_damage_type_order s i c d ty :
  creatures s !! i = Some c -> 0 <= hp c ->
  (exists s',
     take_damage_type i d ty s = Ok (mitigated (traits c) ty d) s'
     /\ hp <$> creatures s' !! i = Some (Z.max 0 (hp c - mitigated (traits c) ty d)))
  /\ (resistances (traits c) ty = true -> vulnerabilities (traits c) ty = true ->
      immunities (traits c) ty = false ->
      heavy_armor_master (traits c) && is_physical ty = false ->
      4 <= hp c ->
      exists s',
        take_damage_type i 5 ty s = Ok 4 s'
        /\ hp <$> creatures s' !! i = Some (hp c - 4)).
Proof.
  intros Hc Hhp.
  assert (Hgen : forall d, exists s',
     take_damage_type i d ty s = Ok (mitigated (traits c) ty d) s'
     /\ hp <$> creatures s' !! i = Some (Z.max 0 (hp c - mitigated (traits c) ty d))).
  { intros d'. rewrite (take_damage_type_unfold _ _ _ _ _ Hc).
    destruct (mitigated (traits c) ty d' =? 0) eqn:E.
    - apply Z.eqb_eq in E. rewrite E. eexists; split; [reflexivity|].
      rewrite Hc; simpl. f_equal. lia.
    - eexists; split; [reflexivity|].
      rewrite update_creature_lookup_eq, Hc. reflexivity. }
  split; [apply Hgen|].
  intros Hr Hv Him Hham Hhp4.
  assert (Hm : mitigated (traits c) ty 5 = 4).
  { unfold mitigated, after_immunity, after_vulnerability, after_resistance,
      after_heavy_armor_master. rewrite Hr, Hv, Him, Hham. reflexivity. }
  destruct (Hgen 5) as (s' & H1 & H2). rewrite Hm in H1, H2.
  exists s'. split; [exact H1|]. rewrite H2. f_equal. lia.
Qed.

Lemma take_damage_type_order_witness :
  exists s',
    take_damage_type 0 5 fire (arena [resistant_vulnerable_fire] 1) = Ok 4 s'
    /\ hp <$> creatures s' !! 0%nat = Some 16.
Proof.
  refine (proj2 (take_damage_type_order (arena [resistant_vulnerable_fire] 1) 0
                   resistant_vulnerable_fire 5 fire _ _) _ _ _ _ _);
    first [reflexivity | vm_compute; congruence].
Defined.

(** ** Hit points stay within bounds *)

Lemma hp_view_update s i f :
  (forall c, hp (f c) = hp c /\ total_hp (f c) = total_hp c) ->
  hp_view (update_creature i f s) = hp_view s.
Proof.
  intros Hf. unfold hp_view, update_creature; cbn [creatures].
  rewrite (list_fmap_alter _ f id).
  - apply list_alter_id. reflexivity.
  - apply Forall_forall. intros c _. destruct (Hf c) as [-> ->]. reflexivity.
Qed.

Ltac hp_leaf :=
  intros; first
    [ rewrite hp_view_update; [assumption | intros; split; reflexivity]
    | assumption ].

Ltac keeps_hp_tac := intros ?; pres hp_leaf.

Lemma Spell_end_keeps_hp self : keeps_hp (Spell_end self).
Proof. unfold Spell_end. keeps_hp_tac. Qed.

Lemma Duration_end_keeps_hp self : keeps_hp (Duration_end self).
Proof.
  unfold Duration_end, BleedingDuration_end, EngulfedDuration_end,
    FrightenedDuration_end, FrightenedOneTurnDuration_end, GrappleDuration_end,
    ParalyzedDuration_end, PoisonedDuration_end, RecklessDuration_end,
    RestrainedDuration_end, SlowedDuration_end, StunnedDuration_end,
    SwallowedDuration_end, TurnUndeadDuration_end.
  keeps_hp_tac.
Qed.

Lemma saving_throw_keeps_hp self ability dc adv disadv save_type :
  keeps_hp (saving_throw self ability dc adv disadv save_type).
Proof. unfold saving_throw, roll_save. keeps_hp_tac. Qed.

Lemma hp_in_range_view s : hp_in_range s <-> Forall (fun p => 0 <= p.1 <= p.2) (hp_view s).
Proof. unfold hp_in_range, hp_view. rewrite Forall_fmap. reflexivity. Qed.

Lemma keeps_hp_in_range {A} (m : M A) : keeps_hp m -> preserves hp_in_range m.
Proof.
  intros Hm s Hs. apply hp_in_range_view.
  rewrite (Hm (hp_view s) s eq_refl). apply hp_in_range_view, Hs.
Qed.

Lemma hp_in_range_update s i f :
  hp_in_range s ->
  (forall c, creatures s !! i = Some c -> hp_ok c -> hp_ok (f c)) ->
  hp_in_range (update_creature i f s).
Proof. intros Hs Hf. unfold hp_in_range, update_creature; cbn [creatures]. apply Forall_alter; assumption. Qed.

Lemma hp_in_range_lookup s i c : hp_in_range s -> creatures s !! i = Some c -> hp_ok c.
Proof. intros Hs Hc. eapply Forall_lookup_1; eassumption. Qed.

Lemma take_damage_type_in_range self d ty : preserves hp_in_range (take_damage_type self d ty).
Proof.
  intros s Hs. destruct (creatures s !! self) as [c|] eqn:Hc.
  - rewrite (take_damage_type_unfold _ _ _ _ _ Hc).
    destruct (_ =? 0); cbn [store_of]; [exact Hs|].
    apply hp_in_range_update; [exact Hs|].
    intros c' Hc' [H1 H2]. rewrite Hc in Hc'. injection Hc' as <-.
    unfold hp_ok; cbn [hp total_hp set_hp].
    assert (0 <= mitigated (traits c) ty d) by (unfold mitigated; lia). lia.
  - unfold take_damage_type, bind, get_creature. rewrite Hc. exact Hs.
Qed.

Lemma Creature_fall_unconscious_in_range self :
  preserves hp_in_range (Creature_fall_unconscious self).
Proof.
  intros s Hs. unfold Creature_fall_unconscious.
  destruct (creatures s !! self) as [c|] eqn:Hc.
  - rewrite (bind_Ok _ _ _ _ _ (get_creature_Ok _ _ _ Hc)).
    destruct (death_ward c && (0 <? total_hp c)) eqn:E.
    + apply andb_true_iff in E as [_ E]. apply Z.ltb_lt in E.
      rewrite (bind_Ok _ _ _ _ _ (modify_creature_Ok _ _ _ _ Hc)).
      erewrite modify_creature_Ok
        by (rewrite update_creature_lookup_eq, Hc; reflexivity).
      cbn [store_of]. apply hp_in_range_update.
      * apply hp_in_range_update; [exact Hs|]. intros; assumption.
      * intros c'. rewrite update_creature_lookup_eq, Hc. intros [= <-] _.
        unfold hp_ok; cbn. lia.
    + revert s Hs Hc. 
      change (forall s, hp_in_range s -> creatures s !! self = Some c -> hp_in_range (store_of (
        (modify_creature self (set_prone true) >>
         let* c0 := get_creature self in
         for_each (lists c0 grappling) Duration_end >>
         let* c1 := get_creature self in
         match slots c1 concentration with
         | Some sp => Spell_end sp
         | None => ret tt
         end) s))).
      intros s Hs _. revert s Hs. apply keeps_hp_in_range. intros v.
      pres hp_leaf; first [apply Duration_end_keeps_hp | apply Spell_end_keeps_hp].
  - unfold bind, get_creature. rewrite Hc. exact Hs.
Qed.

Lemma end_swallowed_keeps_hp creature : keeps_hp (end_swallowed creature).
Proof. unfold end_swallowed. intros v. pres hp_leaf. apply Duration_end_keeps_hp. Qed.

Lemma fall_unconscious_in_range self : preserves hp_in_range (fall_unconscious self).
Proof.
  unfold fall_unconscious, Behir_fall_unconscious.
  pres idtac; try apply Creature_fall_unconscious_in_range.
  apply keeps_hp_in_range, end_swallowed_keeps_hp.
Qed.

Lemma end_concentration_keeps_hp self : keeps_hp (end_concentration self).
Proof. unfold end_concentration. intros v. pres hp_leaf. apply Spell_end_keeps_hp. Qed.

Lemma Creature_take_damage_in_range self p pt dealer ranged q qt :
  preserves hp_in_range (Creature_take_damage self p pt dealer ranged q qt).
Proof.
  unfold Creature_take_damage.
  pres idtac;
    first [ apply take_damage_type_in_range
          | apply fall_unconscious_in_range
          | apply keeps_hp_in_range, saving_throw_keeps_hp
          | apply keeps_hp_in_range, end_concentration_keeps_hp
          | apply keeps_hp_in_range, Duration_end_keeps_hp ].
Qed.

Lemma take_damage_in_range self p pt dealer ranged q qt :
  preserves hp_in_range (take_damage self p pt dealer ranged q qt).
Proof.
  unfold take_damage, Behir_take_damage.
  pres ltac:(intros; apply hp_in_range_update; [assumption | intros; assumption]);
    apply Creature_take_damage_in_range.
Qed.

Lemma heal_in_range self healing magic_healing :
  0 <= healing -> preserves hp_in_range (heal self healing magic_healing).
Proof.
  intros Hh s Hs. unfold heal.
  destruct (creatures s !! self) as [c|] eqn:Hc.
  - rewrite (bind_Ok _ _ _ _ _ (modify_creature_Ok _ _ _ _ Hc)).
    pose proof (hp_in_range_lookup _ _ _ Hs Hc) as [Hc1 Hc2].
    set (s1 := update_creature self (fun c0 => set_hp (hp c0 + healing) c0) s).
    assert (Hc' : creatures s1 !! self = Some (set_hp (hp c + healing) c)).
    { unfold s1. rewrite update_creature_lookup_eq, Hc. reflexivity. }
    rewrite (bind_Ok _ _ _ _ _ (get_creature_Ok _ _ _ Hc')).
    cbn [hp total_hp set_hp].
    assert (Hmid : exists s2,
      when (total_hp c <? hp c + healing) (modify_creature self (set_hp (total_hp c))) s1
      = Ok tt s2 /\ hp_in_range s2).
    { destruct (total_hp c <? hp c + healing) eqn:E; cbn [when].
      - apply Z.ltb_lt in E. rewrite (modify_creature_Ok _ _ _ _ Hc').
        eexists; split; [reflexivity|].
        unfold s1, update_creature; cbn [creatures durations spells rng].
        unfold hp_in_range; cbn [creatures]. rewrite list_alter_alter_eq.
        apply Forall_alter; [exact Hs|]. intros x Hx _. rewrite Hc in Hx.
        injection Hx as <-. unfold hp_ok, compose; cbn. lia.
      - apply Z.ltb_ge in E. eexists; split; [reflexivity|].
        unfold s1. apply hp_in_range_update; [exact Hs|].
        intros x Hx _. rewrite Hc in Hx. injection Hx as <-.
        unfold hp_ok; cbn. lia. }
    destruct Hmid as (s2 & Hm & Hs2).
    rewrite (bind_Ok _ _ _ _ _ Hm). clear Hm.
    revert s2 Hs2. apply keeps_hp_in_range. intros v.
    unfold is_bleeding. pres hp_leaf. apply Duration_end_keeps_hp.
  - unfold modify_creature, bind, get_creature. rewrite Hc. exact Hs.
Qed.

Lemma run_call_in_range c : nonneg_call c -> preserves hp_in_range (run_call c).
Proof.
  destruct c; simpl; intros H.
  - pres idtac. apply take_damage_in_range.
  - apply heal_in_range, H.
Qed.

(** C3.  From a store in which every creature has its hit points within
    [0, total_hp], after every call of a sequence of [take_damage] and [heal]
    calls with nonnegative amounts every creature still has. *)
Theorem hp_stays_in_range (calls : list HpCall) (s : Store) :
  hp_in_range s -> Forall nonneg_call calls ->
  Forall hp_in_range (observations calls s).
Proof.
  intros Hs Hcalls. revert s Hs.
  induction Hcalls as [|c calls Hc _ IH]; intros s Hs; simpl.
  - constructor.
  - pose proof (run_call_in_range c Hc s Hs) as H.
    destruct (run_call c s) as [[] s'|e s']; simpl in H.
    + constructor; [exact H | apply IH, H].
    + constructor; [exact H | constructor].
Qed.

Lemma hp_stays_in_range_witness :
  Forall hp_in_range
    (observations [call_take_damage 0 7 fire None false 2 (Some acid);
                   call_heal 0 30 true;
                   call_take_damage 0 50 slashing None false 0 None]
       (arena [plain_creature 12] 10)).
Proof.
  apply hp_stays_in_range.
  - repeat constructor; vm_compute; congruence.
  - repeat constructor; vm_compute; congruence.
Defined.

(** ** Saving throws *)

Lemma with_rng_Ok {A} (f : Rng -> A * Rng) s :
  with_rng f s = Ok (f (rng s)).1 (set_rng (f (rng s)).2 s).
Proof. unfold with_rng. destruct (f (rng s)); reflexivity. Qed.

Lemma roll_save_Ok s i c ability adv disadv :
  creatures s !! i = Some c ->
  exists r g, roll_save i ability adv disadv s = Ok r (set_rng g s).
Proof.
  intros Hc. unfold roll_save.
  rewrite (bind_Ok _ _ _ _ _ (get_creature_Ok _ _ _ Hc)).
  rewrite (bind_Ok _ _ _ _ _ (with_rng_Ok _ _)).
  destruct (bool_decide (counters c baned ≠ 0)), (bool_decide (counters c blessed ≠ 0));
    unfold bind, ret; rewrite ?with_rng_Ok; cbn; eauto.
Qed.

Lemma saving_throw_Ok s i c ability dc adv disadv save_type :
  creatures s !! i = Some c ->
  exists r g, saving_throw i ability dc adv disadv save_type s = Ok r (set_rng g s)
              /\ (is_incapacitated c && (bool_decide (ability = Str) || bool_decide (ability = Dex)) = true -> g = rng s).
Proof.
  intros Hc. unfold saving_throw.
  rewrite (bind_Ok _ _ _ _ _ (get_creature_Ok _ _ _ Hc)).
  destruct (is_incapacitated c && _).
  - exists false, (rng s). split; [|reflexivity]. unfold ret. destruct s; reflexivity.
  - lazymatch goal with
    | |- context [roll_save i ability ?a ?d] =>
        destruct (roll_save_Ok s i c ability a d Hc) as (r & g & Hr)
    end.
    rewrite (bind_Ok _ _ _ _ _ Hr). unfold ret. eexists _, g. split; [reflexivity|discriminate].
Qed.

Lemma take_damage_type_half s i d ty :
  take_damage_type i (int_half d) ty s = take_damage_type i (d `div` 2) ty s.
Proof.
  destruct (creatures s !! i) as [c|] eqn:Hc.
  - destruct (Z_le_gt_dec 0 d) as [H|H].
    + rewrite int_half_floor by exact H. reflexivity.
    + rewrite !(take_damage_type_unfold _ _ _ _ _ Hc).
      assert (Hz : forall x, x <= 0 -> mitigated (traits c) ty x = 0).
      { intros x Hx. rewrite <- code_damage_mitigated. unfold code_damage.
        set (y := if heavy_armor_master (traits c) && is_physical ty then x - 3 else x).
        assert (y <= 0) by (unfold y; case_match; lia). clearbody y.
        pose proof (int_half_nonpos y).
        repeat case_match; try reflexivity;
          match goal with H : (_ <=? 0) || _ = false |- _ =>
            apply orb_false_iff in H as [H _]; apply Z.leb_gt in H; lia end. }
      rewrite (Hz (int_half d)) by (apply int_half_nonpos; lia).
      rewrite (Hz (d `div` 2)) by (apply floor_half_nonpos; lia).
      reflexivity.
  - unfold take_damage_type, bind, get_creature. rewrite Hc. reflexivity.
Qed.

Lemma bind_congr {A B} (m m' : M A) (k k' : A -> M B) s :
  m s = m' s -> (forall a s', k a s' = k' a s') -> bind m k s = bind m' k' s.
Proof. intros Hm Hk. unfold bind. rewrite Hm. destruct (m' s); [apply Hk | reflexivity]. Qed.

Lemma Creature_take_damage_half s i d ty dealer ranged d2 ty2 :
  Creature_take_damage i (int_half d) ty dealer ranged (int_half d2) ty2 s =
  Creature_take_damage i (d `div` 2) ty dealer ranged (d2 `div` 2) ty2 s.
Proof.
  unfold Creature_take_damage.
  apply bind_congr; [apply take_damage_type_half | intros p s1].
  apply bind_congr; [|reflexivity].
  destruct ty2; [apply take_damage_type_half | reflexivity].
Qed.

Lemma take_damage_half s i d ty dealer ranged d2 ty2 :
  take_damage i (int_half d) ty dealer ranged (int_half d2) ty2 s =
  take_damage i (d `div` 2) ty dealer ranged (d2 `div` 2) ty2 s.
Proof.
  unfold take_damage, Behir_take_damage.
  apply bind_congr; [reflexivity | intros c s1].
  destruct (klass c).
  - apply Creature_take_damage_half.
  - apply bind_congr; [apply Creature_take_damage_half | reflexivity].
Qed.

(** C5.  [half_saving_throw] makes the saving throw and then: without
    Evasion or on a save that is not Dexterity, a failure takes the full
    damage and a success takes half, rounded down; with Evasion on a
    Dexterity save, a success takes no damage (the store is the one the
    saving throw left) and a failure takes half, rounded down. *)
Theorem half_saving_throw_evasion s i c ability dc damage ty damage2 ty2
    adv disadv save_type :
  creatures s !! i = Some c ->
  exists result g,
    saving_throw i ability dc adv disadv save_type s = Ok result (set_rng g s)
    /\ half_saving_throw i ability dc damage ty damage2 ty2 adv disadv save_type s =
       (if bool_decide (ability = Dex) && evasion (traits c) then
          if result then ret true
          else take_damage i (damage `div` 2) ty None false (damage2 `div` 2) ty2
               >> ret false
        else
          if result
          then take_damage i (damage `div` 2) ty None false (damage2 `div` 2) ty2
               >> ret true
          else take_damage i damage ty None false damage2 ty2 >> ret false)
         (set_rng g s).
Proof.
  intros Hc.
  destruct (saving_throw_Ok s i c ability dc adv disadv save_type Hc)
    as (result & g & Hst & _).
  exists result, g. split; [exact Hst|].
  unfold half_saving_throw.
  rewrite (bind_Ok _ _ _ _ _ Hst).
  assert (Hc' : creatures (set_rng g s) !! i = Some c) by exact Hc.
  rewrite (bind_Ok _ _ _ _ _ (get_creature_Ok _ _ _ Hc')).
  destruct (bool_decide (ability = Dex)), (evasion (traits c)), result;
    cbn [negb andb]; unfold bind, ret;
    rewrite ?take_damage_half;
    repeat match goal with
           | |- context [take_damage ?a ?b ?c ?d ?e ?f ?g ?s] =>
               destruct (take_damage a b c d e f g s)
           end;
    reflexivity.
Qed.

Lemma half_saving_throw_evasion_witness :
  exists result g,
    saving_throw 0 Dex 15 false false None (arena [evasive_creature] 3)
    = Ok result (set_rng g (arena [evasive_creature] 3))
    /\ half_saving_throw 0 Dex 15 9 fire 0 None false false None (arena [evasive_creature] 3)
       = (if result then ret true
          else take_damage 0 (9 `div` 2) fire None false (0 `div` 2) None >> ret false)
           (set_rng g (arena [evasive_creature] 3)).
Proof.
  exact (half_saving_throw_evasion (arena [evasive_creature] 3) 0 evasive_creature
           Dex 15 9 fire 0 None false false None eq_refl).
Defined.

(** ** Initiative *)

Lemma insert_reverse_perm x l : insert_reverse x l ≡ₚ x :: l.
Proof.
  induction l as [|y t IH]; simpl; [reflexivity|].
  destruct (x.1 <? y.1); [|reflexivity].
  rewrite IH. apply Permutation_swap.
Qed.

Lemma sorted_reverse_perm l : sorted_reverse l ≡ₚ l.
Proof.
  induction l as [|x t IH]; simpl; [reflexivity|].
  rewrite insert_reverse_perm. f_equiv. exact IH.
Qed.

Lemma insert_reverse_HdRel a x l :
  key_ge a x -> HdRel key_ge a l -> HdRel key_ge a (insert_reverse x l).
Proof.
  intros Hax Hl. destruct l as [|y t]; simpl; [constructor; exact Hax|].
  destruct (x.1 <? y.1); constructor; [inversion Hl; assumption | exact Hax].
Qed.

Lemma insert_reverse_sorted x l : Sorted key_ge l -> Sorted key_ge (insert_reverse x l).
Proof.
  induction 1 as [|y t Ht IH Hhd]; simpl.
  - repeat constructor.
  - destruct (x.1 <? y.1) eqn:E.
    + apply Z.ltb_lt in E. constructor; [exact IH|].
      apply insert_reverse_HdRel; [unfold key_ge; lia | exact Hhd].
    + apply Z.ltb_ge in E. constructor; [constructor; assumption|].
      constructor. exact E.
Qed.

Lemma sorted_reverse_sorted l : Sorted key_ge (sorted_reverse l).
Proof.
  induction l as [|x t IH]; simpl; [constructor | apply insert_reverse_sorted, IH].
Qed.

#[local] Instance key_ge_trans : Transitive key_ge.
Proof. unfold key_ge. intros x y z ? ?. lia. Qed.

Lemma insert_reverse_with_key k x l :
  with_key k (insert_reverse x l) = with_key k (x :: l).
Proof.
  unfold with_key. induction l as [|y t IH]; simpl; [reflexivity|].
  destruct (x.1 <? y.1) eqn:E; [|reflexivity].
  apply Z.ltb_lt in E.
  rewrite !filter_cons in *.
  destruct (decide (y.1 = k)) as [Hy|Hy], (decide (x.1 = k)) as [Hx|Hx];
    try lia; rewrite IH; reflexivity.
Qed.

(** The sort is stable: entries with equal keys keep their order. *)
Lemma sorted_reverse_stable k l : with_key k (sorted_reverse l) = with_key k l.
Proof.
  induction l as [|x t IH]; simpl; [reflexivity|].
  rewrite insert_reverse_with_key. unfold with_key in *.
  rewrite !filter_cons, IH. reflexivity.
Qed.

Lemma set_rng_advance s n m :
  set_rng (advance (rng (set_rng (advance (rng s) n) s)) m) (set_rng (advance (rng s) n) s)
  = set_rng (advance (rng s) (n + m)) s.
Proof. unfold set_rng, advance; simpl. do 2 f_equal. lia. Qed.

Lemma d20_face_advance g k : d20_face (advance g k) 0 = d20_face g k.
Proof. unfold d20_face, advance; simpl. rewrite Nat.add_0_r. reflexivity. Qed.

Lemma roll_keys_Ok l : forall s k,
  Forall (fun x => match x with
                   | ACreature i => is_Some (creatures s !! i)
                   | ALairAction _ => True
                   end) l ->
  exists n, roll_keys l (set_rng (advance (rng s) k) s)
            = Ok (keys_from (creatures s) (rng s) k l) (set_rng (advance (rng s) n) s).
Proof.
  induction l as [|x t IH]; intros s k Hl; cbn [roll_keys keys_from].
  - exists k. reflexivity.
  - inversion Hl as [|? ? Hx Ht]; subst. destruct x as [i|o]; cbn [roll_initiative].
    + destruct Hx as [c Hc]. rewrite Hc.
      assert (Hc' : creatures (set_rng (advance (rng s) k) s) !! i = Some c) by exact Hc.
      destruct (IH s (S k) Ht) as (n & Hn). exists n.
      unfold bind. rewrite (get_creature_Ok _ _ _ Hc'), with_rng_Ok.
      cbn [rng set_rng]. rewrite roll_d20_plain. cbn [fst snd ret]. rewrite d20_face_advance.
      replace (set_rng (advance (advance (rng s) k) 1) (set_rng (advance (rng s) k) s))
        with (set_rng (advance (rng s) (S k)) s)
        by (unfold set_rng, advance; simpl; do 2 f_equal; lia).
      rewrite Hn. reflexivity.
    + destruct (IH s k Ht) as (n & Hn). exists n.
      unfold bind. cbn [ret]. rewrite Hn. reflexivity.
Qed.

Lemma keys_from_creatures cs g side : forall k,
  Forall (fun i => is_Some (cs !! i)) side ->
  (keys_from cs g k (ACreature <$> side)).*2 = ACreature <$> side
  /\ forall rest,
       keys_from cs g k ((ACreature <$> side) ++ rest)
       = keys_from cs g k (ACreature <$> side) ++ keys_from cs g (k + length side) rest.
Proof.
  induction side as [|i t IH]; intros k Hs; cbn [fmap list_fmap keys_from app].
  - split; [reflexivity|]. intros rest. rewrite Nat.add_0_r. reflexivity.
  - inversion Hs as [|? ? [c Hc] Ht]; subst. rewrite Hc.
    destruct (IH (S k) Ht) as [IH1 IH2]. split.
    + cbn. f_equal. exact IH1.
    + intros rest. cbn. f_equal. rewrite IH2. do 2 f_equal. simpl. lia.
Qed.

Lemma keys_from_creature_key s g side : forall k,
  Forall (creature_key s) (keys_from (creatures s) g k (ACreature <$> side)).
Proof.
  induction side as [|i t IH]; intros k; cbn [fmap list_fmap keys_from].
  - constructor.
  - destruct (creatures s !! i) as [c|] eqn:Hc; [|constructor].
    constructor; [|apply IH].
    exists i, c, (d20_face g k). repeat split; try apply d20_face_range. exact Hc.
Qed.

Lemma lair_actions_of_lair s l :
  Forall (fun x => match x with ACreature _ => False | ALairAction _ => True end)
    (lair_actions_of s l).
Proof.
  induction l as [|i t IH]; simpl; [constructor|].
  destruct (creatures s !! i) as [c|]; [|exact IH].
  destruct (has_lair_action (traits c)); [constructor; [exact I | exact IH] | exact IH].
Qed.

Lemma keys_from_lair cs g k l :
  Forall (fun x => match x with ACreature _ => False | ALairAction _ => True end) l ->
  keys_from cs g k l = (fun x => (20, x)) <$> l.
Proof.
  induction 1 as [|x t Hx _ IH]; [reflexivity|].
  destruct x; [destruct Hx|]. cbn. f_equal. exact IH.
Qed.

(** C7.  The initiative order is the participants sorted by descending
    initiative value, one value each: a d20 plus the Dexterity and initiative
    modifiers for a creature, 20 for a lair action.  Among the entries with
    the same value the side-A creatures come first in list order, then the
    side-B creatures in list order, then the lair actions. *)
Theorem initiative_order_tie_break s side_A side_B :
  Forall (fun i => is_Some (creatures s !! i)) (side_A ++ side_B) ->
  let keysA := keys_from (creatures s) (rng s) 0 (ACreature <$> side_A) in
  let keysB := keys_from (creatures s) (rng s) (length side_A) (ACreature <$> side_B) in
  let keysL := (fun x => (20, x)) <$> lair_actions_of s (side_A ++ side_B) in
  exists keyed s',
    initiative_keys side_A side_B s = Ok keyed s'
    /\ initiative_order side_A side_B s = Ok keyed.*2 s'
    /\ keysA.*2 = ACreature <$> side_A
    /\ keysB.*2 = ACreature <$> side_B
    /\ Forall (creature_key s) (keysA ++ keysB)
    /\ keyed ≡ₚ keysA ++ keysB ++ keysL
    /\ StronglySorted key_ge keyed
    /\ forall k, with_key k keyed = with_key k keysA ++ with_key k keysB ++ with_key k keysL.
Proof.
  intros Hall keysA keysB keysL.
  apply Forall_app in Hall as [HA HB].
  destruct (keys_from_creatures (creatures s) (rng s) side_A 0 HA) as [HA1 HA2].
  destruct (keys_from_creatures (creatures s) (rng s) side_B (length side_A) HB)
    as [HB1 HB2].
  assert (Hrolled : keys_from (creatures s) (rng s) 0 (participants s side_A side_B)
                    = keysA ++ keysB ++ keysL).
  { unfold participants. rewrite HA2, HB2. cbn [Nat.add].
    rewrite (keys_from_lair _ _ _ _ (lair_actions_of_lair s (side_A ++ side_B))).
    reflexivity. }
  assert (Hvalid : Forall (fun x => match x with
                                    | ACreature i => is_Some (creatures s !! i)
                                    | ALairAction _ => True
                                    end) (participants s side_A side_B)).
  { unfold participants. rewrite !Forall_app, !Forall_fmap. repeat split.
    - exact HA.
    - exact HB.
    - eapply Forall_impl; [apply lair_actions_of_lair|]. intros []; tauto. }
  destruct (roll_keys_Ok _ s 0 Hvalid) as (n & Hn).
  replace (set_rng (advance (rng s) 0) s) with s in Hn
    by (destruct s as [? ? ? [? ?]]; unfold set_rng, advance; simpl;
        rewrite Nat.add_0_r; reflexivity).
  rewrite Hrolled in Hn.
  assert (Hkeys : initiative_keys side_A side_B s
                  = Ok (sorted_reverse (keysA ++ keysB ++ keysL))
                       (set_rng (advance (rng s) n) s)).
  { unfold initiative_keys, bind. rewrite Hn. reflexivity. }
  exists (sorted_reverse (keysA ++ keysB ++ keysL)), (set_rng (advance (rng s) n) s).
  split; [exact Hkeys|]. split.
  { unfold initiative_order, bind. rewrite Hkeys. reflexivity. }
  split; [exact HA1|]. split; [exact HB1|]. split.
  { apply Forall_app. split; apply keys_from_creature_key. }
  split; [apply sorted_reverse_perm|]. split.
  { apply Sorted_StronglySorted; [apply key_ge_trans | apply sorted_reverse_sorted]. }
  intros k. rewrite sorted_reverse_stable. unfold with_key.
  rewrite !filter_app. reflexivity.
Qed.

Lemma initiative_order_tie_break_witness :
  exists keyed s',
    initiative_order [0%nat] [1%nat] (arena [plain_creature 5; lair_creature 5] 20)
    = Ok keyed.*2 s'
    /\ forall k,
         with_key k keyed
         = with_key k [(20, ACreature 0)] ++ with_key k [(20, ACreature 1)]
           ++ with_key k [(20, ALairAction 1)].
Proof.
  destruct (initiative_order_tie_break
              (arena [plain_creature 5; lair_creature 5] 20) [0%nat] [1%nat])
    as (keyed & s' & _ & H & _ & _ & _ & _ & _ & Hk).
  - repeat constructor; eexists; reflexivity.
  - exists keyed, s'. split; [exact H | exact Hk].
Defined.

(** Three participants that all have initiative 20: the side-A creature goes
    first, then the side-B creature, then the lair action. *)
Example initiative_order_all_tied :
  initiative_order [0%nat] [1%nat] (arena [plain_creature 5; lair_creature 5] 20)
  = Ok [ACreature 0; ACreature 1; ALairAction 1]
       (set_rng (advance (fixed_rng 20) 2) (arena [plain_creature 5; lair_creature 5] 20)).
Proof. reflexivity. Qed.

(** ** Symbolic execution of the assignments *)

Lemma field_Some {A} (g : Creature -> A) s i c :
  creatures s !! i = Some c -> field g s i = Some (g c).
Proof. unfold field. intros ->. reflexivity. Qed.

Lemma field_is_Some {A} (g : Creature -> A) s i :
  is_Some (field g s i) <-> is_Some (creatures s !! i).
Proof. unfold field. rewrite fmap_is_Some. reflexivity. Qed.

Lemma field_update {A} (g : Creature -> A) s i f j :
  field g (update_creature i f s) j =
  if decide (i = j) then field (fun c => g (f c)) s j else field g s j.
Proof.
  unfold field. rewrite update_creature_lookup.
  destruct (decide (i = j)); [|reflexivity].
  destruct (creatures s !! j); reflexivity.
Qed.

Lemma field_update_frame {A} (g : Creature -> A) s i f j :
  (forall c, g (f c) = g c) -> field g (update_creature i f s) j = field g s j.
Proof.
  intros Hf. rewrite field_update. destruct (decide (i = j)); [|reflexivity].
  unfold field. destruct (creatures s !! j); simpl; [rewrite Hf|]; reflexivity.
Qed.

Lemma field_update_eq {A} (g : Creature -> A) s i f :
  field g (update_creature i f s) i = field (fun c => g (f c)) s i.
Proof. rewrite field_update, decide_True; reflexivity. Qed.

Lemma field_update_ne {A} (g : Creature -> A) s i f j :
  i <> j -> field g (update_creature i f s) j = field g s j.
Proof. intros H. rewrite field_update, decide_False; [reflexivity | exact H]. Qed.

Lemma valid_update s i f j :
  is_Some (creatures (update_creature i f s) !! j) <-> is_Some (creatures s !! j).
Proof.
  rewrite update_creature_lookup. destruct (decide (i = j)); [|reflexivity].
  rewrite fmap_is_Some. reflexivity.
Qed.

Lemma bind_ret {A B} (a : A) (k : A -> M B) s : bind (ret a) k s = k a s.
Proof. reflexivity. Qed.

Lemma bind_get_creature {B} i (k : Creature -> M B) s c :
  creatures s !! i = Some c -> bind (get_creature i) k s = k c s.
Proof. intros H. apply bind_Ok, get_creature_Ok, H. Qed.

Lemma bind_get_duration {B} i (k : Duration -> M B) s d :
  durations s !! i = Some d -> bind (get_duration i) k s = k d s.
Proof. intros H. apply bind_Ok, get_duration_Ok, H. Qed.

Lemma bind_get_spell {B} i (k : Spell -> M B) s d :
  spells s !! i = Some d -> bind (get_spell i) k s = k d s.
Proof. intros H. apply bind_Ok, get_spell_Ok, H. Qed.

Lemma bind_attr {A B} (a : A) (k : A -> M B) s : bind (attr (Some a)) k s = k a s.
Proof. reflexivity. Qed.

Lemma modify_creature_valid s i f :
  is_Some (creatures s !! i) -> modify_creature i f s = Ok tt (update_creature i f s).
Proof. intros [c Hc]. eapply modify_creature_Ok, Hc. Qed.

Lemma bind_modify_creature {B} i f (k : unit -> M B) s :
  is_Some (creatures s !! i) ->
  bind (modify_creature i f) k s = k tt (update_creature i f s).
Proof. intros H. apply bind_Ok, modify_creature_valid, H. Qed.

Lemma add_counter_Ok s i k n :
  is_Some (creatures s !! i) ->
  add_counter i k n s = Ok tt (update_creature i (fun c => set_counter k (counters c k + n) c) s).
Proof. apply modify_creature_valid. Qed.

Lemma list_append_Ok s i a v :
  is_Some (creatures s !! i) ->
  list_append i a v s = Ok tt (update_creature i (fun c => set_list a (lists c a ++ [v]) c) s).
Proof. apply modify_creature_valid. Qed.

Lemma list_remove_Ok s i a v l l' :
  field (fun c => lists c a) s i = Some l -> remove_first v l = Some l' ->
  list_remove i a v s = Ok tt (update_creature i (set_list a l') s).
Proof.
  unfold field, list_remove. intros Hl Hr.
  destruct (creatures s !! i) as [c|] eqn:Hc; [|discriminate].
  injection Hl as <-. rewrite (bind_get_creature _ _ _ _ Hc), Hr.
  eapply modify_creature_Ok, Hc.
Qed.

Lemma extra_list_remove_Ok s i name v l l' :
  field (fun c => extra_lists c !! name) s i = Some (Some l) -> remove_first v l = Some l' ->
  extra_list_remove i name v s = Ok tt (update_creature i (set_extra_list name l') s).
Proof.
  unfold field, extra_list_remove. intros Hl Hr.
  destruct (creatures s !! i) as [c|] eqn:Hc; [|discriminate].
  injection Hl as Hl. rewrite (bind_get_creature _ _ _ _ Hc), Hl, Hr.
  eapply modify_creature_Ok, Hc.
Qed.

Lemma extra_list_append_Ok s i name v l :
  field (fun c => extra_lists c !! name) s i = Some (Some l) ->
  extra_list_append i name v s = Ok tt (update_creature i (set_extra_list name (l ++ [v])) s).
Proof.
  unfold field, extra_list_append. intros Hl.
  destruct (creatures s !! i) as [c|] eqn:Hc; [|discriminate].
  injection Hl as Hl. rewrite (bind_get_creature _ _ _ _ Hc), Hl.
  eapply modify_creature_Ok, Hc.
Qed.

Lemma extra_list_append_missing s i name v c :
  creatures s !! i = Some c -> extra_lists c !! name = None ->
  extra_list_append i name v s = Raise AttributeError s.
Proof.
  intros Hc Hn. unfold extra_list_append.
  rewrite (bind_get_creature _ _ _ _ Hc), Hn. reflexivity.
Qed.

(** Facts about [remove_first]. *)
Lemma remove_first_head v l : remove_first v (v :: l) = Some l.
Proof. simpl. rewrite decide_True; reflexivity. Qed.

Lemma remove_first_is_Some v l : v ∈ l -> is_Some (remove_first v l).
Proof.
  induction l as [|x t IH]; intros H; [inversion H|]. simpl.
  destruct (decide (x = v)); [eexists; reflexivity|].
  apply elem_of_cons in H as [->|H]; [congruence|].
  destruct (IH H) as [l' ->]. eexists; reflexivity.
Qed.

Lemma remove_first_elem_of v l l' x :
  remove_first v l = Some l' -> x ∈ l -> x <> v -> x ∈ l'.
Proof.
  revert l'. induction l as [|y t IH]; intros l' Hr Hx Hne; [inversion Hx|].
  simpl in Hr. destruct (decide (y = v)) as [->|Hy].
  - injection Hr as <-. apply elem_of_cons in Hx as [->|Hx]; [congruence | exact Hx].
  - destruct (remove_first v t) as [t'|]; [|discriminate]. injection Hr as <-.
    apply elem_of_cons in Hx as [->|Hx]; [left | right; apply IH; auto].
Qed.

Lemma remove_first_subset v l l' x : remove_first v l = Some l' -> x ∈ l' -> x ∈ l.
Proof.
  revert l'. induction l as [|y t IH]; intros l' Hr Hx; [discriminate|].
  simpl in Hr. destruct (decide (y = v)) as [->|Hy].
  - injection Hr as <-. right. exact Hx.
  - destruct (remove_first v t) as [t'|]; [|discriminate]. injection Hr as <-.
    apply elem_of_cons in Hx as [->|Hx]; [left | right; eapply IH; eauto].
Qed.

Lemma remove_first_app_last v l : v ∉ l -> remove_first v (l ++ [v]) = Some l.
Proof.
  induction l as [|x t IH]; intros H; simpl.
  - rewrite decide_True; reflexivity.
  - apply not_elem_of_cons in H as [H1 H2].
    rewrite decide_False by congruence. rewrite IH by exact H2. reflexivity.
Qed.

Lemma remove_first_NoDup v l l' : remove_first v l = Some l' -> NoDup l -> NoDup l' /\ v ∉ l'.
Proof.
  revert l'. induction l as [|y t IH]; intros l' Hr Hn; [discriminate|].
  apply NoDup_cons in Hn as [Hy Hn]. simpl in Hr.
  destruct (decide (y = v)) as [->|Hne].
  - injection Hr as <-. split; assumption.
  - destruct (remove_first v t) as [t'|] eqn:E; [|discriminate]. injection Hr as <-.
    destruct (IH t' eq_refl Hn) as [H1 H2]. split.
    + apply NoDup_cons. split; [|exact H1]. intros Hin. apply Hy.
      eapply remove_first_subset; eauto.
    + apply not_elem_of_cons. split; [congruence | exact H2].
Qed.

(** ** Grapples *)

Lemma roll_skill_Ok s i c skill adv disadv :
  creatures s !! i = Some c ->
  exists r g, roll_skill i skill adv disadv s = Ok r (set_rng g s).
Proof.
  intros Hc. unfold roll_skill.
  rewrite (bind_get_creature _ _ _ _ Hc).
  rewrite (bind_Ok _ _ _ _ _ (with_rng_Ok _ _)). unfold ret. eauto.
Qed.

Lemma escape_grapple_Ok s i c adv :
  creatures s !! i = Some c ->
  exists r g, escape_grapple i adv s = Ok r (set_rng g s).
Proof.
  intros Hc. unfold escape_grapple.
  rewrite (bind_get_creature _ _ _ _ Hc). cbv zeta.
  case_match; eapply roll_skill_Ok; exact Hc.
Qed.

Lemma escape_dc_Ok s grapple dc :
  escape_dc_of s grapple = Some dc -> escape_dc grapple s = Ok dc s.
Proof.
  unfold escape_dc_of, escape_dc, field. intros H.
  destruct (durations s !! grapple) as [g|] eqn:Hg; [|discriminate]. simpl in H.
  destruct (applier g) as [gr|] eqn:Hgr; [|discriminate]. simpl in H.
  destruct (creatures s !! gr) as [gc|] eqn:Hgc; [|discriminate].
  injection H as <-.
  rewrite (bind_get_duration _ _ _ _ Hg), Hgr, bind_attr.
  rewrite (bind_get_creature _ _ _ _ Hgc). reflexivity.
Qed.

Lemma failed_escapes s r l :
  Forall (fun grapple => exists dc, escape_dc_of s grapple = Some dc /\ r < dc) l ->
  for_each l (fun grapple =>
                let* dc := escape_dc grapple in
                when (dc <=? r) (Duration_end grapple)) s = Ok tt s.
Proof.
  induction 1 as [|x t (dc & Hdc & Hlt) _ IH]; [reflexivity|].
  cbn [for_each].
  assert (Hm : (let* dc := escape_dc x in when (dc <=? r) (Duration_end x)) s = Ok tt s).
  { rewrite (bind_Ok _ _ _ _ _ (escape_dc_Ok _ _ _ Hdc)).
    rewrite (proj2 (Z.leb_gt dc r)) by exact Hlt. reflexivity. }
  rewrite (bind_Ok _ _ _ _ _ Hm). exact IH.
Qed.

Lemma tick_grapple s g d :
  durations s !! g = Some d -> kind d = GrappleDuration -> tick g s = Ok tt s.
Proof.
  intros Hd Hk. unfold tick. rewrite (bind_get_duration _ _ _ _ Hd), Hk. reflexivity.
Qed.

Lemma end_turn_effect_grapple s g d :
  durations s !! g = Some d -> kind d = GrappleDuration -> end_turn_effect g s = Ok tt s.
Proof.
  intros Hd Hk. unfold end_turn_effect.
  rewrite (bind_get_duration _ _ _ _ Hd), Hk. reflexivity.
Qed.

Lemma listed_update_frame s i f j a x :
  (forall c, lists (f c) a = lists c a) ->
  listed (update_creature i f s) j a x <-> listed s j a x.
Proof.
  intros Hf. unfold listed.
  rewrite (field_update_frame (fun c => lists c a)) by exact Hf. reflexivity.
Qed.

Lemma escape_dc_of_frame s s' :
  durations s' = durations s ->
  (forall i, field traits s' i = field traits s i) ->
  forall g, escape_dc_of s' g = escape_dc_of s g.
Proof.
  intros Hd Ht g. unfold escape_dc_of. rewrite Hd.
  destruct (durations s !! g) as [d|]; [|reflexivity]. simpl.
  destruct (applier d) as [gr|]; [|reflexivity]. simpl.
  specialize (Ht gr). unfold field in *.
  destruct (creatures s' !! gr), (creatures s !! gr); simpl in *;
    try discriminate; try reflexivity.
  injection Ht as ->. reflexivity.
Qed.

Lemma listed_append s i a v j a' x :
  listed s j a' x ->
  listed (update_creature i (fun c => set_list a (lists c a ++ [v]) c) s) j a' x.
Proof.
  unfold listed, field. intros (l & Hl & Hx). rewrite update_creature_lookup.
  destruct (decide (i = j)) as [->|]; [|eauto].
  destruct (creatures s !! j) as [c|]; [|discriminate]. injection Hl as <-.
  cbn [fmap option_fmap option_map lists set_list].
  destruct (decide (a' = a)) as [->|]; eexists; (split; [reflexivity|]);
    [apply elem_of_app; left; exact Hx | exact Hx].
Qed.

Lemma listed_append_new s i a v :
  is_Some (creatures s !! i) ->
  listed (update_creature i (fun c => set_list a (lists c a ++ [v]) c) s) i a v.
Proof.
  intros [c Hc]. unfold listed. rewrite field_update_eq. unfold field. rewrite Hc.
  cbn [fmap option_fmap option_map lists set_list].
  rewrite decide_True by reflexivity. eexists; split; [reflexivity|].
  apply elem_of_app; right. apply list_elem_of_singleton. reflexivity.
Qed.

Lemma when_append_keeps b s i a v :
  is_Some (creatures s !! i) -> keeps_listed (when b (list_append i a v)) s.
Proof.
  intros Hi. destruct b; cbn [when].
  - exists (update_creature i (fun c => set_list a (lists c a ++ [v]) c) s).
    split; [apply list_append_Ok, Hi|]. split; [reflexivity|].
    split; [intros j; apply valid_update | intros j a' x; apply listed_append].
  - exists s. repeat split; auto.
Qed.

Lemma when_counter_keeps b s i k n :
  is_Some (creatures s !! i) -> keeps_listed (when b (add_counter i k n)) s.
Proof.
  intros Hi. destruct b; cbn [when].
  - exists (update_creature i (fun c => set_counter k (counters c k + n) c) s).
    split; [apply add_counter_Ok, Hi|]. split; [reflexivity|].
    split; [intros j; apply valid_update|].
    intros j a' x. apply listed_update_frame. reflexivity.
  - exists s. repeat split; auto.
Qed.

(** C10.  A [GrappleDuration] is created without a [duration] attribute
    and linked on both sides; its [tick] and its end-of-turn trigger do
    nothing, so no sequence of them changes the store; its start-of-turn
    trigger does nothing when the target has no action, and when the target
    has one it spends it on an escape roll that, where it is below the DC
    of every grapple on the target (8 + proficiency + Strength of the
    grappler), leaves every list of every creature as it was. *)
Theorem grapple_has_no_clock :
  (forall s grappler tgt restrained_ stunned_ priority,
      is_Some (creatures s !! grappler) -> is_Some (creatures s !! tgt) ->
      exists s' d,
        GrappleDuration_init grappler tgt restrained_ stunned_ priority s
        = Ok (length (durations s)) s'
        /\ durations s' !! length (durations s) = Some d
        /\ kind d = GrappleDuration /\ duration d = None
        /\ listed s' grappler grappling (length (durations s))
        /\ listed s' tgt grappled (length (durations s)))
  /\ (forall s g d,
        durations s !! g = Some d -> kind d = GrappleDuration ->
        (forall ps, for_each ps (pass g) s = Ok tt s)
        /\ (forall t c,
              target d = Some t -> creatures s !! t = Some c ->
              if action c then
                exists r gen,
                  escape_grapple t false (update_creature t (set_action false) s)
                  = Ok r (set_rng gen (update_creature t (set_action false) s))
                  /\ (Forall (fun grapple =>
                                exists dc, escape_dc_of s grapple = Some dc /\ r < dc)
                        (lists c grappled) ->
                      start_turn_effect g s
                      = Ok tt (set_rng gen (update_creature t (set_action false) s))
                      /\ forall i a x,
                          listed (set_rng gen (update_creature t (set_action false) s)) i a x
                          <-> listed s i a x)
              else start_turn_effect g s = Ok tt s)).
Proof.
  split.
  - intros s grappler tgt r_ s_ p Hg Ht.
    unfold GrappleDuration_init.
    set (d := mkDuration GrappleDuration None (Some grappler) (Some tgt) 0 p r_ s_ 0 0
                (ADie d4) acid).
    set (s0 := mkStore (creatures s) (durations s ++ [d]) (spells s) (rng s)).
    set (self := length (durations s)).
    assert (Halloc : alloc_duration d s = Ok self s0) by reflexivity.
    rewrite (bind_Ok _ _ _ _ _ Halloc).
    assert (Hg0 : is_Some (creatures s0 !! grappler)) by exact Hg.
    assert (Ht0 : is_Some (creatures s0 !! tgt)) by exact Ht.
    rewrite (bind_Ok _ _ _ _ _ (list_append_Ok s0 grappler grappling self Hg0)).
    set (s1 := update_creature grappler (fun c => set_list grappling (lists c grappling ++ [self]) c) s0).
    assert (Ht1 : is_Some (creatures s1 !! tgt)) by (apply valid_update; exact Ht0).
    rewrite (bind_Ok _ _ _ _ _ (list_append_Ok s1 tgt grappled self Ht1)).
    set (s2 := update_creature tgt (fun c => set_list grappled (lists c grappled ++ [self]) c) s1).
    assert (Ht2 : is_Some (creatures s2 !! tgt)) by (apply valid_update; exact Ht1).
    destruct (when_append_keeps p s2 tgt start_turn_duration self Ht2)
      as (s3 & E3 & D3 & V3 & L3).
    rewrite (bind_Ok _ _ _ _ _ E3).
    destruct (when_counter_keeps r_ s3 tgt restrained 1 (proj2 (V3 tgt) Ht2))
      as (s4 & E4 & D4 & V4 & L4).
    rewrite (bind_Ok _ _ _ _ _ E4).
    destruct (when_counter_keeps s_ s4 tgt stunned 1
                (proj2 (V4 tgt) (proj2 (V3 tgt) Ht2)))
      as (s5 & E5 & D5 & V5 & L5).
    rewrite (bind_Ok _ _ _ _ _ E5).
    exists s5, d. split; [reflexivity|]. split.
    { rewrite D5, D4, D3. unfold s2, s1, s0, self, update_creature; cbn [durations].
      rewrite lookup_app_r by lia. rewrite Nat.sub_diag. reflexivity. }
    split; [reflexivity|]. split; [reflexivity|]. split.
    + apply L5, L4, L3. unfold s2. apply listed_append.
      unfold s1. apply listed_append_new, Hg0.
    + apply L5, L4, L3. unfold s2. apply listed_append_new, Ht1.
  - intros s g d Hd Hk. split.
    + intros ps. induction ps as [|p ps IH]; [reflexivity|].
      cbn [for_each].
      assert (Hp : pass g p s = Ok tt s).
      { destruct p; [eapply tick_grapple | eapply end_turn_effect_grapple]; eauto. }
      rewrite (bind_Ok _ _ _ _ _ Hp). exact IH.
    + intros t c Ht Hc.
      assert (Hstart : start_turn_effect g s = GrappleDuration_start_turn_effect g s).
      { unfold start_turn_effect. rewrite (bind_get_duration _ _ _ _ Hd), Hk. reflexivity. }
      rewrite Hstart. unfold GrappleDuration_start_turn_effect.
      rewrite (bind_get_duration _ _ _ _ Hd), Ht, bind_attr.
      rewrite (bind_get_creature _ _ _ _ Hc).
      destruct (action c) eqn:Ha; [|reflexivity].
      set (s1 := update_creature t (set_action false) s).
      assert (Hc1 : creatures s1 !! t = Some (set_action false c)).
      { unfold s1. rewrite update_creature_lookup_eq, Hc. reflexivity. }
      destruct (escape_grapple_Ok s1 t _ false Hc1) as (r & gen & Hr).
      exists r, gen. split; [exact Hr|]. intros Hall.
      cbn [when].
      rewrite (bind_modify_creature _ _ _ _ (ex_intro _ c Hc)). fold s1.
      rewrite (bind_Ok _ _ _ _ _ Hr).
      assert (Hc2 : creatures (set_rng gen s1) !! t = Some (set_action false c)) by exact Hc1.
      rewrite (bind_get_creature _ _ _ _ Hc2). cbn [lists set_action].
      split.
      * apply failed_escapes. eapply Forall_impl; [exact Hall|].
        intros x (dc & Hdc & Hlt). exists dc. split; [|exact Hlt].
        rewrite <- Hdc. apply escape_dc_of_frame; [reflexivity|].
        intros i. unfold s1.
        change (field traits (set_rng gen (update_creature t (set_action false) s)) i)
          with (field traits (update_creature t (set_action false) s) i).
        apply field_update_frame. reflexivity.
      * intros i a x. unfold s1.
        change (listed (set_rng gen (update_creature t (set_action false) s)) i a x)
          with (listed (update_creature t (set_action false) s) i a x).
        apply listed_update_frame. reflexivity.
Qed.

Lemma grapple_has_no_clock_witness :
  for_each [pass_tick; pass_end_turn; pass_tick; pass_tick] (pass 0) grappled_arena
  = Ok tt grappled_arena
  /\ start_turn_effect 0 grappled_arena = Ok tt grappled_arena.
Proof.
  destruct (proj2 grapple_has_no_clock grappled_arena 0%nat grapple_0_1 eq_refl eq_refl)
    as [H1 H2].
  split; [apply H1|].
  exact (H2 1%nat (set_list grappled [0%nat] (plain_creature 10)) eq_refl eq_refl).
Defined.

(** By contrast the clock of the base class ends an effect: a
    [RecklessDuration] of one round is gone after one tick. *)
Example reckless_expires :
  match (let* self := RecklessDuration_init 0 1 in tick self) (arena [plain_creature 10] 1) with
  | Ok _ s =>
      field (fun c => (lists c start_turn_duration, counters c target_adv)) s 0
      = Some ([], 0)
  | Raise _ _ => False
  end.
Proof. vm_compute. reflexivity. Qed.

(** ** Creating and ending effects *)

Lemma extra_list_append_absent s i name v :
  field (fun c => extra_lists c !! name) s i = Some None ->
  extra_list_append i name v s = Raise AttributeError s.
Proof.
  unfold field. intros H.
  destruct (creatures s !! i) as [c|] eqn:Hc; [|discriminate]. injection H as H.
  eapply extra_list_append_missing; eauto.
Qed.

(** C1.  The constructor of [PoisonedDuration] raises [AttributeError] on
    every target (no creature has an attribute [end_turn_duartion]) after it
    has incremented the target's poisoned counter, and the constructor of
    [EngulfedDuration] raises [AttributeError] on every engulfer (the
    engulfing creatures have [engulfed_creatures], not [engulfed_creature])
    after it has incremented the target's restrained counter, set its
    engulfed slot and registered on its start-of-turn list: neither effect
    can be created and ended, and what the constructor touched is not put
    back. *)
Theorem poisoned_engulfed_init_raise :
  (forall s poisoner tgt dc dur c,
      creatures s !! tgt = Some c ->
      extra_lists c !! "end_turn_duartion" = None ->
      exists s',
        PoisonedDuration_init poisoner tgt dc dur s = Raise AttributeError s'
        /\ field (fun c => counters c poisoned) s' tgt = Some (counters c poisoned + 1))
  /\ (forall s engulfer tgt dc ce ct,
        creatures s !! engulfer = Some ce ->
        creatures s !! tgt = Some ct ->
        extra_lists ce !! "engulfed_creature" = None ->
        exists s',
          EngulfedDuration_init engulfer tgt dc s = Raise AttributeError s'
          /\ field (fun c => counters c restrained) s' tgt
             = Some (counters ct restrained + 1)
          /\ field (fun c => slots c engulfed) s' tgt = Some (Some (length (durations s)))
          /\ listed s' tgt start_turn_duration (length (durations s))).
Proof.
  split.
  - intros s poisoner tgt dc dur c Hc Hn. unfold PoisonedDuration_init.
    set (d := mkDuration PoisonedDuration _ _ _ _ _ _ _ _ _ _ _).
    set (s0 := mkStore (creatures s) (durations s ++ [d]) (spells s) (rng s)).
    assert (Halloc : alloc_duration d s = Ok (length (durations s)) s0) by reflexivity.
    rewrite (bind_Ok _ _ _ _ _ Halloc).
    assert (Hc0 : creatures s0 !! tgt = Some c) by exact Hc.
    rewrite (bind_Ok _ _ _ _ _ (add_counter_Ok _ _ _ _ (ex_intro _ c Hc0))).
    set (s1 := update_creature tgt _ s0).
    assert (Hx : field (fun c => extra_lists c !! "end_turn_duartion") s1 tgt = Some None).
    { unfold s1.
      rewrite (field_update_frame (fun c => extra_lists c !! "end_turn_duartion"))
        by reflexivity.
      unfold field. rewrite Hc0. cbn [fmap option_fmap option_map].
      rewrite Hn. reflexivity. }
    rewrite (bind_Raise _ _ _ _ _ (extra_list_append_absent _ _ _ _ Hx)).
    exists s1. split; [reflexivity|].
    unfold s1. rewrite field_update_eq. unfold field. rewrite Hc0.
    cbn [fmap option_fmap option_map counters set_counter].
    rewrite decide_True by reflexivity. reflexivity.
  - intros s engulfer tgt dc ce ct Hce Hct Hn. unfold EngulfedDuration_init.
    set (d := mkDuration EngulfedDuration _ _ _ _ _ _ _ _ _ _ _).
    set (s0 := mkStore (creatures s) (durations s ++ [d]) (spells s) (rng s)).
    set (self := length (durations s)).
    assert (Halloc : alloc_duration d s = Ok self s0) by reflexivity.
    rewrite (bind_Ok _ _ _ _ _ Halloc).
    assert (Hc0 : creatures s0 !! tgt = Some ct) by exact Hct.
    rewrite (bind_Ok _ _ _ _ _ (add_counter_Ok _ _ _ _ (ex_intro _ ct Hc0))).
    set (s1 := update_creature tgt _ s0).
    assert (Hv1 : is_Some (creatures s1 !! tgt)) by (apply valid_update; eauto).
    rewrite (bind_modify_creature _ _ _ _ Hv1).
    set (s2 := update_creature tgt _ s1).
    assert (Hv2 : is_Some (creatures s2 !! tgt)) by (apply valid_update; exact Hv1).
    rewrite (bind_Ok _ _ _ _ _ (list_append_Ok _ _ _ _ Hv2)).
    set (s3 := update_creature tgt _ s2).
    assert (Hx : field (fun c => extra_lists c !! "engulfed_creature") s3 engulfer = Some None).
    { unfold s3, s2, s1.
      rewrite !(field_update_frame (fun c => extra_lists c !! "engulfed_creature"))
        by reflexivity.
      unfold field. replace (creatures s0) with (creatures s) by reflexivity.
      rewrite Hce. cbn [fmap option_fmap option_map]. rewrite Hn. reflexivity. }
    rewrite (bind_Raise _ _ _ _ _ (extra_list_append_absent _ _ _ _ Hx)).
    exists s3. split; [reflexivity|]. split; [|split].
    + unfold s3, s2.
      rewrite !(field_update_frame (fun c => counters c restrained)) by reflexivity.
      unfold s1. rewrite field_update_eq. unfold field. rewrite Hc0.
      cbn [fmap option_fmap option_map counters set_counter].
      rewrite decide_True by reflexivity. reflexivity.
    + unfold s3.
      rewrite (field_update_frame (fun c => slots c engulfed)) by reflexivity.
      unfold s2. rewrite field_update_eq.
      destruct Hv1 as [c1 Hc1]. unfold field. rewrite Hc1.
      cbn [fmap option_fmap option_map slots set_slot].
      rewrite decide_True by reflexivity. reflexivity.
    + unfold s3. apply listed_append_new, Hv2.
Qed.

Lemma poisoned_engulfed_init_raise_witness :
  (exists s',
     PoisonedDuration_init 0 1 12 10 (arena [plain_creature 10; plain_creature 10] 1)
     = Raise AttributeError s'
     /\ field (fun c => counters c poisoned) s' 1 = Some (0 + 1))
  /\ (exists s',
        EngulfedDuration_init 0 1 12 (arena [cube_creature 10; plain_creature 10] 1)
        = Raise AttributeError s'
        /\ field (fun c => counters c restrained) s' 1 = Some (0 + 1)
        /\ field (fun c => slots c engulfed) s' 1 = Some (Some 0%nat)
        /\ listed s' 1 start_turn_duration 0).
Proof.
  split.
  - exact (proj1 poisoned_engulfed_init_raise
             (arena [plain_creature 10; plain_creature 10] 1) 0%nat 1%nat 12 10
             (plain_creature 10) eq_refl eq_refl).
  - exact (proj2 poisoned_engulfed_init_raise
             (arena [cube_creature 10; plain_creature 10] 1) 0%nat 1%nat 12
             (cube_creature 10) (plain_creature 10) eq_refl eq_refl eq_refl).
Defined.

(** The sibling effects are created and ended without an exception, and the
    counter and the lists are as before: here a [ParalyzedDuration] and a
    [SwallowedDuration]. *)
Example paralyzed_round_trip :
  match (let* self := ParalyzedDuration_init 0 1 12 10 in Duration_end self)
          (arena [plain_creature 10; plain_creature 10] 1) with
  | Ok _ s =>
      field (fun c => (counters c paralyzed, lists c end_turn_duration)) s 1
      = Some (0, [])
      /\ field (fun c => lists c start_turn_duration) s 0 = Some []
  | Raise _ _ => False
  end.
Proof. vm_compute. split; reflexivity. Qed.

Example swallowed_round_trip :
  match (let* self := SwallowedDuration_init 0 1 30 14 in Duration_end self)
          (arena [behir_creature 10; plain_creature 10] 1) with
  | Ok _ s =>
      field (fun c => (counters c blinded, counters c restrained,
                       lists c start_turn_duration, lists c end_turn_duration,
                       slots c swallowed)) s 1
      = Some (0, 0, [], [], None)
      /\ field (fun c => extra_lists c !! "swallowed_creatures") s 0 = Some (Some [])
  | Raise _ _ => False
  end.
Proof. vm_compute. split; reflexivity. Qed.

(** ** Damage components and the concentration save *)

Lemma update_creature_ext s i f g :
  (forall x, creatures s !! i = Some x -> f x = g x) ->
  update_creature i f s = update_creature i g s.
Proof.
  intros H. unfold update_creature. f_equal.
  apply list_alter_ext; [exact H | reflexivity].
Qed.

Lemma update_creature_twice s i f g :
  update_creature i g (update_creature i f s) = update_creature i (g ∘ f) s.
Proof.
  unfold update_creature; cbn [creatures durations spells rng]. f_equal.
  apply list_alter_alter_eq.
Qed.

Lemma mitigated_nonneg t ty d : 0 <= mitigated t ty d.
Proof. unfold mitigated. lia. Qed.

(** The two damage components of [take_damage] on a creature that keeps
    some hit points. *)
Lemma take_both_components s self c p pt q qt :
  creatures s !! self = Some c -> 0 <= hp c ->
  0 < mitigated (traits c) pt p + optional_mitigated (traits c) qt q ->
  mitigated (traits c) pt p + optional_mitigated (traits c) qt q < hp c ->
  exists sa,
    take_damage_type self p pt s = Ok (mitigated (traits c) pt p) sa
    /\ match qt with
       | Some t => take_damage_type self q t
       | None => ret 0
       end sa
       = Ok (optional_mitigated (traits c) qt q)
            (update_creature self
               (set_hp (hp c - (mitigated (traits c) pt p
                                + optional_mitigated (traits c) qt q))) s).
Proof.
  intros Hc Hhp Hpos Hlt.
  rewrite (take_damage_type_unfold _ _ _ _ _ Hc).
  pose proof (mitigated_nonneg (traits c) pt p) as Hm1.
  destruct (mitigated (traits c) pt p =? 0) eqn:E1.
  - apply Z.eqb_eq in E1. rewrite E1 in *. exists s. split; [reflexivity|].
    destruct qt as [t|]; cbn [optional_mitigated] in *; [|lia].
    rewrite (take_damage_type_unfold _ _ _ _ _ Hc).
    rewrite (proj2 (Z.eqb_neq _ _)) by lia.
    f_equal. apply update_creature_ext. intros x _. f_equal. lia.
  - apply Z.eqb_neq in E1. eexists. split; [reflexivity|].
    set (h1 := Z.max 0 (hp c - mitigated (traits c) pt p)).
    assert (Hc1 : creatures (update_creature self (set_hp h1) s) !! self
                  = Some (set_hp h1 c)).
    { rewrite update_creature_lookup_eq, Hc. reflexivity. }
    destruct qt as [t|]; cbn [optional_mitigated] in *.
    + rewrite (take_damage_type_unfold _ _ _ _ _ Hc1). cbn [traits hp set_hp].
      pose proof (mitigated_nonneg (traits c) t q) as Hm2.
      destruct (mitigated (traits c) t q =? 0) eqn:E2.
      * apply Z.eqb_eq in E2. rewrite E2. f_equal.
        apply update_creature_ext. intros x _. f_equal. lia.
      * f_equal. rewrite update_creature_twice.
        apply update_creature_ext. intros x _. unfold compose, set_hp; cbn.
        f_equal. lia.
    + unfold ret. f_equal. apply update_creature_ext. intros x _. f_equal. lia.
Qed.


Lemma bind_assoc {A B C} (m : M A) (f : A -> M B) (g : B -> M C) s :
  bind (bind m f) g s = bind m (fun a => bind (f a) g) s.
Proof. unfold bind. destruct (m s); reflexivity. Qed.

(** ** Swallowed creatures *)

Ltac frame_fields :=
  repeat first
    [ rewrite field_update_frame by (intros; reflexivity)
    | rewrite field_update_ne by assumption ].

Lemma listed_is_Some s i a x :
  listed s i a x -> exists l l', field (fun c => lists c a) s i = Some l /\ remove_first x l = Some l'.
Proof.
  intros (l & Hl & Hx). destruct (remove_first_is_Some x l Hx) as [l' Hl'].
  exists l, l'. split; assumption.
Qed.

Lemma SwallowedDuration_end_Ok s d dd sw t l l' ls ls' le le' :
  durations s !! d = Some dd -> kind dd = SwallowedDuration ->
  applier dd = Some sw -> target dd = Some t ->
  field (fun c => extra_lists c !! "swallowed_creatures") s sw = Some (Some l) ->
  remove_first t l = Some l' ->
  field (fun c => lists c start_turn_duration) s t = Some ls ->
  remove_first d ls = Some ls' ->
  field (fun c => lists c end_turn_duration) s t = Some le ->
  remove_first d le = Some le' ->
  Duration_end d s = Ok tt (release_one sw t l' ls' le' s).
Proof.
  intros Hd Hk Ha Ht Hl Hl' Hls Hls' Hle Hle'.
  unfold Duration_end. rewrite (bind_get_duration _ _ _ _ Hd), Hk.
  unfold SwallowedDuration_end.
  rewrite (bind_get_duration _ _ _ _ Hd), Ha, bind_attr, Ht, bind_attr.
  assert (Hv : is_Some (creatures s !! t)).
  { apply (field_is_Some (fun c => lists c start_turn_duration)). eauto. }
  rewrite (bind_Ok _ _ _ _ _ (extra_list_remove_Ok _ _ _ _ _ _ Hl Hl')).
  set (s1 := update_creature sw _ s).
  assert (Hv1 : is_Some (creatures s1 !! t)) by (apply valid_update; exact Hv).
  rewrite (bind_modify_creature _ _ _ _ Hv1).
  set (s2 := update_creature t (set_slot swallowed None) s1).
  assert (Hls2 : field (fun c => lists c start_turn_duration) s2 t = Some ls).
  { unfold s2, s1. frame_fields. exact Hls. }
  rewrite (bind_Ok _ _ _ _ _ (list_remove_Ok _ _ _ _ _ _ Hls2 Hls')).
  set (s3 := update_creature t (set_list start_turn_duration ls') s2).
  assert (Hle3 : field (fun c => lists c end_turn_duration) s3 t = Some le).
  { unfold s3, s2, s1. frame_fields. exact Hle. }
  rewrite (bind_Ok _ _ _ _ _ (list_remove_Ok _ _ _ _ _ _ Hle3 Hle')).
  set (s4 := update_creature t (set_list end_turn_duration le') s3).
  assert (Hv4 : is_Some (creatures s4 !! t)).
  { unfold s4, s3, s2, s1. repeat apply valid_update. exact Hv. }
  rewrite (bind_Ok _ _ _ _ _ (add_counter_Ok s4 t blinded (-1) Hv4)).
  set (s5 := update_creature t _ s4).
  assert (Hv5 : is_Some (creatures s5 !! t)) by (apply valid_update; exact Hv4).
  rewrite (bind_Ok _ _ _ _ _ (add_counter_Ok s5 t restrained (-1) Hv5)).
  set (s6 := update_creature t _ s5).
  assert (Hv6 : is_Some (creatures s6 !! t)) by (apply valid_update; exact Hv5).
  rewrite (modify_creature_valid _ _ _ Hv6). reflexivity.
Qed.

(** What [release_one] changes and what it keeps. *)
Lemma release_one_frame {A} (g : Creature -> A) sw t l' ls' le' s j :
  (forall c nm l, g (set_extra_list nm l c) = g c) -> j <> t ->
  field g (release_one sw t l' ls' le' s) j = field g s j.
Proof.
  intros Hg Hj. unfold release_one.
  assert (t <> j) by congruence.
  rewrite !field_update_ne by assumption.
  apply field_update_frame. intros c. apply Hg.
Qed.

Lemma release_one_extra sw t l' ls' le' s l :
  field (fun c => extra_lists c !! "swallowed_creatures") s sw = Some (Some l) ->
  field (fun c => extra_lists c !! "swallowed_creatures") (release_one sw t l' ls' le' s) sw
  = Some (Some l').
Proof.
  intros Hl. unfold release_one.
  rewrite !(field_update_frame (fun c => extra_lists c !! "swallowed_creatures"))
    by (intros; reflexivity).
  rewrite field_update_eq. unfold field in *.
  destruct (creatures s !! sw) as [c|]; [|discriminate].
  cbn [fmap option_fmap option_map extra_lists set_extra_list].
  rewrite lookup_insert_eq. reflexivity.
Qed.

Lemma release_one_target sw t l' ls' le' s :
  is_Some (creatures s !! t) ->
  field (fun c => (slots c swallowed, prone c)) (release_one sw t l' ls' le' s) t
  = Some (None, true)
  /\ forall k, field (fun c => counters c k) (release_one sw t l' ls' le' s) t
               = released_counter k <$> field (fun c => counters c k) s t.
Proof.
  intros [c Hc]. unfold release_one. split.
  - rewrite !field_update_eq.
    rewrite field_update_frame by (intros; reflexivity).
    unfold field. rewrite Hc. reflexivity.
  - intros k. rewrite !field_update_eq.
    rewrite field_update_frame by (intros; reflexivity).
    unfold field. rewrite Hc. cbn [fmap option_fmap option_map]. f_equal.
    unfold released_counter.
    destruct k; vm_compute; try reflexivity;
      destruct (counters c _); reflexivity.
Qed.

Lemma release_one_listed sw t l' ls' le' s j a x :
  j <> t -> listed s j a x -> listed (release_one sw t l' ls' le' s) j a x.
Proof.
  intros Hj. unfold listed.
  rewrite (release_one_frame (fun c => lists c a)) by (auto; intros; reflexivity).
  auto.
Qed.

Lemma get_extra_list_Ok s i name l :
  field (fun c => extra_lists c !! name) s i = Some (Some l) ->
  get_extra_list i name s = Ok l s.
Proof.
  unfold field, get_extra_list. intros H.
  destruct (creatures s !! i) as [c|] eqn:Hc; [|discriminate].
  injection H as H. rewrite (bind_get_creature _ _ _ _ Hc), H. reflexivity.
Qed.

Lemma get_extra_int_Ok s i name n :
  field (fun c => extra_ints c !! name) s i = Some (Some n) ->
  get_extra_int i name s = Ok n s.
Proof.
  unfold field, get_extra_int. intros H.
  destruct (creatures s !! i) as [c|] eqn:Hc; [|discriminate].
  injection H as H. rewrite (bind_get_creature _ _ _ _ Hc), H. reflexivity.
Qed.

Lemma end_swallowed_Ok s sw t rest :
  swallow_wf s sw (t :: rest) ->
  exists ls' le',
    end_swallowed t s = Ok tt (release_one sw t rest ls' le' s)
    /\ swallow_wf (release_one sw t rest ls' le' s) sw rest.
Proof.
  intros (Hnd & Hl & Hall).
  apply NoDup_cons in Hnd as [Hnt Hnd].
  destruct (Hall t) as (d & dd & Hsl & Hd & Hk & Ha & Ht & Hs & He); [left|].
  destruct (listed_is_Some _ _ _ _ Hs) as (ls & ls' & Hls & Hls').
  destruct (listed_is_Some _ _ _ _ He) as (le & le' & Hle & Hle').
  exists ls', le'. split.
  - unfold end_swallowed. unfold field in Hsl.
    destruct (creatures s !! t) as [c|] eqn:Hc; [|discriminate].
    injection Hsl as Hsl. rewrite (bind_get_creature _ _ _ _ Hc), Hsl.
    eapply SwallowedDuration_end_Ok; eauto. apply remove_first_head.
  - split; [exact Hnd|]. split; [eapply release_one_extra; exact Hl|].
    intros t' Ht'. assert (Hne : t' <> t) by (intros ->; contradiction).
    destruct (Hall t') as (d' & dd' & Hsl' & Hd' & Hk' & Ha' & Htt' & Hs' & He');
      [right; exact Ht'|].
    exists d', dd'. split.
    { rewrite (release_one_frame (fun c => slots c swallowed))
        by (auto; intros; reflexivity). exact Hsl'. }
    split; [exact Hd'|]. split; [exact Hk'|]. split; [exact Ha'|].
    split; [exact Htt'|]. split; apply release_one_listed; assumption.
Qed.

(** Expelling the swallowed creatures one after the other succeeds, empties
    the list of the swallower, releases every one of them and changes
    nothing else but their lists. *)
Lemma expel_loop sw : forall rest s,
  swallow_wf s sw rest ->
  exists s',
    for_each rest end_swallowed s = Ok tt s'
    /\ durations s' = durations s /\ spells s' = spells s /\ rng s' = rng s
    /\ field (fun c => extra_lists c !! "swallowed_creatures") s' sw = Some (Some [])
    /\ (forall A (g : Creature -> A),
          (forall c nm l, g (set_extra_list nm l c) = g c) ->
          forall j, j ∉ rest -> field g s' j = field g s j)
    /\ (forall t, t ∈ rest ->
          field (fun c => (slots c swallowed, prone c)) s' t = Some (None, true)
          /\ forall k, field (fun c => counters c k) s' t
                       = released_counter k <$> field (fun c => counters c k) s t).
Proof.
  induction rest as [|t rest IH]; intros s Hwf.
  - exists s. destruct Hwf as (_ & Hl & _).
    do 4 (split; [reflexivity|]). split; [exact Hl|].
    split; [intros; reflexivity|]. intros t0 Ht0. inversion Ht0.
  - destruct (end_swallowed_Ok _ _ _ _ Hwf) as (ls' & le' & Hend & Hwf1).
    destruct Hwf as (Hnd & Hl & Hall).
    apply NoDup_cons in Hnd as [Hnt Hnd].
    assert (Hvt : is_Some (creatures s !! t)).
    { destruct (Hall t) as (d & dd & Hsl & _); [left|].
      apply (field_is_Some (fun c => slots c swallowed)). eauto. }
    destruct (IH _ Hwf1) as (s' & Hloop & Hd & Hsp & Hr & Hx & Hframe & Hrel).
    exists s'. cbn [for_each]. rewrite (bind_Ok _ _ _ _ _ Hend).
    split; [exact Hloop|]. split; [exact Hd|]. split; [exact Hsp|].
    split; [exact Hr|]. split; [exact Hx|]. split.
    + intros A g Hg j Hj. apply not_elem_of_cons in Hj as [Hjt Hj].
      rewrite (Hframe A g Hg j Hj). apply release_one_frame; assumption.
    + intros t0 Ht0.
      destruct (release_one_target sw t rest ls' le' s Hvt) as [Ht1 Ht2].
      apply elem_of_cons in Ht0 as [->|Ht0].
      * split.
        -- rewrite (Hframe _ (fun c => (slots c swallowed, prone c)))
             by (auto; intros; reflexivity).
           exact Ht1.
        -- intros k.
           rewrite (Hframe _ (fun c => counters c k)) by (auto; intros; reflexivity).
           apply Ht2.
      * destruct (Hrel t0 Ht0) as [H1 H2]. split; [exact H1|].
        intros k. rewrite H2. f_equal.
        apply release_one_frame; [intros; reflexivity|].
        intros ->. contradiction.
Qed.

Lemma expel_all_Ok s sw l :
  swallow_wf s sw l -> expel_all sw s = for_each l end_swallowed s.
Proof.
  intros (_ & Hl & _). unfold expel_all.
  rewrite (bind_Ok _ _ _ _ _ (get_extra_list_Ok _ _ _ _ Hl)). reflexivity.
Qed.

Lemma set_hp_same c : set_hp (hp c - 0) c = c.
Proof. destruct c. unfold set_hp; cbn. f_equal. lia. Qed.

(** The two damage components on a creature that keeps some hit points,
    also when nothing gets through. *)
Lemma take_components_alive s self c p pt q qt :
  creatures s !! self = Some c -> 0 <= hp c ->
  mitigated (traits c) pt p + optional_mitigated (traits c) qt q < hp c ->
  exists sa s1,
    take_damage_type self p pt s = Ok (mitigated (traits c) pt p) sa
    /\ match qt with
       | Some t => take_damage_type self q t
       | None => ret 0
       end sa = Ok (optional_mitigated (traits c) qt q) s1
    /\ creatures s1 !! self
       = Some (set_hp (hp c - (mitigated (traits c) pt p
                               + optional_mitigated (traits c) qt q)) c)
    /\ durations s1 = durations s /\ rng s1 = rng s.
Proof.
  intros Hc Hhp Hlt.
  pose proof (mitigated_nonneg (traits c) pt p) as Hm1.
  assert (Hm2 : 0 <= optional_mitigated (traits c) qt q).
  { destruct qt; cbn; [apply mitigated_nonneg | lia]. }
  destruct (Z_le_gt_dec (mitigated (traits c) pt p
                         + optional_mitigated (traits c) qt q) 0) as [Hz|Hpos].
  - assert (E1 : mitigated (traits c) pt p = 0) by lia.
    assert (E2 : optional_mitigated (traits c) qt q = 0) by lia.
    exists s, s. rewrite (take_damage_type_unfold _ _ _ _ _ Hc), E1, E2.
    split; [reflexivity|]. split.
    + destruct qt as [t|]; [|reflexivity]. cbn in E2.
      rewrite (take_damage_type_unfold _ _ _ _ _ Hc), E2. reflexivity.
    + split; [|split; reflexivity]. rewrite Hc. f_equal.
      symmetry. apply set_hp_same.
  - destruct (take_both_components s self c p pt q qt Hc Hhp) as (sa & H1 & H2);
      [lia | exact Hlt |].
    eexists sa, _. split; [exact H1|]. split; [exact H2|].
    split; [|split; reflexivity].
    rewrite update_creature_lookup_eq, Hc. reflexivity.
Qed.

(** [Creature.take_damage] on a creature that keeps some hit points, does not
    concentrate and is not turned: the damage is taken and nothing else
    happens. *)
Lemma Creature_take_damage_quiet s self c p pt dealer ranged q qt :
  creatures s !! self = Some c -> 0 <= hp c ->
  mitigated (traits c) pt p + optional_mitigated (traits c) qt q < hp c ->
  slots c concentration = None -> slots c turned = None ->
  exists s1,
    Creature_take_damage self p pt dealer ranged q qt s
    = Ok (mitigated (traits c) pt p, optional_mitigated (traits c) qt q) s1
    /\ creatures s1 !! self
       = Some (set_hp (hp c - (mitigated (traits c) pt p
                               + optional_mitigated (traits c) qt q)) c)
    /\ durations s1 = durations s /\ rng s1 = rng s.
Proof.
  intros Hc Hhp Hlt Hconc Hturn.
  destruct (take_components_alive s self c p pt q qt Hc Hhp Hlt)
    as (sa & s1 & H1 & H2 & Hc1 & Hd & Hr).
  exists s1. split; [|auto].
  unfold Creature_take_damage.
  rewrite (bind_Ok _ _ _ _ _ H1), (bind_Ok _ _ _ _ _ H2).
  rewrite (bind_get_creature _ _ _ _ Hc1). cbn [hp set_hp].
  rewrite (proj2 (Z.eqb_neq _ 0)) by lia.
  cbn [when]. rewrite bind_ret.
  rewrite (bind_get_creature _ _ _ _ Hc1). cbn [slots set_hp].
  rewrite Hconc. rewrite bool_decide_eq_false_2 by (intros H; apply H; reflexivity).
  cbn [andb]. rewrite bind_ret.
  rewrite (bind_get_creature _ _ _ _ Hc1). cbn [slots set_hp].
  rewrite Hturn. reflexivity.
Qed.

Lemma swallow_wf_set_rng s g sw l : swallow_wf s sw l -> swallow_wf (set_rng g s) sw l.
Proof. intros H. exact H. Qed.

(** C6 (amended).  A behir that stays conscious adds the damage a swallowed
    creature deals to it, after mitigation, to [damage_taken_this_turn]. A
    [SwallowedDuration] registers on the start- and end-of-turn lists of the
    swallowed creature and leaves the lists of the swallower alone; its
    start-of-turn trigger sets the swallower's counter to 0; its end-of-turn
    trigger does nothing while the counter is below the threshold, and
    otherwise the swallower makes a Constitution saving throw against the
    regurgitation DC: on a success nothing else changes, on a failure every
    swallowed creature is expelled. *)
Theorem swallowed_damage_and_regurgitation :
  (forall s self c dealer l n p pt ranged q qt,
      creatures s !! self = Some c -> klass c = Behir -> 0 <= hp c ->
      mitigated (traits c) pt p + optional_mitigated (traits c) qt q < hp c ->
      slots c concentration = None -> slots c turned = None ->
      extra_lists c !! "swallowed_creatures" = Some l -> dealer ∈ l ->
      extra_ints c !! "damage_taken_this_turn" = Some n ->
      exists s',
        take_damage self p pt (Some dealer) ranged q qt s
        = Ok (mitigated (traits c) pt p, optional_mitigated (traits c) qt q) s'
        /\ field (fun c => extra_ints c !! "damage_taken_this_turn") s' self
           = Some (Some (n + (mitigated (traits c) pt p
                              + optional_mitigated (traits c) qt q))))
  /\ (forall s sw t threshold dc l,
        is_Some (creatures s !! t) -> sw <> t ->
        field (fun c => extra_lists c !! "swallowed_creatures") s sw = Some (Some l) ->
        exists s',
          SwallowedDuration_init sw t threshold dc s = Ok (length (durations s)) s'
          /\ listed s' t start_turn_duration (length (durations s))
          /\ listed s' t end_turn_duration (length (durations s))
          /\ forall a, field (fun c => lists c a) s' sw = field (fun c => lists c a) s sw)
  /\ (forall s d dd sw l n,
        durations s !! d = Some dd -> kind dd = SwallowedDuration ->
        applier dd = Some sw -> swallow_wf s sw l ->
        field (fun c => extra_ints c !! "damage_taken_this_turn") s sw = Some (Some n) ->
        start_turn_effect d s
        = Ok tt (update_creature sw (set_extra_int "damage_taken_this_turn" 0) s)
        /\ field (fun c => extra_ints c !! "damage_taken_this_turn")
             (update_creature sw (set_extra_int "damage_taken_this_turn" 0) s) sw
           = Some (Some 0)
        /\ if regurgitation_threshold dd <=? n then
             exists saved g,
               saving_throw sw Con (save_dc dd) false false None s
               = Ok saved (set_rng g s)
               /\ if saved then end_turn_effect d s = Ok tt (set_rng g s)
                  else exists s', end_turn_effect d s = Ok tt s' /\ expelled s s' sw l
           else end_turn_effect d s = Ok tt s).
Proof.
  split; [|split].
  - intros s self c dealer l n p pt ranged q qt Hc Hk Hhp Hlt Hconc Hturn Hl Hin Hn.
    destruct (Creature_take_damage_quiet s self c p pt (Some dealer) ranged q qt
                Hc Hhp Hlt Hconc Hturn) as (s1 & H1 & Hc1 & _).
    unfold take_damage. rewrite (bind_get_creature _ _ _ _ Hc), Hk.
    unfold Behir_take_damage. rewrite (bind_Ok _ _ _ _ _ H1).
    assert (Hl1 : field (fun c => extra_lists c !! "swallowed_creatures") s1 self
                  = Some (Some l)).
    { unfold field. rewrite Hc1. cbn. rewrite Hl. reflexivity. }
    rewrite (bind_Ok _ _ _ _ _ (get_extra_list_Ok _ _ _ _ Hl1)).
    rewrite bool_decide_eq_true_2 by exact Hin. cbn [when fst snd].
    assert (Hn1 : field (fun c => extra_ints c !! "damage_taken_this_turn") s1 self
                  = Some (Some n)).
    { unfold field. rewrite Hc1. cbn. rewrite Hn. reflexivity. }
    unfold set_extra_int_attr.
    rewrite bind_assoc.
    rewrite (bind_Ok _ _ _ _ _ (get_extra_int_Ok _ _ _ _ Hn1)).
    rewrite (bind_Ok _ _ _ _ _ (modify_creature_Ok _ _ _ _ Hc1)).
    eexists. split; [reflexivity|].
    rewrite field_update_eq. unfold field. rewrite Hc1.
    cbn [fmap option_fmap option_map extra_ints set_extra_int set_hp].
    rewrite lookup_insert_eq. reflexivity.
  - intros s sw t threshold dc l Ht Hne Hl.
    unfold SwallowedDuration_init.
    set (dd := mkDuration SwallowedDuration None (Some sw) (Some t) dc false false false
                 threshold 0 (ADie d4) acid).
    set (s0 := mkStore (creatures s) (durations s ++ [dd]) (spells s) (rng s)).
    set (self := length (durations s)).
    assert (Halloc : alloc_duration dd s = Ok self s0) by reflexivity.
    rewrite (bind_Ok _ _ _ _ _ Halloc).
    assert (Hl0 : field (fun c => extra_lists c !! "swallowed_creatures") s0 sw
                  = Some (Some l)) by exact Hl.
    rewrite (bind_Ok _ _ _ _ _ (extra_list_append_Ok _ _ _ t _ Hl0)).
    set (s1 := update_creature sw (set_extra_list "swallowed_creatures" (l ++ [t])) s0).
    assert (Ht1 : is_Some (creatures s1 !! t)) by (apply valid_update; exact Ht).
    rewrite (bind_modify_creature _ _ _ _ Ht1).
    set (s2 := update_creature t (set_slot swallowed (Some self)) s1).
    assert (Ht2 : is_Some (creatures s2 !! t)) by (apply valid_update; exact Ht1).
    rewrite (bind_Ok _ _ _ _ _ (list_append_Ok s2 t start_turn_duration self Ht2)).
    set (s3 := update_creature t _ s2).
    assert (Ht3 : is_Some (creatures s3 !! t)) by (apply valid_update; exact Ht2).
    rewrite (bind_Ok _ _ _ _ _ (list_append_Ok s3 t end_turn_duration self Ht3)).
    set (s4 := update_creature t _ s3).
    assert (Ht4 : is_Some (creatures s4 !! t)) by (apply valid_update; exact Ht3).
    rewrite (bind_Ok _ _ _ _ _ (add_counter_Ok s4 t blinded 1 Ht4)).
    set (s5 := update_creature t _ s4).
    assert (Ht5 : is_Some (creatures s5 !! t)) by (apply valid_update; exact Ht4).
    rewrite (bind_Ok _ _ _ _ _ (add_counter_Ok s5 t restrained 1 Ht5)).
    set (s6 := update_creature t _ s5).
    exists s6. split; [reflexivity|]. split; [|split].
    + unfold s6, s5. rewrite !listed_update_frame by (intros; reflexivity).
      unfold s4. apply listed_append. unfold s3. apply listed_append_new, Ht2.
    + unfold s6, s5. rewrite !listed_update_frame by (intros; reflexivity).
      unfold s4. apply listed_append_new, Ht3.
    + intros a. unfold s6, s5, s4, s3, s2.
      assert (t <> sw) by congruence.
      rewrite !field_update_ne by assumption.
      unfold s1. rewrite field_update_frame by (intros; reflexivity). reflexivity.
  - intros s d dd sw l n Hd Hk Ha Hwf Hn.
    assert (Hv : is_Some (creatures s !! sw)).
    { apply (field_is_Some (fun c => extra_ints c !! "damage_taken_this_turn")). eauto. }
    split; [|split].
    + unfold start_turn_effect. rewrite (bind_get_duration _ _ _ _ Hd), Hk.
      unfold SwallowedDuration_start_turn_effect.
      rewrite (bind_get_duration _ _ _ _ Hd), Ha, bind_attr.
      apply modify_creature_valid, Hv.
    + rewrite field_update_eq. destruct Hv as [c Hc]. unfold field. rewrite Hc.
      cbn [fmap option_fmap option_map extra_ints set_extra_int].
      rewrite lookup_insert_eq. reflexivity.
    + assert (Hend : end_turn_effect d s = SwallowedDuration_end_turn_effect d s).
      { unfold end_turn_effect. rewrite (bind_get_duration _ _ _ _ Hd), Hk. reflexivity. }
      rewrite Hend. unfold SwallowedDuration_end_turn_effect.
      rewrite (bind_get_duration _ _ _ _ Hd), Ha, bind_attr.
      rewrite (bind_Ok _ _ _ _ _ (get_extra_int_Ok _ _ _ _ Hn)).
      destruct (regurgitation_threshold dd <=? n); [|reflexivity].
      destruct Hv as [c Hc].
      destruct (saving_throw_Ok s sw c Con (save_dc dd) false false None Hc)
        as (saved & g & Hst & _).
      exists saved, g. split; [exact Hst|].
      rewrite (bind_Ok _ _ _ _ _ Hst).
      destruct saved; cbn [negb when]; [reflexivity|].
      pose proof (swallow_wf_set_rng s g sw l Hwf) as Hwf'.
      destruct (expel_loop sw l _ Hwf') as (s' & Hloop & _ & _ & _ & Hx & _ & Hrel).
      exists s'. split.
      * change (expel_all sw (set_rng g s) = Ok tt s').
        rewrite (expel_all_Ok _ _ _ Hwf'). exact Hloop.
      * split; [exact Hx|]. exact Hrel.
Qed.

Lemma swallowed_arena_wf : swallow_wf swallowed_arena 0 [1%nat].
Proof.
  split; [apply NoDup_singleton|]. split; [reflexivity|].
  intros t Ht. apply list_elem_of_singleton in Ht. subst t.
  exists 0%nat, swallow_0_1.
  repeat split; try reflexivity;
    (exists [0%nat]; split; [reflexivity | apply list_elem_of_singleton; reflexivity]).
Qed.

Lemma swallowed_damage_and_regurgitation_witness :
  start_turn_effect 0 swallowed_arena
  = Ok tt (update_creature 0 (set_extra_int "damage_taken_this_turn" 0) swallowed_arena)
  /\ exists saved g,
       saving_throw 0 Con 14 false false None swallowed_arena
       = Ok saved (set_rng g swallowed_arena)
       /\ if saved then end_turn_effect 0 swallowed_arena = Ok tt (set_rng g swallowed_arena)
          else exists s',
                 end_turn_effect 0 swallowed_arena = Ok tt s'
                 /\ expelled swallowed_arena s' 0 [1%nat].
Proof.
  destruct (proj2 (proj2 swallowed_damage_and_regurgitation)
              swallowed_arena 0%nat swallow_0_1 0%nat [1%nat] 30
              eq_refl eq_refl eq_refl swallowed_arena_wf eq_refl) as (H1 & _ & H3).
  split; [exact H1 | exact H3].
Defined.

(** Counterexample to C6 as stated: the start-of-turn effects of the
    swallower do not reset its counter (the [SwallowedDuration] is not on its
    list); those of the swallowed creature do. *)
Lemma swallower_turn_start_keeps_counter :
  match start_turn_effects 0 swallowed_arena with
  | Ok _ s' =>
      field (fun c => extra_ints c !! "damage_taken_this_turn") s' 0 = Some (Some 30)
  | Raise _ _ => False
  end
  /\ match start_turn_effects 1 swallowed_arena with
     | Ok _ s' =>
         field (fun c => extra_ints c !! "damage_taken_this_turn") s' 0 = Some (Some 0)
     | Raise _ _ => False
     end.
Proof. vm_compute. split; reflexivity. Qed.

(** The save of [swallowed_arena] fails (a 1 against DC 14), and the
    end-of-turn trigger of the swallowed creature expels it. *)
Example regurgitation_on_failed_save :
  match end_turn 1 swallowed_arena with
  | Ok _ s' =>
      field (fun c => extra_lists c !! "swallowed_creatures") s' 0 = Some (Some [])
      /\ field (fun c => (slots c swallowed, counters c blinded, counters c restrained,
                          lists c start_turn_duration, lists c end_turn_duration)) s' 1
         = Some (None, 0, 0, [], [])
  | Raise _ _ => False
  end.
Proof. vm_compute. split; reflexivity. Qed.

(** ** Falling unconscious *)

Lemma cond_update_valid b i f s j :
  is_Some (creatures (cond_update b i f s) !! j) <-> is_Some (creatures s !! j).
Proof. destruct b; [apply valid_update | reflexivity]. Qed.

Lemma cond_update_frame {A} (g : Creature -> A) b i f s j :
  (forall c, g (f c) = g c) -> field g (cond_update b i f s) j = field g s j.
Proof. intros H. destruct b; [apply field_update_frame, H | reflexivity]. Qed.

Lemma GrappleDuration_end_Ok s g dd gr t lg lg' lt lt' :
  durations s !! g = Some dd -> kind dd = GrappleDuration ->
  applier dd = Some gr -> target dd = Some t ->
  field (fun c => lists c grappling) s gr = Some lg -> remove_first g lg = Some lg' ->
  field (fun c => lists c grappled) s t = Some lt -> remove_first g lt = Some lt' ->
  (escape_priority dd = true -> listed s t start_turn_duration g) ->
  exists ls ls',
    Duration_end g s = Ok tt (release_grapple gr t dd lg' lt' ls' s)
    /\ (escape_priority dd = true ->
        field (fun c => lists c start_turn_duration) s t = Some ls
        /\ remove_first g ls = Some ls').
Proof.
  intros Hd Hk Ha Ht Hlg Hlg' Hlt Hlt' Hesc.
  assert (Hv : is_Some (creatures s !! t)).
  { apply (field_is_Some (fun c => lists c grappled)). eauto. }
  assert (Hprefix :
    Duration_end g s =
    (when (escape_priority dd) (list_remove t start_turn_duration g) >>
     when (grapple_restrained dd) (add_counter t restrained (-1)) >>
     when (grapple_stunned dd) (add_counter t stunned (-1)))
      (update_creature t (set_list grappled lt')
         (update_creature gr (set_list grappling lg') s))).
  { unfold Duration_end. rewrite (bind_get_duration _ _ _ _ Hd), Hk.
    unfold GrappleDuration_end.
    rewrite (bind_get_duration _ _ _ _ Hd), Ha, bind_attr, Ht, bind_attr.
    rewrite (bind_Ok _ _ _ _ _ (list_remove_Ok _ _ _ _ _ _ Hlg Hlg')).
    assert (Hlt1 : field (fun c => lists c grappled)
                     (update_creature gr (set_list grappling lg') s) t = Some lt).
    { rewrite field_update_frame by (intros; reflexivity). exact Hlt. }
    rewrite (bind_Ok _ _ _ _ _ (list_remove_Ok _ _ _ _ _ _ Hlt1 Hlt')).
    reflexivity. }
  set (s2 := update_creature t (set_list grappled lt')
               (update_creature gr (set_list grappling lg') s)) in *.
  assert (Hv2 : is_Some (creatures s2 !! t)).
  { unfold s2. repeat apply valid_update. exact Hv. }
  assert (Hesc' : exists ls ls',
    when (escape_priority dd) (list_remove t start_turn_duration g) s2
    = Ok tt (cond_update (escape_priority dd) t (set_list start_turn_duration ls') s2)
    /\ (escape_priority dd = true ->
        field (fun c => lists c start_turn_duration) s t = Some ls
        /\ remove_first g ls = Some ls')).
  { destruct (escape_priority dd) eqn:E; cbn [when cond_update].
    - destruct (listed_is_Some _ _ _ _ (Hesc eq_refl)) as (ls & ls' & Hls & Hls').
      exists ls, ls'. split; [|auto].
      apply (list_remove_Ok _ _ _ _ ls); [|exact Hls'].
      unfold s2. rewrite !field_update_frame by (intros; reflexivity). exact Hls.
    - exists [], []. split; [reflexivity | discriminate]. }
  destruct Hesc' as (ls & ls' & Hstep & Hls).
  exists ls, ls'. split; [|exact Hls].
  rewrite Hprefix. rewrite (bind_Ok _ _ _ _ _ Hstep).
  set (s3 := cond_update (escape_priority dd) t _ s2).
  assert (Hv3 : is_Some (creatures s3 !! t)) by (apply cond_update_valid; exact Hv2).
  assert (Hr : when (grapple_restrained dd) (add_counter t restrained (-1)) s3
               = Ok tt (cond_update (grapple_restrained dd) t
                          (fun c => set_counter restrained (counters c restrained + -1) c) s3)).
  { destruct (grapple_restrained dd); cbn [when cond_update];
      [apply add_counter_Ok, Hv3 | reflexivity]. }
  rewrite (bind_Ok _ _ _ _ _ Hr).
  set (s4 := cond_update (grapple_restrained dd) t _ s3).
  assert (Hv4 : is_Some (creatures s4 !! t)) by (apply cond_update_valid; exact Hv3).
  unfold release_grapple. fold s2. fold s3. fold s4.
  destruct (grapple_stunned dd); cbn [when cond_update];
    [apply add_counter_Ok, Hv4 | reflexivity].
Qed.

(** What [release_grapple] changes and what it keeps. *)
Lemma release_grapple_frame {A} (f : Creature -> A) gr t dd lg' lt' ls' s j :
  grapple_framed f ->
  field f (release_grapple gr t dd lg' lt' ls' s) j = field f s j.
Proof.
  intros [Hl Hc]. unfold release_grapple.
  rewrite !cond_update_frame by (intros; first [apply Hc | apply Hl; discriminate]).
  rewrite !field_update_frame by (intros; apply Hl; discriminate).
  reflexivity.
Qed.

Lemma release_grapple_grappling gr t dd lg' lt' ls' s :
  is_Some (creatures s !! gr) ->
  field (fun c => lists c grappling) (release_grapple gr t dd lg' lt' ls' s) gr = Some lg'.
Proof.
  intros [c Hc]. unfold release_grapple.
  rewrite !cond_update_frame by (intros; reflexivity).
  rewrite field_update_frame by (intros; reflexivity).
  rewrite field_update_eq. unfold field. rewrite Hc. reflexivity.
Qed.

Lemma release_grapple_grappled gr t dd lg' lt' ls' s j :
  is_Some (creatures s !! t) ->
  field (fun c => lists c grappled) (release_grapple gr t dd lg' lt' ls' s) j
  = if decide (t = j) then Some lt' else field (fun c => lists c grappled) s j.
Proof.
  intros [c Hc]. unfold release_grapple.
  rewrite !cond_update_frame by (intros; reflexivity).
  rewrite field_update. destruct (decide (t = j)) as [<-|].
  - rewrite field_update_frame by (intros; reflexivity).
    unfold field. rewrite Hc. reflexivity.
  - apply field_update_frame. intros; reflexivity.
Qed.

Lemma release_grapple_start gr t dd lg' lt' ls ls' s g j x :
  (escape_priority dd = true ->
   field (fun c => lists c start_turn_duration) s t = Some ls
   /\ remove_first g ls = Some ls') ->
  listed s j start_turn_duration x -> x <> g ->
  listed (release_grapple gr t dd lg' lt' ls' s) j start_turn_duration x.
Proof.
  intros Hesc (l & Hl & Hx) Hne. unfold listed, release_grapple.
  rewrite !cond_update_frame by (intros; reflexivity).
  destruct (escape_priority dd); cbn [cond_update].
  - destruct (Hesc eq_refl) as [Hls Hls'].
    rewrite field_update. destruct (decide (t = j)) as [<-|].
    + rewrite !field_update_frame by (intros; reflexivity).
      rewrite Hls in Hl. injection Hl as <-.
      assert (Hv : is_Some (creatures s !! t)).
      { apply (field_is_Some (fun c => lists c start_turn_duration)). eauto. }
      destruct Hv as [c Hc]. unfold field. rewrite Hc.
      cbn [fmap option_fmap option_map lists set_list].
      rewrite decide_True by reflexivity.
      eexists; split; [reflexivity|]. eapply remove_first_elem_of; eauto.
    + rewrite !field_update_frame by (intros; reflexivity). eauto.
  - rewrite !field_update_frame by (intros; reflexivity). eauto.
Qed.

Lemma release_grapple_stores gr t dd lg' lt' ls' s :
  durations (release_grapple gr t dd lg' lt' ls' s) = durations s
  /\ spells (release_grapple gr t dd lg' lt' ls' s) = spells s
  /\ rng (release_grapple gr t dd lg' lt' ls' s) = rng s.
Proof.
  unfold release_grapple.
  destruct (grapple_stunned dd), (grapple_restrained dd), (escape_priority dd);
    repeat split.
Qed.

Lemma grapple_step s gr g0 rest :
  grapples_wf s gr (g0 :: rest) ->
  exists dd t lt lt' ls ls',
    durations s !! g0 = Some dd /\ target dd = Some t
    /\ field (fun c => lists c grappled) s t = Some lt
    /\ remove_first g0 lt = Some lt' /\ NoDup lt
    /\ (escape_priority dd = true ->
        field (fun c => lists c start_turn_duration) s t = Some ls
        /\ remove_first g0 ls = Some ls')
    /\ Duration_end g0 s = Ok tt (release_grapple gr t dd rest lt' ls' s)
    /\ grapples_wf (release_grapple gr t dd rest lt' ls' s) gr rest.
Proof.
  intros (Hnd & Hlg & Hall).
  apply NoDup_cons in Hnd as [Hnt Hnd].
  destruct (Hall g0) as (dd & t & lt & Hd & Hk & Ha & Ht & Hlt & Hin & Hndlt & Hesc);
    [left|].
  destruct (remove_first_is_Some g0 lt Hin) as [lt' Hlt'].
  destruct (GrappleDuration_end_Ok s g0 dd gr t _ rest lt lt' Hd Hk Ha Ht Hlg
              (remove_first_head _ _) Hlt Hlt' Hesc) as (ls & ls' & Hend & Hls).
  exists dd, t, lt, lt', ls, ls'.
  do 6 (split; [assumption|]). split; [exact Hend|].
  assert (Hvt : is_Some (creatures s !! t)).
  { apply (field_is_Some (fun c => lists c grappled)). eauto. }
  assert (Hvg : is_Some (creatures s !! gr)).
  { apply (field_is_Some (fun c => lists c grappling)). eauto. }
  split; [exact Hnd|]. split; [apply release_grapple_grappling, Hvg|].
  intros g Hg. assert (Hne : g <> g0) by (intros ->; contradiction).
  destruct (Hall g) as (dd1 & t1 & lt1 & Hd1 & Hk1 & Ha1 & Ht1 & Hlt1 & Hin1 & Hnd1 & Hesc1);
    [right; exact Hg|].
  destruct (decide (t = t1)) as [<-|Hnet].
  - rewrite Hlt in Hlt1. injection Hlt1 as <-.
    exists dd1, t, lt'.
    split; [rewrite (proj1 (release_grapple_stores _ _ _ _ _ _ _)); exact Hd1|].
    do 3 (split; [assumption|]).
    split; [rewrite release_grapple_grappled by exact Hvt;
            rewrite decide_True by reflexivity; reflexivity|].
    split; [eapply remove_first_elem_of; eauto|].
    split; [eapply remove_first_NoDup; eauto|].
    intros E. eapply release_grapple_start; eauto.
  - exists dd1, t1, lt1.
    split; [rewrite (proj1 (release_grapple_stores _ _ _ _ _ _ _)); exact Hd1|].
    do 3 (split; [assumption|]).
    split; [rewrite release_grapple_grappled by exact Hvt;
            rewrite decide_False by exact Hnet; exact Hlt1|].
    split; [exact Hin1|]. split; [exact Hnd1|].
    intros E. eapply release_grapple_start; eauto.
Qed.

(** Ending the grapples of a grappler one after the other succeeds, empties
    its [grappling] list, takes every grapple off the [grappled] list of its
    target, and otherwise only removes the grapples from start-of-turn lists
    and lowers counters. *)
Lemma ungrapple_loop gr : forall rest s,
  grapples_wf s gr rest ->
  exists s',
    for_each rest Duration_end s = Ok tt s'
    /\ durations s' = durations s /\ spells s' = spells s /\ rng s' = rng s
    /\ field (fun c => lists c grappling) s' gr = Some []
    /\ (forall A (f : Creature -> A), grapple_framed f ->
          forall j, field f s' j = field f s j)
    /\ (forall j x, listed s j start_turn_duration x -> x ∉ rest ->
          listed s' j start_turn_duration x)
    /\ (forall j x l, field (fun c => lists c grappled) s j = Some l -> x ∉ l ->
          exists l', field (fun c => lists c grappled) s' j = Some l' /\ x ∉ l')
    /\ (forall g dd t, g ∈ rest -> durations s !! g = Some dd -> target dd = Some t ->
          exists l', field (fun c => lists c grappled) s' t = Some l' /\ g ∉ l').
Proof.
  induction rest as [|g0 rest IH]; intros s Hwf.
  - exists s. destruct Hwf as (_ & Hl & _).
    do 4 (split; [reflexivity|]). split; [exact Hl|].
    split; [intros; reflexivity|]. split; [intros; assumption|].
    split; [intros j x l Hl' Hx; eauto|].
    intros g dd t Hg. inversion Hg.
  - destruct (grapple_step _ _ _ _ Hwf)
      as (dd0 & t0 & lt0 & lt0' & ls0 & ls0' & Hd0 & Ht0 & Hlt0 & Hrm0 & Hnd0 & Hls0
          & Hend & Hwf1).
    assert (Hvt : is_Some (creatures s !! t0)).
    { apply (field_is_Some (fun c => lists c grappled)). eauto. }
    destruct Hwf as (Hnd & _ & _). apply NoDup_cons in Hnd as [Hnt Hnd].
    destruct (IH _ Hwf1) as (s' & Hloop & Hd & Hsp & Hr & Hg & Hframe & Hstart & Hmono & Htgt).
    assert (Hmono1 : forall j x l,
      field (fun c => lists c grappled) s j = Some l -> x ∉ l ->
      exists l', field (fun c => lists c grappled)
                   (release_grapple gr t0 dd0 rest lt0' ls0' s) j = Some l' /\ x ∉ l').
    { intros j x l Hl Hx. rewrite release_grapple_grappled by exact Hvt.
      destruct (decide (t0 = j)) as [<-|]; [|eauto].
      rewrite Hlt0 in Hl. injection Hl as <-.
      exists lt0'. split; [reflexivity|]. intros Hin. apply Hx.
      eapply remove_first_subset; eauto. }
    destruct (release_grapple_stores gr t0 dd0 rest lt0' ls0' s) as (Ed & Es & Er).
    rewrite Ed in Hd. rewrite Es in Hsp. rewrite Er in Hr.
    exists s'. cbn [for_each]. rewrite (bind_Ok _ _ _ _ _ Hend).
    split; [exact Hloop|]. split; [exact Hd|]. split; [exact Hsp|].
    split; [exact Hr|]. split; [exact Hg|]. split; [|split; [|split]].
    + intros A f Hf j. rewrite (Hframe A f Hf j). apply release_grapple_frame, Hf.
    + intros j x Hl Hx. apply not_elem_of_cons in Hx as [Hx0 Hx].
      apply Hstart; [|exact Hx]. eapply release_grapple_start; eauto.
    + intros j x l Hl Hx.
      destruct (Hmono1 j x l Hl Hx) as (l1 & Hl1 & Hx1). eapply Hmono; eauto.
    + intros g dd t Hin Hdd Ht.
      apply elem_of_cons in Hin as [->|Hin].
      * rewrite Hd0 in Hdd. injection Hdd as <-.
        rewrite Ht0 in Ht. injection Ht as <-.
        apply (Hmono t0 g0 lt0').
        -- rewrite release_grapple_grappled by exact Hvt.
           rewrite decide_True by reflexivity. reflexivity.
        -- eapply remove_first_NoDup; eauto.
      * eapply Htgt; eauto. rewrite Ed. exact Hdd.
Qed.

Lemma Spell_end_frame {A} (g : Creature -> A) sp j v :
  spell_framed g -> preserves (fun s => field g s j = v) (Spell_end sp).
Proof.
  intros (H1 & H2 & H3 & H4). unfold Spell_end.
  pres ltac:(intros ? ? _ Hv; rewrite field_update_frame;
             [exact Hv | intros; first [apply H1 | apply H2 | apply H3 | apply H4]]).
Qed.

Lemma Spell_end_stores sp v :
  preserves (fun s => (durations s, spells s, rng s) = v) (Spell_end sp).
Proof. unfold Spell_end. pres ltac:(intros; assumption). Qed.

Lemma counter_loop_Ok k n ts : forall s,
  Forall (fun t => is_Some (creatures s !! t)) ts ->
  exists s', for_each ts (fun t => add_counter t k n) s = Ok tt s'.
Proof.
  induction ts as [|t ts IH]; intros s Hts; [eexists; reflexivity|].
  inversion Hts as [|? ? Ht Hts']; subst. cbn [for_each].
  rewrite (bind_Ok _ _ _ _ _ (add_counter_Ok s t k n Ht)).
  apply IH. eapply Forall_impl; [exact Hts'|].
  intros t' Ht'. apply valid_update. exact Ht'.
Qed.

Lemma guardians_loop_Ok sp ts : forall s,
  NoDup ts -> Forall (fun t => listed s t spirit_guardians sp) ts ->
  exists s', for_each ts (fun t => list_remove t spirit_guardians sp) s = Ok tt s'.
Proof.
  induction ts as [|t ts IH]; intros s Hnd Hts; [eexists; reflexivity|].
  apply NoDup_cons in Hnd as [Hnt Hnd].
  inversion Hts as [|? ? Ht Hts']; subst. cbn [for_each].
  destruct (listed_is_Some _ _ _ _ Ht) as (l & l' & Hl & Hl').
  rewrite (bind_Ok _ _ _ _ _ (list_remove_Ok _ _ _ _ _ _ Hl Hl')).
  apply IH; [exact Hnd|].
  apply Forall_forall. intros t' Ht'.
  assert (t <> t') by (intros ->; contradiction).
  unfold listed. rewrite field_update_ne by assumption.
  eapply Forall_forall in Hts'; eauto.
Qed.

Lemma concentration_cleared s self :
  is_Some (creatures s !! self) ->
  field (fun c => slots c concentration) (update_creature self (set_slot concentration None) s) self
  = Some None.
Proof.
  intros [c Hc]. rewrite field_update_eq. unfold field. rewrite Hc. reflexivity.
Qed.

(** Ending a well-formed concentration spell succeeds and leaves the caster
    without concentration. *)
Lemma Spell_end_Ok s self sp_id :
  spell_wf s self sp_id ->
  exists s', Spell_end sp_id s = Ok tt s'
             /\ field (fun c => slots c concentration) s' self = Some None.
Proof.
  intros (sp & Hsp & Hc & Hv & Hwf). subst self.
  assert (Hkeep : forall (m : M unit) s1 s',
    field (fun c => slots c concentration) s1 (caster sp) = Some None ->
    m s1 = Ok tt s' ->
    preserves (fun s => field (fun c => slots c concentration) s (caster sp) = Some None) m ->
    field (fun c => slots c concentration) s' (caster sp) = Some None).
  { intros m s1 s' H1 Hm Hp. specialize (Hp s1 H1). rewrite Hm in Hp. exact Hp. }
  pose proof (concentration_cleared s (caster sp) Hv) as Hclr.
  unfold Spell_end. rewrite (bind_get_spell _ _ _ _ Hsp).
  destruct (effect sp) as [ts|ts|t| |ts].
  - rewrite (bind_modify_creature _ _ _ _ Hv).
    destruct (counter_loop_Ok baned (-1) ts
                (update_creature (caster sp) (set_slot concentration None) s))
      as (s' & Hs').
    { eapply Forall_impl; [exact Hwf|]. intros t Ht. apply valid_update, Ht. }
    exists s'. split; [exact Hs'|].
    eapply Hkeep; [exact Hclr | exact Hs' |].
    pres ltac:(intros ? ? _ Hx; rewrite field_update_frame; [exact Hx | intros; reflexivity]).
  - rewrite (bind_modify_creature _ _ _ _ Hv).
    destruct (counter_loop_Ok blessed (-1) ts
                (update_creature (caster sp) (set_slot concentration None) s))
      as (s' & Hs').
    { eapply Forall_impl; [exact Hwf|]. intros t Ht. apply valid_update, Ht. }
    exists s'. split; [exact Hs'|].
    eapply Hkeep; [exact Hclr | exact Hs' |].
    pres ltac:(intros ? ? _ Hx; rewrite field_update_frame; [exact Hx | intros; reflexivity]).
  - rewrite (bind_modify_creature _ _ _ _ Hv).
    eexists. split.
    + apply add_counter_Ok, valid_update, Hwf.
    + rewrite field_update_frame by (intros; reflexivity). exact Hclr.
  - destruct Hv as [c Hcc]. rewrite (bind_get_creature _ _ _ _ Hcc).
    unfold field in Hwf. rewrite Hcc in Hwf. injection Hwf as Hverb.
    rewrite Hverb. cbn [when]. rewrite bind_ret.
    rewrite (bind_modify_creature _ _ _ _ (ex_intro _ c Hcc)).
    eexists. split.
    + apply modify_creature_valid, valid_update. eauto.
    + rewrite field_update_frame by (intros; reflexivity). exact Hclr.
  - destruct Hwf as [Hnd Hts].
    rewrite (bind_modify_creature _ _ _ _ Hv).
    destruct (guardians_loop_Ok sp_id ts
                (update_creature (caster sp) (set_slot concentration None) s) Hnd)
      as (s' & Hs').
    { eapply Forall_impl; [exact Hts|]. intros t Ht.
      apply listed_update_frame; [intros; reflexivity | exact Ht]. }
    exists s'. split; [exact Hs'|].
    eapply Hkeep; [exact Hclr | exact Hs' |].
    pres ltac:(intros ? ? _ Hx; rewrite field_update_frame; [exact Hx | intros; reflexivity]).
Qed.

Lemma preserves_Ok {A} (P : Store -> Prop) (m : M A) s a s' :
  preserves P m -> P s -> m s = Ok a s' -> P s'.
Proof. intros Hp Hs Hm. specialize (Hp s Hs). rewrite Hm in Hp. exact Hp. Qed.

Lemma grapples_wf_frame s s' gr gs :
  durations s' = durations s ->
  (forall a j, field (fun c => lists c a) s' j = field (fun c => lists c a) s j) ->
  grapples_wf s gr gs -> grapples_wf s' gr gs.
Proof.
  intros Hd Hl (Hnd & Hg & Hall). split; [exact Hnd|]. split; [rewrite Hl; exact Hg|].
  intros g Hin. destruct (Hall g Hin) as (dd & t & lt & H1 & H2 & H3 & H4 & H5 & H6 & H7 & H8).
  exists dd, t, lt. rewrite Hd, Hl. unfold listed. rewrite Hl. auto 10.
Qed.

Lemma spell_wf_frame s s' self sp :
  spells s' = spells s ->
  (forall j, field verbose s' j = field verbose s j) ->
  (forall j, field (fun c => lists c spirit_guardians) s' j
             = field (fun c => lists c spirit_guardians) s j) ->
  spell_wf s self sp -> spell_wf s' self sp.
Proof.
  intros Hs Hv Hl (x & H1 & H2 & H3 & H4).
  assert (Hval : forall j, is_Some (creatures s !! j) -> is_Some (creatures s' !! j)).
  { intros j Hj. apply (field_is_Some verbose). rewrite Hv. apply field_is_Some, Hj. }
  exists x. rewrite Hs. do 2 (split; [assumption|]). split; [apply Hval, H3|].
  destruct (effect x) as [ts|ts|t| |ts].
  - eapply Forall_impl; [exact H4|]. intros; apply Hval; assumption.
  - eapply Forall_impl; [exact H4|]. intros; apply Hval; assumption.
  - apply Hval, H4.
  - rewrite Hv. exact H4.
  - destruct H4 as [Hnd Hts]. split; [exact Hnd|].
    eapply Forall_impl; [exact Hts|]. intros t Ht. unfold listed. rewrite Hl. exact Ht.
Qed.

Lemma swallow_wf_frame s s' sw l :
  durations s' = durations s ->
  field (fun c => extra_lists c !! "swallowed_creatures") s' sw
  = field (fun c => extra_lists c !! "swallowed_creatures") s sw ->
  (forall j, field (fun c => slots c swallowed) s' j = field (fun c => slots c swallowed) s j) ->
  (forall j x dd, durations s !! x = Some dd -> kind dd = SwallowedDuration ->
                  listed s j start_turn_duration x -> listed s' j start_turn_duration x) ->
  (forall j x, listed s j end_turn_duration x -> listed s' j end_turn_duration x) ->
  swallow_wf s sw l -> swallow_wf s' sw l.
Proof.
  intros Hd Hx Hsl Hst He (Hnd & Hl & Hall). split; [exact Hnd|].
  split; [rewrite Hx; exact Hl|].
  intros t Ht. destruct (Hall t Ht) as (d & dd & H1 & H2 & H3 & H4 & H5 & H6 & H7).
  exists d, dd. rewrite Hsl, Hd. eauto 10.
Qed.

(** What ending one grapple does to the counters and to the other lists. *)
Lemma release_grapple_counters gr t dd lg' lt' ls' s g j k :
  durations s !! g = Some dd -> target dd = Some t ->
  field (fun c => counters c k) (release_grapple gr t dd lg' lt' ls' s) j
  = (fun x => x - grapple_release (durations s) j k g) <$> field (fun c => counters c k) s j.
Proof.
  intros Hd Ht. unfold grapple_release. rewrite Hd, Ht.
  unfold release_grapple, raised_by, field.
  destruct (decide (t = j)) as [->|Hne];
    [rewrite (bool_decide_eq_true_2 (Some j = Some j)) by reflexivity
    |rewrite (bool_decide_eq_false_2 (Some t = Some j)) by congruence];
    destruct (grapple_stunned dd), (grapple_restrained dd), (escape_priority dd);
    cbn [cond_update]; rewrite !update_creature_lookup;
    rewrite ?decide_True by reflexivity; rewrite ?decide_False by exact Hne;
    destruct (decide (gr = j)); destruct (creatures s !! j) as [cj|];
    cbn [fmap option_fmap option_map]; try reflexivity;
    f_equal; destruct k; cbn;
    repeat case_decide; repeat case_bool_decide; try congruence; cbn; lia.
Qed.

Lemma release_grapple_grappling_other gr t dd lg' lt' ls' s j :
  j <> gr ->
  field (fun c => lists c grappling) (release_grapple gr t dd lg' lt' ls' s) j
  = field (fun c => lists c grappling) s j.
Proof.
  intros Hne. unfold release_grapple.
  rewrite !cond_update_frame by (intros; reflexivity).
  rewrite field_update_frame by (intros; reflexivity).
  apply field_update_ne. congruence.
Qed.

Lemma release_grapple_start_field gr t dd lg' lt' ls' s j :
  is_Some (creatures s !! t) ->
  field (fun c => lists c start_turn_duration) (release_grapple gr t dd lg' lt' ls' s) j
  = if escape_priority dd && bool_decide (t = j) then Some ls'
    else field (fun c => lists c start_turn_duration) s j.
Proof.
  intros [c Hc]. unfold release_grapple.
  rewrite !cond_update_frame by (intros; reflexivity).
  destruct (escape_priority dd); cbn [cond_update andb].
  - rewrite field_update. destruct (decide (t = j)) as [<-|Hne].
    + rewrite bool_decide_eq_true_2 by reflexivity.
      rewrite !field_update_frame by (intros; reflexivity).
      unfold field. rewrite Hc. reflexivity.
    + rewrite bool_decide_eq_false_2 by exact Hne.
      rewrite !field_update_frame by (intros; reflexivity). reflexivity.
  - rewrite !field_update_frame by (intros; reflexivity). reflexivity.
Qed.

(** What the loop [for grapple in self.grappling[:]: grapple.end()] gives
    back and what it leaves in place. *)
Lemma ungrapple_loop_effects gr : forall rest s s',
  grapples_wf s gr rest -> for_each rest Duration_end s = Ok tt s' ->
  (forall j k, field (fun c => counters c k) s' j
               = (fun x => x - released_by_grapples (durations s) rest j k)
                   <$> field (fun c => counters c k) s j)
  /\ (forall j, j <> gr -> field (fun c => lists c grappling) s' j
                          = field (fun c => lists c grappling) s j)
  /\ (forall j x, listed s j grappled x -> x ∉ rest -> listed s' j grappled x)
  /\ (forall j l, field (fun c => lists c start_turn_duration) s j = Some l ->
        exists l', field (fun c => lists c start_turn_duration) s' j = Some l'
                   /\ (forall x, x ∈ l' -> x ∈ l)
                   /\ (NoDup l ->
                       NoDup l'
                       /\ forall g dd, g ∈ rest -> durations s !! g = Some dd ->
                            target dd = Some j -> escape_priority dd = true -> g ∉ l')).
Proof.
  induction rest as [|g0 rest IH]; intros s s' Hwf Hloop.
  - injection Hloop as <-. split; [|split; [|split]].
    + intros j k. unfold released_by_grapples. cbn.
      destruct (field _ s j); cbn; [f_equal; lia | reflexivity].
    + reflexivity.
    + intros j x H _. exact H.
    + intros j l Hl. exists l. split; [exact Hl|]. split; [auto|].
      intros Hn. split; [exact Hn|]. intros g dd Hg. inversion Hg.
  - destruct (grapple_step _ _ _ _ Hwf)
      as (dd0 & t0 & lt0 & lt0' & ls0 & ls0' & Hd0 & Ht0 & Hlt0 & Hrm0 & Hnd0 & Hls0
          & Hend & Hwf1).
    assert (Hvt : is_Some (creatures s !! t0)).
    { apply (field_is_Some (fun c => lists c grappled)). eauto. }
    cbn [for_each] in Hloop. rewrite (bind_Ok _ _ _ _ _ Hend) in Hloop.
    destruct (IH _ _ Hwf1 Hloop) as (Ia & Ib & Ic & Id).
    destruct (release_grapple_stores gr t0 dd0 rest lt0' ls0' s) as (Ed & _ & _).
    split; [|split; [|split]].
    + intros j k. rewrite Ia, Ed.
      rewrite (release_grapple_counters _ _ _ _ _ _ _ g0 j k Hd0 Ht0).
      assert (E : released_by_grapples (durations s) (g0 :: rest) j k
                  = grapple_release (durations s) j k g0
                    + released_by_grapples (durations s) rest j k) by reflexivity.
      rewrite E.
      generalize (grapple_release (durations s) j k g0),
        (released_by_grapples (durations s) rest j k).
      intros a b. destruct (field _ s j); cbn [fmap option_fmap option_map];
        [f_equal; lia | reflexivity].
    + intros j Hj. rewrite (Ib j Hj). apply release_grapple_grappling_other, Hj.
    + intros j x (l & Hl & Hx) Hn. apply not_elem_of_cons in Hn as [Hx0 Hn].
      apply Ic; [|exact Hn]. unfold listed.
      rewrite release_grapple_grappled by exact Hvt.
      destruct (decide (t0 = j)) as [<-|]; [|eauto].
      rewrite Hlt0 in Hl. injection Hl as <-.
      exists lt0'. split; [reflexivity|]. eapply remove_first_elem_of; eauto.
    + intros j l Hl.
      assert (H1 : exists l1,
                 field (fun c => lists c start_turn_duration)
                   (release_grapple gr t0 dd0 rest lt0' ls0' s) j = Some l1
                 /\ (forall x, x ∈ l1 -> x ∈ l)
                 /\ (NoDup l -> NoDup l1
                               /\ (escape_priority dd0 = true -> t0 = j -> g0 ∉ l1))).
      { rewrite release_grapple_start_field by exact Hvt.
        destruct (escape_priority dd0) eqn:Eep; cbn [andb].
        - destruct (Hls0 eq_refl) as [Hls Hrm].
          destruct (decide (t0 = j)) as [<-|Hne].
          + rewrite bool_decide_eq_true_2 by reflexivity.
            rewrite Hls in Hl. injection Hl as <-.
            exists ls0'. split; [reflexivity|]. split.
            * intros x Hx. eapply remove_first_subset; eauto.
            * intros Hn. destruct (remove_first_NoDup _ _ _ Hrm Hn) as [Hn' Hg0].
              split; [exact Hn' | intros _ _; exact Hg0].
          + rewrite bool_decide_eq_false_2 by exact Hne.
            exists l. split; [exact Hl|]. split; [auto|].
            intros Hn. split; [exact Hn | intros _ E; contradiction].
        - exists l. split; [exact Hl|]. split; [auto|].
          intros Hn. split; [exact Hn | discriminate]. }
      destruct H1 as (l1 & Hl1 & Hsub1 & Hnd1).
      destruct (Id j l1 Hl1) as (l' & Hl' & Hsub' & Hnd').
      exists l'. split; [exact Hl'|]. split; [auto|].
      intros Hn. destruct (Hnd1 Hn) as [Hn1 Hg0]. destruct (Hnd' Hn1) as [Hn' Hrest].
      split; [exact Hn'|]. intros g dd Hg Hdd Htd Hep.
      apply elem_of_cons in Hg as [->|Hg].
      * rewrite Hd0 in Hdd. injection Hdd as <-.
        rewrite Ht0 in Htd. injection Htd as ->.
        intros Hin. apply (Hg0 Hep eq_refl). apply Hsub', Hin.
      * apply (Hrest g dd Hg); [rewrite Ed; exact Hdd | exact Htd | exact Hep].
Qed.

Lemma Spell_end_frame_counter sp k j v :
  k <> baned -> k <> blessed -> k <> invisible ->
  preserves (fun s => field (fun c => counters c k) s j = v) (Spell_end sp).
Proof.
  intros H1 H2 H3. unfold Spell_end.
  pres ltac:(intros ? ? _ Hv; rewrite field_update_frame;
             [exact Hv | intros; cbn; rewrite ?decide_False by congruence; reflexivity]).
Qed.

(** [Creature.fall_unconscious] without Death Ward on a well-formed store. *)
Lemma Creature_fall_unconscious_Ok s self c :
  creatures s !! self = Some c ->
  death_ward c && (0 <? total_hp c) = false ->
  grapples_wf s self (lists c grappling) ->
  (forall sp, slots c concentration = Some sp -> spell_wf s self sp) ->
  exists s1,
    Creature_fall_unconscious self s = Ok tt s1
    /\ durations s1 = durations s
    /\ field prone s1 self = Some true
    /\ field (fun c => lists c grappling) s1 self = Some []
    /\ field (fun c => slots c concentration) s1 self = Some None
    /\ (forall g dd t, g ∈ lists c grappling -> durations s !! g = Some dd ->
          target dd = Some t ->
          exists l', field (fun c => lists c grappled) s1 t = Some l' /\ g ∉ l')
    /\ (forall A (f : Creature -> A),
          grapple_framed f -> spell_framed f -> (forall c v, f (set_prone v c) = f c) ->
          forall j, field f s1 j = field f s j)
    /\ (forall j x, listed s j start_turn_duration x -> x ∉ lists c grappling ->
          listed s1 j start_turn_duration x)
    /\ (forall j k, k = restrained \/ k = stunned ->
          field (fun c => counters c k) s1 j
          = (fun x => x - released_by_grapples (durations s) (lists c grappling) j k)
              <$> field (fun c => counters c k) s j)
    /\ (forall j, j <> self -> field (fun c => lists c grappling) s1 j
                              = field (fun c => lists c grappling) s j)
    /\ (forall j x, listed s j grappled x -> x ∉ lists c grappling ->
          listed s1 j grappled x)
    /\ (forall j l g dd,
          field (fun c => lists c start_turn_duration) s j = Some l -> NoDup l ->
          g ∈ lists c grappling -> durations s !! g = Some dd ->
          target dd = Some j -> escape_priority dd = true ->
          ~ listed s1 j start_turn_duration g).
Proof.
  intros Hc Hdw Hgw Hsw.
  unfold Creature_fall_unconscious.
  rewrite (bind_get_creature _ _ _ _ Hc), Hdw.
  rewrite (bind_modify_creature _ _ _ _ (ex_intro _ c Hc)).
  set (s0 := update_creature self (set_prone true) s).
  assert (Hc0 : creatures s0 !! self = Some (set_prone true c)).
  { unfold s0. rewrite update_creature_lookup_eq, Hc. reflexivity. }
  rewrite (bind_get_creature _ _ _ _ Hc0). cbn [lists set_prone].
  assert (Hgw0 : grapples_wf s0 self (lists c grappling)).
  { eapply grapples_wf_frame; [| |exact Hgw]; [reflexivity|].
    intros a j. unfold s0. apply field_update_frame. intros; reflexivity. }
  destruct (ungrapple_loop self _ _ Hgw0)
    as (s1 & Hloop & Hd1 & Hsp1 & Hr1 & Hg1 & Hframe1 & Hstart1 & _ & Htgt1).
  rewrite (bind_Ok _ _ _ _ _ Hloop).
  assert (Hf0 : forall A (f : Creature -> A), (forall c v, f (set_prone v c) = f c) ->
                forall j, field f s0 j = field f s j).
  { intros A f Hf j. unfold s0. apply field_update_frame. intros; apply Hf. }
  assert (Hprone1 : field prone s1 self = Some true).
  { rewrite Hframe1 by (split; intros; reflexivity).
    unfold field. rewrite Hc0. reflexivity. }
  assert (Hconc1 : field (fun c => slots c concentration) s1 self
                   = Some (slots c concentration)).
  { rewrite Hframe1 by (split; intros; reflexivity).
    unfold field. rewrite Hc0. reflexivity. }
  assert (Hv1 : exists c1, creatures s1 !! self = Some c1
                           /\ slots c1 concentration = slots c concentration).
  { unfold field in Hconc1. destruct (creatures s1 !! self) as [c1|]; [|discriminate].
    injection Hconc1 as E. eauto. }
  destruct Hv1 as (c1 & Hc1 & Hslot1).
  rewrite (bind_get_creature _ _ _ _ Hc1), Hslot1.
  assert (Htgt : forall g dd t, g ∈ lists c grappling -> durations s !! g = Some dd ->
                 target dd = Some t ->
                 exists l', field (fun c => lists c grappled) s1 t = Some l' /\ g ∉ l').
  { intros g dd t Hin Hdd Ht. eapply Htgt1; eauto. }
  assert (Hstart : forall j x, listed s j start_turn_duration x -> x ∉ lists c grappling ->
                   listed s1 j start_turn_duration x).
  { intros j x Hl Hx. apply Hstart1; [|exact Hx].
    unfold listed. rewrite Hf0 by (intros; reflexivity). exact Hl. }
  destruct (ungrapple_loop_effects self _ _ _ Hgw0 Hloop) as (Ea & Eb & Ec & Ed).
  assert (HE1 : forall j k,
            field (fun c => counters c k) s1 j
            = (fun x => x - released_by_grapples (durations s) (lists c grappling) j k)
                <$> field (fun c => counters c k) s j).
  { intros j k. rewrite Ea. rewrite (Hf0 _ (fun c => counters c k)) by reflexivity.
    reflexivity. }
  assert (HE2 : forall j, j <> self -> field (fun c => lists c grappling) s1 j
                                       = field (fun c => lists c grappling) s j).
  { intros j Hj. rewrite (Eb j Hj). apply Hf0. reflexivity. }
  assert (HE3 : forall j x, listed s j grappled x -> x ∉ lists c grappling ->
                  listed s1 j grappled x).
  { intros j x Hl Hx. apply Ec; [|exact Hx].
    unfold listed. rewrite Hf0 by reflexivity. exact Hl. }
  assert (HE4 : forall j l g dd,
            field (fun c => lists c start_turn_duration) s j = Some l -> NoDup l ->
            g ∈ lists c grappling -> durations s !! g = Some dd ->
            target dd = Some j -> escape_priority dd = true ->
            ~ listed s1 j start_turn_duration g).
  { intros j l g dd Hl Hn Hg Hdd Ht Hep (l2 & Hl2 & Hin).
    destruct (Ed j l) as (l' & Hl' & _ & Hnd);
      [rewrite Hf0 by reflexivity; exact Hl|].
    destruct (Hnd Hn) as [_ Hout]. rewrite Hl' in Hl2. injection Hl2 as <-.
    exact (Hout g dd Hg Hdd Ht Hep Hin). }
  destruct (slots c concentration) as [sp|] eqn:Hslot.
  - assert (Hspw : spell_wf s1 self sp).
    { eapply spell_wf_frame; [| | |exact (Hsw sp eq_refl)].
      - exact Hsp1.
      - intros j. rewrite Hframe1 by (split; intros; reflexivity).
        apply Hf0. intros; reflexivity.
      - intros j. rewrite Hframe1.
        + apply Hf0. intros; reflexivity.
        + split; [|intros; reflexivity].
          intros c' a v Ha _. cbn [lists set_list].
          rewrite decide_False by congruence. reflexivity. }
    destruct (Spell_end_Ok _ _ _ Hspw) as (s2 & Hend & Hconc2).
    exists s2. split; [exact Hend|].
    assert (Hfr2 : forall A (f : Creature -> A) j, spell_framed f ->
                   field f s2 j = field f s1 j).
    { intros A f j Hf.
      exact (preserves_Ok _ _ _ _ _ (Spell_end_frame f sp j (field f s1 j) Hf)
               eq_refl Hend). }
    pose proof (preserves_Ok _ _ _ _ _
                  (Spell_end_stores sp (durations s1, spells s1, rng s1)) eq_refl Hend)
      as Hst2.
    injection Hst2 as Hd2 _ _.
    split; [rewrite Hd2; exact Hd1|].
    split; [rewrite Hfr2 by (repeat split; intros; reflexivity); exact Hprone1|].
    split; [rewrite Hfr2 by (repeat split; intros; reflexivity); exact Hg1|].
    split; [exact Hconc2|]. split; [|split; [|split; [|split; [|split; [|split]]]]].
    + intros g dd t Hin Hdd Ht. destruct (Htgt g dd t Hin Hdd Ht) as (l' & Hl' & Hn).
      exists l'. split; [|exact Hn].
      rewrite Hfr2 by (repeat split; intros; reflexivity). exact Hl'.
    + intros A f Hgf Hsf Hpf j.
      rewrite (Hfr2 A f j Hsf), (Hframe1 A f Hgf j). apply Hf0, Hpf.
    + intros j x Hl Hx. unfold listed.
      rewrite Hfr2 by (repeat split; intros; reflexivity). apply Hstart; assumption.
    + intros j k Hk. rewrite <- HE1.
      refine (preserves_Ok _ _ _ _ _ (Spell_end_frame_counter sp k j _ _ _ _) eq_refl Hend);
        destruct Hk as [-> | ->]; discriminate.
    + intros j Hj. rewrite Hfr2 by (repeat split; intros; reflexivity). apply HE2, Hj.
    + intros j x Hl Hx. unfold listed.
      rewrite Hfr2 by (repeat split; intros; reflexivity). apply HE3; assumption.
    + intros j l g dd Hl Hn Hg Hdd Ht Hep Hin. apply (HE4 j l g dd); try assumption.
      unfold listed in *. rewrite Hfr2 in Hin by (repeat split; intros; reflexivity).
      exact Hin.
  - exists s1. split; [reflexivity|]. split; [exact Hd1|].
    split; [exact Hprone1|]. split; [exact Hg1|]. split; [exact Hconc1|].
    split; [exact Htgt|]. split; [|split; [exact Hstart|]].
    + intros A f Hgf Hsf Hpf j. rewrite (Hframe1 A f Hgf j). apply Hf0, Hpf.
    + split; [intros j k _; apply HE1|]. split; [exact HE2|]. split; [exact HE3 | exact HE4].
Qed.

Lemma release_one_framed {A} (g : Creature -> A) sw t l' ls' le' s j :
  swallow_framed g -> field g (release_one sw t l' ls' le' s) j = field g s j.
Proof.
  intros (H1 & H2 & H3 & H4 & H5 & H6). unfold release_one.
  rewrite !field_update_frame
    by (intros; first [apply H1 | apply H2 | apply H3 | apply H4 | apply H5 | apply H6]).
  reflexivity.
Qed.

Lemma expel_loop_framed {A} (g : Creature -> A) sw : forall rest s s',
  swallow_wf s sw rest -> for_each rest end_swallowed s = Ok tt s' ->
  swallow_framed g -> forall j, field g s' j = field g s j.
Proof.
  induction rest as [|t rest IH]; intros s s' Hwf Hloop Hg j.
  - injection Hloop as <-. reflexivity.
  - destruct (end_swallowed_Ok _ _ _ _ Hwf) as (ls' & le' & Hend & Hwf1).
    cbn [for_each] in Hloop. rewrite (bind_Ok _ _ _ _ _ Hend) in Hloop.
    rewrite (IH _ _ Hwf1 Hloop Hg j). apply release_one_framed, Hg.
Qed.

(** [fall_unconscious] without an active Death Ward, for both classes:
    [s1] is the store after the method of the base class, [s'] the store
    after the call. *)
Lemma fall_unconscious_Ok s self c :
  creatures s !! self = Some c ->
  death_ward c && (0 <? total_hp c) = false ->
  grapples_wf s self (lists c grappling) ->
  (forall sp, slots c concentration = Some sp -> spell_wf s self sp) ->
  (klass c = Behir -> exists l, swallow_wf s self l) ->
  exists s1 s',
    Creature_fall_unconscious self s = Ok tt s1
    /\ fall_unconscious self s = Ok tt s'
    /\ field prone s' self = Some true
    /\ field (fun c => lists c grappling) s' self = Some []
    /\ field (fun c => slots c concentration) s' self = Some None
    /\ (forall g dd t, g ∈ lists c grappling -> durations s !! g = Some dd ->
          target dd = Some t ->
          exists l', field (fun c => lists c grappled) s' t = Some l' /\ g ∉ l')
    /\ (klass c = Generic -> s' = s1)
    /\ (klass c = Behir ->
        forall l, swallow_wf s self l ->
        expelled s1 s' self l
        /\ (forall A (g : Creature -> A), swallow_framed g ->
              forall j, field g s' j = field g s1 j)
        /\ (forall A (g : Creature -> A),
              (forall c nm l, g (set_extra_list nm l c) = g c) ->
              forall j, j ∉ l -> field g s' j = field g s1 j)).
Proof.
  intros Hc Hdw Hgw Hsw Hbw.
  destruct (Creature_fall_unconscious_Ok s self c Hc Hdw Hgw Hsw)
    as (s1 & Hbase & Hd1 & Hprone1 & Hg1 & Hconc1 & Htgt1 & Hframe1 & Hstart1 & _).
  exists s1. unfold fall_unconscious. rewrite (bind_get_creature _ _ _ _ Hc).
  destruct (klass c) eqn:Hk.
  - exists s1. do 6 (split; [assumption|]). split; [reflexivity | discriminate].
  - destruct (Hbw eq_refl) as (l & Hwf).
    assert (Hwf1 : swallow_wf s1 self l).
    { eapply swallow_wf_frame; [exact Hd1| | | | |exact Hwf].
      - apply Hframe1; repeat split; intros; reflexivity.
      - intros j. apply Hframe1; repeat split; intros; reflexivity.
      - intros j x dd Hx Hkx Hl. apply Hstart1; [exact Hl|].
        intros Hin. destruct Hgw as (_ & _ & Hall).
        destruct (Hall x Hin) as (dd' & _ & _ & Hx' & Hk' & _).
        rewrite Hx in Hx'. injection Hx' as <-. rewrite Hkx in Hk'. discriminate.
      - intros j x. unfold listed. rewrite Hframe1; [auto| | |].
        + split; [|intros; reflexivity]. intros c' a v _ Ha.
          cbn [lists set_list]. rewrite decide_False by congruence. reflexivity.
        + repeat split; intros; reflexivity.
        + intros; reflexivity. }
    destruct (expel_loop self l s1 Hwf1)
      as (s' & Hloop & _ & _ & _ & Hx & Hframe & Hrel).
    assert (Hfr : forall A (g : Creature -> A), swallow_framed g ->
                  forall j, field g s' j = field g s1 j).
    { intros A g Hg j. eapply expel_loop_framed; eauto. }
    exists s'. split; [exact Hbase|]. split.
    { unfold Behir_fall_unconscious. rewrite (bind_Ok _ _ _ _ _ Hbase).
      change (expel_all self s1 = Ok tt s').
      rewrite (expel_all_Ok _ _ _ Hwf1). exact Hloop. }
    split.
    { destruct (decide (self ∈ l)) as [Hin|Hnin].
      - destruct (Hrel self Hin) as [Hp _]. unfold field in *.
        destruct (creatures s' !! self); [|discriminate].
        injection Hp as _ Hp. cbn. rewrite Hp. reflexivity.
      - rewrite (Hframe _ prone) by (auto; intros; reflexivity). exact Hprone1. }
    split; [rewrite Hfr by (repeat split; intros; reflexivity); exact Hg1|].
    split; [rewrite Hfr by (repeat split; intros; reflexivity); exact Hconc1|].
    split.
    { intros g dd t Hin Hdd Ht. destruct (Htgt1 g dd t Hin Hdd Ht) as (l' & Hl' & Hn).
      exists l'. split; [|exact Hn].
      rewrite Hfr by (repeat split; intros; reflexivity). exact Hl'. }
    split; [discriminate|].
    intros _ l0 Hwf0.
    assert (l0 = l).
    { destruct Hwf as (_ & E1 & _). destruct Hwf0 as (_ & E2 & _). congruence. }
    subst l0. split; [split; [exact Hx | exact Hrel]|]. split; [exact Hfr | exact Hframe].
Qed.


(** C2 (amended).  [fall_unconscious] without an active Death Ward, on a
    creature whose grapples, concentration spell and swallowed creatures are
    linked as their constructors link them.  [s1] is the store after
    [Creature.fall_unconscious], [s'] the store after the call (the same
    store unless the creature is a behir).  The creature is prone, its
    concentration is ended, and every grapple in which it is the grappler is
    ended: its [grappling] list is empty, the grapple is off the [grappled]
    list of its target, the restrained and stunned counters of every
    creature are lowered by exactly what these grapples had added, and a
    grapple that its target was to escape is off the start-of-turn list of
    that target.  Everything else about grapples is left in place: the
    [grappling] lists of the other creatures, and every [grappled] and
    start-of-turn entry that is not one of these grapples, so in particular
    the grapples in which the creature is the target.  For a behir every
    swallowed creature is then expelled with its blinded and restrained
    counters one lower, and the expulsion assigns nothing but the attributes
    of a swallow. *)
Theorem fall_unconscious_releases s self c :
  creatures s !! self = Some c ->
  death_ward c && (0 <? total_hp c) = false ->
  grapples_wf s self (lists c grappling) ->
  (forall sp, slots c concentration = Some sp -> spell_wf s self sp) ->
  (klass c = Behir -> exists l, swallow_wf s self l) ->
  exists s1 s',
    Creature_fall_unconscious self s = Ok tt s1
    /\ fall_unconscious self s = Ok tt s'
    /\ field prone s' self = Some true
    /\ field (fun c => lists c grappling) s' self = Some []
    /\ field (fun c => slots c concentration) s' self = Some None
    /\ (forall g dd t, g ∈ lists c grappling -> durations s !! g = Some dd ->
          target dd = Some t ->
          exists l', field (fun c => lists c grappled) s' t = Some l' /\ g ∉ l')
    /\ (forall j k, k = restrained \/ k = stunned ->
          field (fun c => counters c k) s1 j
          = (fun x => x - released_by_grapples (durations s) (lists c grappling) j k)
              <$> field (fun c => counters c k) s j)
    /\ (forall j l g dd,
          field (fun c => lists c start_turn_duration) s j = Some l -> NoDup l ->
          g ∈ lists c grappling -> durations s !! g = Some dd ->
          target dd = Some j -> escape_priority dd = true ->
          ~ listed s1 j start_turn_duration g)
    /\ (forall j, j <> self -> field (fun c => lists c grappling) s' j
                              = field (fun c => lists c grappling) s j)
    /\ (forall j x, listed s j grappled x -> x ∉ lists c grappling ->
          listed s' j grappled x)
    /\ (forall j x, listed s j start_turn_duration x -> x ∉ lists c grappling ->
          listed s1 j start_turn_duration x)
    /\ (klass c = Generic -> s' = s1)
    /\ (klass c = Behir ->
        forall l, swallow_wf s self l ->
        expelled s1 s' self l
        /\ (forall A (g : Creature -> A), swallow_framed g ->
              forall j, field g s' j = field g s1 j)
        /\ (forall A (g : Creature -> A),
              (forall c nm l, g (set_extra_list nm l c) = g c) ->
              forall j, j ∉ l -> field g s' j = field g s1 j)).
Proof.
  intros Hc Hdw Hgw Hsw Hbw.
  destruct (Creature_fall_unconscious_Ok s self c Hc Hdw Hgw Hsw)
    as (s1 & Hbase & _ & _ & _ & _ & _ & _ & Hstart1 & HE1 & HE2 & HE3 & HE4).
  destruct (fall_unconscious_Ok s self c Hc Hdw Hgw Hsw Hbw)
    as (s1' & s' & Hbase' & Hrun & Hp & Hg & Hcn & Htgt & Hgen & Hbehir).
  rewrite Hbase in Hbase'. injection Hbase' as <-.
  assert (Hfr : forall A (g : Creature -> A), swallow_framed g ->
                forall j, field g s' j = field g s1 j).
  { intros A g Hg' j. destruct (klass c) eqn:Hk.
    - rewrite (Hgen eq_refl). reflexivity.
    - destruct (Hbw eq_refl) as (l & Hl).
      destruct (Hbehir eq_refl l Hl) as (_ & F & _). apply F, Hg'. }
  exists s1, s'. do 6 (split; [assumption|]).
  split; [exact HE1|]. split; [exact HE4|]. split; [|split].
  - intros j Hj. rewrite Hfr by (repeat split; intros; reflexivity). apply HE2, Hj.
  - intros j x Hl Hx. unfold listed.
    rewrite Hfr by (repeat split; intros; reflexivity). apply HE3; assumption.
  - split; [exact Hstart1|]. split; assumption.
Qed.

Lemma restraining_arena_wf : grapples_wf restraining_arena 0 [0%nat].
Proof.
  split; [apply NoDup_singleton|]. split; [reflexivity|].
  intros g Hg. apply list_elem_of_singleton in Hg. subst g.
  eexists _, 1%nat, [0%nat].
  split; [reflexivity|]. split; [reflexivity|]. split; [reflexivity|].
  split; [reflexivity|]. split; [reflexivity|].
  split; [apply list_elem_of_singleton; reflexivity|].
  split; [apply NoDup_singleton|].
  intros _. exists [0%nat]. split; [reflexivity|].
  apply list_elem_of_singleton. reflexivity.
Qed.

(** In [restraining_arena] creature 0 holds creature 1 in a restraining
    grapple and is itself held by creature 2: when it falls unconscious
    creature 1 is no longer restrained and no longer has the grapple on its
    start-of-turn list, while the grapple of creature 2 stays in place. *)
Lemma fall_unconscious_releases_witness :
  exists s',
    fall_unconscious 0 restraining_arena = Ok tt s'
    /\ field prone s' 0 = Some true
    /\ field (fun c => lists c grappling) s' 0 = Some []
    /\ field (fun c => counters c restrained) s' 1 = Some 0
    /\ ~ listed s' 1 start_turn_duration 0%nat
    /\ listed s' 0 grappled 1%nat
    /\ field (fun c => lists c grappling) s' 2 = Some [1%nat].
Proof.
  destruct (fall_unconscious_releases restraining_arena 0
              (set_list grappled [1%nat] (set_list grappling [0%nat] (plain_creature 10)))
              eq_refl eq_refl restraining_arena_wf)
    as (s1 & s' & _ & Hrun & Hp & Hg & _ & _ & Hk & Hst & Hgo & Hgd & _ & Hgen & _).
  - intros sp H. discriminate H.
  - intros H. discriminate H.
  - exists s'. split; [exact Hrun|]. split; [exact Hp|]. split; [exact Hg|].
    specialize (Hgen eq_refl). subst s1.
    split; [exact (Hk 1%nat restrained (or_introl eq_refl))|].
    split.
    { apply (Hst 1%nat [0%nat] 0%nat
               (mkDuration GrappleDuration None (Some 0%nat) (Some 1%nat) 0 true true false
                  0 0 (ADie d4) acid));
        [reflexivity | apply NoDup_singleton | apply list_elem_of_singleton; reflexivity
        | reflexivity | reflexivity | reflexivity]. }
    split.
    { apply Hgd.
      - exists [1%nat]. split; [reflexivity | apply list_elem_of_singleton; reflexivity].
      - intros H. apply list_elem_of_singleton in H. discriminate H. }
    apply (Hgo 2%nat). discriminate.
Defined.

(** Counterexample to C2 as stated: in [grappled_arena] creature 1 is the
    target of a grapple; when it falls unconscious it is set prone but the
    grapple stays on its [grappled] list and on the grappler's [grappling]
    list. *)
Lemma grappled_target_stays_grappled :
  match fall_unconscious 1 grappled_arena with
  | Ok _ s' =>
      field prone s' 1 = Some true
      /\ field (fun c => lists c grappled) s' 1 = Some [0%nat]
      /\ field (fun c => lists c grappling) s' 0 = Some [0%nat]
  | Raise _ _ => False
  end.
Proof. vm_compute. repeat split; reflexivity. Qed.

(** A behir that falls unconscious expels what it has swallowed. *)
Example behir_falls_unconscious :
  match fall_unconscious 0 swallowed_arena with
  | Ok _ s' =>
      field (fun c => (prone c, extra_lists c !! "swallowed_creatures")) s' 0
      = Some (true, Some [])
      /\ field (fun c => (slots c swallowed, counters c blinded, counters c restrained)) s' 1
         = Some (None, 0, 0)
  | Raise _ _ => False
  end.
Proof. vm_compute. split; reflexivity. Qed.

(** ** Concentration checks *)








(** With a Death Ward the check decides: after the same 5 fire damage the
    creature has 1 hit point and no ward, one die has been rolled, and it
    still concentrates on its spell when the die showed 20 but not when it
    showed 1. *)
Example death_ward_check_decides :
  match Creature_take_damage 0 5 fire None false 0 None warded_arena with
  | Ok taken s' =>
      taken = (5, 0)
      /\ field (fun c => (hp c, death_ward c, slots c concentration)) s' 0
         = Some (1, false, Some 0%nat)
      /\ cursor (rng s') = 1%nat
  | Raise _ _ => False
  end
  /\ match Creature_take_damage 0 5 fire None false 0 None
             (set_rng (fixed_rng 1) warded_arena) with
     | Ok taken s' =>
         taken = (5, 0)
         /\ field (fun c => (hp c, death_ward c, slots c concentration)) s' 0
            = Some (1, false, None)
         /\ cursor (rng s') = 1%nat
     | Raise _ _ => False
     end.
Proof. vm_compute. repeat split; reflexivity. Qed.


(** * Further properties *)

(** ** Dice *)

Lemma integers_range low high g :
  low <= high -> low <= (integers low high g).1 <= high.
Proof.
  intros H. unfold integers; cbn [fst].
  pose proof (Z.mod_pos_bound (tape g (cursor g)) (high - low + 1)). lia.
Qed.

Lemma integers_advance low high g : (integers low high g).2 = advance g 1.
Proof. unfold integers, advance; cbn [snd]. f_equal. lia. Qed.

Lemma advance_advance g n m : advance (advance g n) m = advance g (n + m).
Proof. unfold advance; cbn [tape cursor]. f_equal. lia. Qed.

Lemma integers_size_spec low high n : forall g,
  low <= high ->
  Forall (fun x => low <= x <= high) (integers_size low high n g).1
  /\ length (integers_size low high n g).1 = n
  /\ (integers_size low high n g).2 = advance g n.
Proof.
  induction n as [|n IH]; intros g H; cbn [integers_size].
  - repeat split; [constructor|]. unfold advance. destruct g; cbn. f_equal. lia.
  - pose proof (integers_range low high g H) as Hr.
    pose proof (integers_advance low high g) as Ha.
    destruct (integers low high g) as [x g1]; cbn [fst snd] in *. subst g1.
    destruct (IH (advance g 1) H) as (H1 & H2 & H3).
    destruct (integers_size low high n (advance g 1)) as [xs g2]; cbn [fst snd] in *.
    split; [constructor; assumption|]. split; [cbn; lia|].
    rewrite H3, advance_advance. reflexivity.
Qed.

Lemma sum_list_range low high l :
  Forall (fun x => low <= x <= high) l ->
  Z.of_nat (length l) * low <= sum_list l <= Z.of_nat (length l) * high.
Proof.
  induction 1 as [|x t Hx Ht IH]; cbn [sum_list foldr length].
  - lia.
  - fold (sum_list t). lia.
Qed.

(** The range of a call of a die and the draws it makes. *)
Lemma Die_call_bounds (d : Die) (N_dice : nat) (g : Rng) :
  1 <= sides d ->
  Z.of_nat N_dice <= (Die_call d N_dice g).1 <= Z.of_nat N_dice * sides d
  /\ (Die_call d N_dice g).2 = advance g N_dice.
Proof.
  intros H. unfold Die_call. destruct (decide (N_dice = 1%nat)) as [->|_].
  - unfold Die_roll1. pose proof (integers_range 1 (sides d) g H).
    rewrite integers_advance. split; [lia | reflexivity].
  - unfold Die_sum, Die_roll.
    destruct (integers_size_spec 1 (sides d) N_dice g H) as (H1 & H2 & H3).
    destruct (integers_size 1 (sides d) N_dice g) as [xs g']; cbn [fst snd] in *.
    pose proof (sum_list_range 1 (sides d) xs H1). rewrite H2 in *.
    split; [lia | exact H3].
Qed.

(** X1.  Calling a die of at least one side for [N_dice] dice gives a total
    between [N_dice] and [N_dice * sides], and draws exactly [N_dice] numbers
    from the generator (none for [N_dice = 0], whose total is 0). *)
Theorem Die_call_range (d : Die) (N_dice : nat) (g : Rng) :
  1 <= sides d ->
  Z.of_nat N_dice <= (Die_call d N_dice g).1 <= Z.of_nat N_dice * sides d
  /\ (Die_call d N_dice g).2 = advance g N_dice.
Proof. apply Die_call_bounds. Qed.

Lemma Die_call_range_witness :
  3 <= (Die_call d4 3 (fixed_rng 2)).1 <= 3 * 4
  /\ (Die_call d4 3 (fixed_rng 2)).2 = advance (fixed_rng 2) 3.
Proof. apply (Die_call_range d4 3 (fixed_rng 2)). cbn. lia. Defined.

(** The range of a d20 roll and the draws it makes. *)
Lemma roll_d20_bounds (advantage disadvantage : bool) (g : Rng) :
  1 <= (roll_d20 advantage disadvantage g).1 <= 20
  /\ (roll_d20 advantage disadvantage g).2
     = advance g (if xorb advantage disadvantage then 2 else 1).
Proof.
  pose proof (d20_face_range g 0). pose proof (d20_face_range g 1).
  unfold roll_d20.
  destruct advantage, disadvantage; cbn [andb negb xorb];
    rewrite ?Die_roll_d20_twice; unfold Die_call;
    rewrite ?decide_True by reflexivity;
    unfold Die_roll1; cbn [sides d20]; rewrite ?integers_d20;
    cbn [fst snd amax amin foldl]; split; try reflexivity; lia.
Qed.

(** X2.  Whatever the flags, [roll_d20] returns a face between 1 and 20; it
    draws two numbers when exactly one of advantage and disadvantage is set
    and one number otherwise. *)
Theorem roll_d20_range (advantage disadvantage : bool) (g : Rng) :
  1 <= (roll_d20 advantage disadvantage g).1 <= 20
  /\ (roll_d20 advantage disadvantage g).2
     = advance g (if xorb advantage disadvantage then 2 else 1).
Proof. apply roll_d20_bounds. Qed.

(** X3.  [Die.reroll] rerolls at most once: it returns a face of the die
    after one draw when the first face is above the threshold, and otherwise
    the second face, whatever it is, after two draws.  So 2d6 with ones and
    twos rerolled is between 2 and 12 and takes two to four draws. *)
Theorem Die_reroll_once (d : Die) (reroll_threshold : Z) (g : Rng) :
  1 <= sides d ->
  let first := (Die_roll1 d g).1 in
  let second := (Die_roll1 d (advance g 1)).1 in
  Die_reroll d reroll_threshold g
  = (if first <=? reroll_threshold then (second, advance g 2) else (first, advance g 1))
  /\ 1 <= (Die_reroll d reroll_threshold g).1 <= sides d
  /\ (let r := twod6_reroll_1_2 g in
      2 <= r.1 <= 12 /\ exists k, (2 <= k <= 4)%nat /\ r.2 = advance g k).
Proof.
  intros H first second.
  assert (E : forall t g0,
             Die_reroll d t g0
             = (if (Die_roll1 d g0).1 <=? t
                then ((Die_roll1 d (advance g0 1)).1, advance g0 2)
                else ((Die_roll1 d g0).1, advance g0 1))).
  { intros t g0. unfold Die_reroll, Die_roll1.
    pose proof (integers_advance 1 (sides d) g0) as Ha.
    destruct (integers 1 (sides d) g0) as [x g1]; cbn [fst snd] in *. subst g1.
    destruct (x <=? t); [|reflexivity].
    pose proof (integers_advance 1 (sides d) (advance g0 1)) as Hb.
    destruct (integers 1 (sides d) (advance g0 1)) as [y g2]; cbn [fst snd] in *.
    subst g2. rewrite advance_advance. reflexivity. }
  split; [apply E|]. split.
  - rewrite E. unfold Die_roll1.
    pose proof (integers_range 1 (sides d) g H).
    pose proof (integers_range 1 (sides d) (advance g 1) H).
    destruct (_ <=? _); cbn [fst]; lia.
  - assert (E6 : forall g0,
               1 <= (Die_reroll d6 2 g0).1 <= 6
               /\ exists k, (1 <= k <= 2)%nat /\ (Die_reroll d6 2 g0).2 = advance g0 k).
    { intros g0. unfold Die_reroll, Die_roll1; cbn [sides d6].
      pose proof (integers_range 1 6 g0 ltac:(lia)) as H1.
      pose proof (integers_advance 1 6 g0) as Ha.
      destruct (integers 1 6 g0) as [x g1]; cbn [fst snd] in *. subst g1.
      destruct (x <=? 2).
      - pose proof (integers_range 1 6 (advance g0 1) ltac:(lia)) as H2.
        split; [exact H2|]. exists 2%nat. split; [lia|].
        rewrite integers_advance, advance_advance. reflexivity.
      - cbn [fst snd]. split; [exact H1|]. exists 1%nat. split; [lia | reflexivity]. }
    cbn zeta. unfold twod6_reroll_1_2.
    destruct (E6 g) as (Ha & ka & Hka & Ea).
    destruct (Die_reroll d6 2 g) as [a g1]; cbn [fst snd] in *. subst g1.
    destruct (E6 (advance g ka)) as (Hb & kb & Hkb & Eb).
    destruct (Die_reroll d6 2 (advance g ka)) as [b g2]; cbn [fst snd] in *. subst g2.
    split; [lia|]. exists (ka + kb)%nat. split; [lia|]. apply advance_advance.
Qed.

Lemma Die_reroll_once_witness :
  Die_reroll d6 2 (fixed_rng 1) = (1, advance (fixed_rng 1) 2)
  /\ 1 <= (Die_reroll d6 2 (fixed_rng 1)).1 <= 6.
Proof.
  destruct (Die_reroll_once d6 2 (fixed_rng 1)) as (H1 & H2 & _); [cbn; lia|].
  split; [exact H1 | exact H2].
Defined.

(** ** Saving throws, continued *)

(** X4.  A paralyzed or stunned creature fails every Strength and Dexterity
    saving throw, whatever the difficulty class and the flags, and no die is
    rolled: the store, generator included, is left as it was. *)
Theorem saving_throw_incapacitated s i c ability dc adv disadv save_type :
  creatures s !! i = Some c ->
  is_incapacitated c = true ->
  ability = Str \/ ability = Dex ->
  saving_throw i ability dc adv disadv save_type s = Ok false s.
Proof.
  intros Hc Hi Ha. unfold saving_throw.
  rewrite (bind_get_creature _ _ _ _ Hc), Hi.
  destruct Ha as [-> | ->]; reflexivity.
Qed.

Lemma saving_throw_incapacitated_witness :
  saving_throw 0 Dex (-5) true false None (arena [afflicted_creature stunned 1 10] 20)
  = Ok false (arena [afflicted_creature stunned 1 10] 20).
Proof.
  apply (saving_throw_incapacitated _ 0 (afflicted_creature stunned 1 10));
    [reflexivity | reflexivity | right; reflexivity].
Defined.

(** X5.  The dice of a saving throw do not depend on the difficulty class:
    a throw that succeeds against a class succeeds against every lower one,
    a throw that fails fails against every higher one, and in both cases the
    store after the throw is the same. *)
Theorem saving_throw_monotone s i ability dc dc' adv disadv save_type s' :
  dc' <= dc ->
  (saving_throw i ability dc adv disadv save_type s = Ok true s' ->
   saving_throw i ability dc' adv disadv save_type s = Ok true s')
  /\ (saving_throw i ability dc' adv disadv save_type s = Ok false s' ->
      saving_throw i ability dc adv disadv save_type s = Ok false s').
Proof.
  intros Hle. unfold saving_throw.
  destruct (creatures s !! i) as [c|] eqn:Hc.
  2:{ unfold bind, get_creature. rewrite Hc. split; discriminate. }
  rewrite !(bind_get_creature _ _ _ _ Hc).
  destruct (is_incapacitated c && _); [split; intros H; exact H|].
  unfold bind, ret.
  destruct (roll_save i ability _ _ s) as [r s1|e s1]; [|split; discriminate].
  split; intros H; injection H as H ->; f_equal.
  - apply Z.leb_le. apply Z.leb_le in H. lia.
  - apply Z.leb_gt. apply Z.leb_gt in H. lia.
Qed.

Lemma saving_throw_monotone_witness :
  saving_throw 0 Con 3 false false None (arena [plain_creature 10] 15)
  = Ok true (set_rng (advance (fixed_rng 15) 1) (arena [plain_creature 10] 15)).
Proof.
  apply (proj1 (saving_throw_monotone (arena [plain_creature 10] 15) 0 Con 10 3
                  false false None _ ltac:(lia))).
  reflexivity.
Defined.

(** X6.  The total of [roll_save] is the d20 plus the creature's save bonus,
    minus a d4 when the creature is baned and plus a d4 when it is blessed:
    it lies between 1 and 20 plus the bonus, moved by 1 to 4 either way, and
    the throw never raises. *)
Theorem roll_save_range s i c ability adv disadv :
  creatures s !! i = Some c ->
  exists r g,
    roll_save i ability adv disadv s = Ok r (set_rng g s)
    /\ let b := save_bonus (traits c) ability in
       let is_baned := bool_decide (counters c baned ≠ 0) in
       let is_blessed := bool_decide (counters c blessed ≠ 0) in
       1 + b - (if is_baned then 4 else 0) + (if is_blessed then 1 else 0) <= r
       /\ r <= 20 + b - (if is_baned then 1 else 0) + (if is_blessed then 4 else 0).
Proof.
  intros Hc. unfold roll_save, save_bonus.
  rewrite (bind_get_creature _ _ _ _ Hc).
  rewrite (bind_Ok _ _ _ _ _ (with_rng_Ok _ _)).
  destruct (roll_d20_bounds adv disadv (rng s)) as [Hr _].
  set (r0 := (roll_d20 adv disadv (rng s)).1) in *.
  set (g0 := (roll_d20 adv disadv (rng s)).2). clearbody r0 g0.
  assert (H4 : forall g, 1 <= (Die_call d4 1 g).1 <= 4).
  { intros g. destruct (Die_call_bounds d4 1 g) as [H _]; [cbn; lia|]. cbn in H. lia. }
  destruct (bool_decide (counters c baned ≠ 0)), (bool_decide (counters c blessed ≠ 0));
    unfold bind, ret; rewrite ?with_rng_Ok; cbn [rng set_rng];
    eexists _, _; (split; [unfold set_rng; cbn; reflexivity|]); cbn zeta;
    repeat match goal with
    | |- context [(Die_call d4 1 ?g).1] =>
        let H := fresh in pose proof (H4 g) as H;
        generalize dependent ((Die_call d4 1 g).1); intros
    end;
    destruct (save_proficiencies (traits c) ability); lia.
Qed.

Lemma roll_save_range_witness :
  exists r g,
    roll_save 0 Wis false false (arena [afflicted_creature baned 1 10] 7)
    = Ok r (set_rng g (arena [afflicted_creature baned 1 10] 7))
    /\ 1 + 0 - 4 + 0 <= r /\ r <= 20 + 0 - 1 + 0.
Proof.
  destruct (roll_save_range (arena [afflicted_creature baned 1 10] 7) 0
              (afflicted_creature baned 1 10) Wis false false eq_refl)
    as (r & g & H1 & H2).
  exists r, g. split; [exact H1 | exact H2].
Defined.

(** ** Hit points, continued *)

(** X7.  Death Ward absorbs one blow.  When damage would drop a creature of
    the base class with an active Death Ward to 0 hit points, [take_damage]
    leaves it at 1 hit point with the ward used up; it is not knocked prone,
    no die is rolled and nothing else in the store changes. *)
Theorem death_ward_absorbs_blow s self c p pt dealer ranged :
  creatures s !! self = Some c -> klass c = Generic ->
  death_ward c = true -> 0 < total_hp c ->
  0 < hp c -> hp c <= mitigated (traits c) pt p ->
  slots c concentration = None -> slots c turned = None ->
  take_damage self p pt dealer ranged 0 None s
  = Ok (mitigated (traits c) pt p, 0)
       (update_creature self (fun c => set_hp 1 (set_death_ward false c)) s).
Proof.
  intros Hc Hk Hw Ht Hhp Hm Hconc Hturn.
  unfold take_damage. rewrite (bind_get_creature _ _ _ _ Hc), Hk.
  unfold Creature_take_damage.
  set (s1 := update_creature self (set_hp 0) s).
  assert (H1 : take_damage_type self p pt s = Ok (mitigated (traits c) pt p) s1).
  { rewrite (take_damage_type_unfold _ _ _ _ _ Hc).
    rewrite (proj2 (Z.eqb_neq _ 0)) by lia.
    rewrite Z.max_l by lia. reflexivity. }
  rewrite (bind_Ok _ _ _ _ _ H1). rewrite bind_ret.
  assert (Hc1 : creatures s1 !! self = Some (set_hp 0 c)).
  { unfold s1. rewrite update_creature_lookup_eq, Hc. reflexivity. }
  rewrite (bind_get_creature _ _ _ _ Hc1). cbn [hp set_hp Z.eqb when].
  unfold fall_unconscious at 1.
  rewrite bind_assoc, (bind_get_creature _ _ _ _ Hc1). cbn [klass set_hp]. rewrite Hk.
  unfold Creature_fall_unconscious.
  rewrite bind_assoc, (bind_get_creature _ _ _ _ Hc1).
  cbn [death_ward total_hp set_hp]. rewrite Hw, (proj2 (Z.ltb_lt 0 _) Ht). cbn [andb].
  rewrite bind_assoc.
  rewrite bind_modify_creature by (rewrite Hc1; eauto).
  set (s2 := update_creature self (set_death_ward false) s1).
  assert (Hc2 : creatures s2 !! self = Some (set_death_ward false (set_hp 0 c))).
  { unfold s2. rewrite update_creature_lookup_eq, Hc1. reflexivity. }
  rewrite bind_modify_creature by (rewrite Hc2; eauto).
  set (s3 := update_creature self (set_hp 1) s2).
  assert (Hc3 : creatures s3 !! self
                = Some (set_hp 1 (set_death_ward false (set_hp 0 c)))).
  { unfold s3. rewrite update_creature_lookup_eq, Hc2. reflexivity. }
  rewrite (bind_get_creature _ _ _ _ Hc3).
  cbn [slots set_hp set_death_ward]. rewrite Hconc.
  rewrite bool_decide_eq_false_2 by (intros H; apply H; reflexivity).
  cbn [andb]. rewrite bind_ret.
  rewrite (bind_get_creature _ _ _ _ Hc3).
  cbn [slots set_hp set_death_ward]. rewrite Hturn. rewrite bind_ret.
  unfold ret. f_equal. unfold s3, s2, s1.
  rewrite !update_creature_twice. apply update_creature_ext.
  intros x _. reflexivity.
Qed.

Lemma death_ward_absorbs_blow_witness :
  take_damage 0 50 fire None false 0 None (arena [set_death_ward true (plain_creature 10)] 1)
  = Ok (50, 0)
       (update_creature 0 (fun c => set_hp 1 (set_death_ward false c))
          (arena [set_death_ward true (plain_creature 10)] 1)).
Proof.
  apply (death_ward_absorbs_blow _ 0 (set_death_ward true (plain_creature 10)));
    try reflexivity; vm_compute; congruence.
Defined.

Lemma remove_first_middle v q r : v ∉ q -> remove_first v (q ++ v :: r) = Some (q ++ r).
Proof.
  induction q as [|x t IH]; intros H; cbn [app].
  - apply remove_first_head.
  - apply not_elem_of_cons in H as [H1 H2]. cbn [remove_first].
    rewrite decide_False by congruence. rewrite IH by exact H2. reflexivity.
Qed.

Lemma update_creature_lookup_ne s i f j :
  i <> j -> creatures (update_creature i f s) !! j = creatures s !! j.
Proof. intros H. rewrite update_creature_lookup, decide_False by exact H. reflexivity. Qed.

(** The loop of [heal] over a copy of the start-of-turn list: [q] is what
    the entries already visited have left on the list. *)
Lemma heal_loop self ds : forall r q s0,
  durations s0 = ds ->
  field (fun c => lists c start_turn_duration) s0 self = Some (q ++ r) ->
  (forall e, e ∈ q -> bleeds ds e = false) ->
  (forall e, e ∈ r ->
     exists d, ds !! e = Some d /\ (kind d = BleedingDuration -> target d = Some self)) ->
  exists s',
    for_each r (fun effect => let* b := is_bleeding effect in when b (Duration_end effect)) s0
    = Ok tt s'
    /\ field (fun c => lists c start_turn_duration) s' self
       = Some (q ++ filter (fun e => bleeds ds e = false) r)
    /\ durations s' = ds /\ rng s' = rng s0
    /\ (forall j, j <> self -> creatures s' !! j = creatures s0 !! j)
    /\ (forall A (g : Creature -> A),
          (forall c v, g (set_list start_turn_duration v c) = g c) ->
          field g s' self = field g s0 self).
Proof.
  induction r as [|e r IH]; intros q s0 Hds Hl Hq Hr; cbn [for_each].
  - exists s0. rewrite filter_nil. repeat split; auto.
  - destruct (Hr e ltac:(left)) as (d & Hd & Ht).
    assert (Hd0 : durations s0 !! e = Some d) by (rewrite Hds; exact Hd).
    assert (Hr' : forall e0, e0 ∈ r ->
              exists d0, ds !! e0 = Some d0
                         /\ (kind d0 = BleedingDuration -> target d0 = Some self)).
    { intros e0 He0. apply Hr. right. exact He0. }
    unfold is_bleeding at 1.
    rewrite !bind_assoc, (bind_get_duration _ _ _ _ Hd0), bind_ret.
    destruct (bool_decide (kind d = BleedingDuration)) eqn:Eb.
    + apply bool_decide_eq_true in Eb.
      assert (Hb : bleeds ds e = true).
      { unfold bleeds. rewrite Hd. cbn. rewrite Eb. reflexivity. }
      assert (Hnq : e ∉ q).
      { intros Hin. rewrite (Hq e Hin) in Hb. discriminate. }
      set (s1 := update_creature self (set_list start_turn_duration (q ++ r)) s0).
      assert (He : Duration_end e s0 = Ok tt s1).
      { unfold Duration_end. rewrite (bind_get_duration _ _ _ _ Hd0), Eb.
        unfold BleedingDuration_end.
        rewrite (bind_get_duration _ _ _ _ Hd0), (Ht Eb), bind_attr.
        apply (list_remove_Ok _ _ _ _ _ _ Hl). apply remove_first_middle, Hnq. }
      cbn [when]. rewrite (bind_Ok _ _ _ _ _ He).
      destruct (IH q s1) as (s' & H1 & H2 & H3 & H4 & H5 & H6); auto.
      { unfold s1. rewrite field_update_eq. unfold field in *.
        destruct (creatures s0 !! self); [|discriminate]. reflexivity. }
      exists s'. split; [exact H1|]. split.
      { rewrite H2. rewrite filter_cons_False by (rewrite Hb; discriminate). reflexivity. }
      split; [exact H3|]. split; [exact H4|]. split.
      { intros j Hj. rewrite (H5 j Hj). unfold s1.
        apply update_creature_lookup_ne. congruence. }
      intros A g Hg. rewrite (H6 A g Hg). unfold s1.
      apply field_update_frame. intros c0. apply Hg.
    + apply bool_decide_eq_false in Eb.
      assert (Hb : bleeds ds e = false).
      { unfold bleeds. rewrite Hd. cbn. apply bool_decide_eq_false.
        intros H. apply Eb. congruence. }
      cbn [when]. rewrite bind_ret.
      destruct (IH (q ++ [e]) s0) as (s' & H1 & H2 & H3 & H4 & H5 & H6); auto.
      { rewrite <- app_assoc. exact Hl. }
      { intros e0 He0. apply elem_of_app in He0 as [He0|He0]; [auto|].
        apply list_elem_of_singleton in He0 as ->. exact Hb. }
      exists s'. split; [exact H1|]. split; [|auto].
      rewrite H2, filter_cons_True by exact Hb. rewrite <- app_assoc. reflexivity.
Qed.

(** X8.  [heal] adds the healing and caps the hit points at the maximum.
    Magical healing also ends every [BleedingDuration] on the creature's
    start-of-turn list and keeps the other effects on it, in their order;
    no die is rolled and no other attribute or creature changes. *)
Theorem heal_magic_stops_bleeding s self c healing :
  creatures s !! self = Some c ->
  (forall e, e ∈ lists c start_turn_duration ->
     exists d, durations s !! e = Some d
               /\ (kind d = BleedingDuration -> target d = Some self)) ->
  exists s',
    heal self healing true s = Ok tt s'
    /\ field hp s' self = Some (Z.min (total_hp c) (hp c + healing))
    /\ field (fun c => lists c start_turn_duration) s' self
       = Some (filter (fun e => bleeds (durations s) e = false)
                 (lists c start_turn_duration))
    /\ durations s' = durations s /\ rng s' = rng s
    /\ (forall j, j <> self -> creatures s' !! j = creatures s !! j)
    /\ (forall A (g : Creature -> A), heal_framed g -> field g s' self = field g s self).
Proof.
  intros Hc Hwf. unfold heal.
  rewrite bind_modify_creature by (rewrite Hc; eauto).
  set (s1 := update_creature self (fun c0 => set_hp (hp c0 + healing) c0) s).
  assert (Hc1 : creatures s1 !! self = Some (set_hp (hp c + healing) c)).
  { unfold s1. rewrite update_creature_lookup_eq, Hc. reflexivity. }
  rewrite (bind_get_creature _ _ _ _ Hc1). cbn [hp total_hp set_hp].
  assert (Hs2 : exists s2,
             when (total_hp c <? hp c + healing)
               (modify_creature self (set_hp (total_hp c))) s1 = Ok tt s2
             /\ creatures s2 !! self
                = Some (set_hp (Z.min (total_hp c) (hp c + healing)) c)
             /\ durations s2 = durations s /\ rng s2 = rng s
             /\ (forall j, j <> self -> creatures s2 !! j = creatures s !! j)).
  { destruct (total_hp c <? hp c + healing) eqn:E; cbn [when].
    - apply Z.ltb_lt in E. eexists. split.
      { apply modify_creature_valid. rewrite Hc1. eauto. }
      rewrite update_creature_lookup_eq, Hc1. cbn [fmap option_fmap option_map].
      rewrite Z.min_l by lia. repeat split.
      intros j Hj. unfold s1.
      rewrite !update_creature_lookup_ne by congruence. reflexivity.
    - apply Z.ltb_ge in E. exists s1. split; [reflexivity|].
      rewrite Hc1, Z.min_r by lia. repeat split.
      intros j Hj. unfold s1. apply update_creature_lookup_ne. congruence. }
  destruct Hs2 as (s2 & Hw & Hc2 & Hd2 & Hr2 & Ho2).
  rewrite (bind_Ok _ _ _ _ _ Hw). cbn [when].
  rewrite (bind_get_creature _ _ _ _ Hc2). cbn [lists set_hp].
  destruct (heal_loop self (durations s) (lists c start_turn_duration) [] s2)
    as (s' & H1 & H2 & H3 & H4 & H5 & H6).
  - exact Hd2.
  - unfold field. rewrite Hc2. reflexivity.
  - intros e He. inversion He.
  - exact Hwf.
  - exists s'. split; [exact H1|]. split.
    { rewrite (H6 _ hp) by reflexivity. unfold field. rewrite Hc2. reflexivity. }
    split; [exact H2|]. split; [exact H3|]. split; [congruence|]. split.
    { intros j Hj. rewrite (H5 j Hj). apply Ho2, Hj. }
    intros A g [Hg1 Hg2]. rewrite (H6 A g Hg2).
    unfold field. rewrite Hc2, Hc. cbn. f_equal. apply Hg1.
Qed.

Lemma heal_magic_stops_bleeding_witness :
  exists s',
    heal 0 20 true bleeding_arena = Ok tt s'
    /\ field hp s' 0 = Some 10
    /\ field (fun c => lists c start_turn_duration) s' 0 = Some [1%nat].
Proof.
  destruct (heal_magic_stops_bleeding bleeding_arena 0
              (set_hp 9 (set_list start_turn_duration [0%nat; 1%nat] (plain_creature 10)))
              20 eq_refl) as (s' & H1 & H2 & H3 & _).
  - intros e He. cbn in He.
    apply elem_of_cons in He as [->|He]; [eexists; split; [reflexivity|]; reflexivity|].
    apply elem_of_cons in He as [->|He]; [eexists; split; [reflexivity|]; discriminate|].
    inversion He.
  - exists s'. split; [exact H1|]. split; [exact H2 | exact H3].
Defined.

Lemma mitigated_monotone t ty d d' : d <= d' -> mitigated t ty d <= mitigated t ty d'.
Proof.
  intros H. unfold mitigated, after_immunity, after_vulnerability, after_resistance,
    after_heavy_armor_master.
  set (x := if heavy_armor_master t && is_physical ty then d - 3 else d).
  set (x' := if heavy_armor_master t && is_physical ty then d' - 3 else d').
  assert (Hx : x <= x') by (unfold x, x'; case_match; lia).
  clearbody x x'.
  pose proof (Z.div_le_mono x x' 2 ltac:(lia) Hx).
  repeat case_match; lia.
Qed.

Lemma mitigated_at_most_double t ty d : mitigated t ty d <= Z.max 0 (2 * d).
Proof.
  unfold mitigated, after_immunity, after_vulnerability, after_resistance,
    after_heavy_armor_master.
  set (x := if heavy_armor_master t && is_physical ty then d - 3 else d).
  assert (Hx : x <= d) by (unfold x; case_match; lia).
  clearbody x.
  pose proof (Z.mod_pos_bound x 2 ltac:(lia)).
  pose proof (Z.div_mod x 2 ltac:(lia)).
  repeat case_match; lia.
Qed.

(** X9.  [take_damage_type] never raises on an existing creature; more
    damage dealt never means less damage taken; the damage taken is at most
    twice the damage dealt; and when no damage is taken (immunity included)
    the store is left as it was. *)
Theorem take_damage_type_monotone s i c d d' ty :
  creatures s !! i = Some c -> d <= d' ->
  exists x x' s1 s2,
    take_damage_type i d ty s = Ok x s1
    /\ take_damage_type i d' ty s = Ok x' s2
    /\ 0 <= x <= x' /\ x <= Z.max 0 (2 * d)
    /\ (x = 0 -> s1 = s)
    /\ (immunities (traits c) ty = true -> x = 0).
Proof.
  intros Hc Hle.
  rewrite !(take_damage_type_unfold _ _ _ _ _ Hc).
  pose proof (mitigated_monotone (traits c) ty d d' Hle) as Hm.
  pose proof (mitigated_nonneg (traits c) ty d) as H0.
  pose proof (mitigated_at_most_double (traits c) ty d) as H2.
  assert (Hi : immunities (traits c) ty = true -> mitigated (traits c) ty d = 0).
  { intros E. unfold mitigated, after_immunity. rewrite E. reflexivity. }
  destruct (Z.eqb_spec (mitigated (traits c) ty d) 0) as [E1|E1];
    destruct (Z.eqb_spec (mitigated (traits c) ty d') 0) as [E2|E2];
    do 4 eexists; (split; [reflexivity|]); (split; [reflexivity|]);
    repeat split; auto; try lia.
Qed.

Lemma take_damage_type_monotone_witness :
  exists x x' s1 s2,
    take_damage_type 0 5 fire (arena [resistant_vulnerable_fire] 1) = Ok x s1
    /\ take_damage_type 0 9 fire (arena [resistant_vulnerable_fire] 1) = Ok x' s2
    /\ 0 <= x <= x' /\ x <= Z.max 0 (2 * 5).
Proof.
  destruct (take_damage_type_monotone (arena [resistant_vulnerable_fire] 1) 0
              resistant_vulnerable_fire 5 9 fire eq_refl ltac:(lia))
    as (x & x' & s1 & s2 & H1 & H2 & H3 & H4 & _).
  exists x, x', s1, s2. auto.
Defined.

(** ** Effects, continued *)

Lemma modify_duration_Ok s i f d :
  durations s !! i = Some d -> modify_duration i f s = Ok tt (update_duration i f s).
Proof.
  intros Hd. unfold modify_duration. rewrite (bind_get_duration _ _ _ _ Hd). reflexivity.
Qed.

Lemma update_duration_lookup s i f j :
  durations (update_duration i f s) !! j =
  if decide (i = j) then f <$> durations s !! j else durations s !! j.
Proof.
  unfold update_duration; simpl. destruct (decide (i = j)) as [->|Hne].
  - apply list_lookup_alter_eq.
  - apply list_lookup_alter_ne, Hne.
Qed.

(** X10.  Bleeding stacks on the existing effect.  When the target already
    has a [BleedingDuration] on its start-of-turn list, a second
    [BleedingDuration(...)] adds one wound to that effect and sets its
    duration to the larger of the remaining and the new one; the new object
    is registered nowhere and has no attributes, so that calling [end()] on
    it raises [AttributeError]. *)
Theorem bleeding_stacks s target c e d n wound_damage damage_type max_duration :
  creatures s !! target = Some c ->
  find_bleeding s (lists c start_turn_duration) = Some e ->
  durations s !! e = Some d -> duration d = Some n ->
  exists s',
    BleedingDuration_init target wound_damage damage_type max_duration s
    = Ok (length (durations s)) s'
    /\ durations s' !! e
       = Some (set_duration (Some (Z.max n max_duration))
                 (set_N_wounds (N_wounds d + 1) d))
    /\ durations s' !! length (durations s) = Some (blank BleedingDuration)
    /\ (forall j, j <> e -> j <> length (durations s) ->
                  durations s' !! j = durations s !! j)
    /\ creatures s' = creatures s /\ rng s' = rng s
    /\ Duration_end (length (durations s)) s' = Raise AttributeError s'.
Proof.
  intros Hc Hf Hd Hn.
  pose proof (lookup_lt_Some _ _ _ Hd) as Hlt.
  unfold BleedingDuration_init. rewrite (bind_get_creature _ _ _ _ Hc).
  unfold bind at 1. rewrite Hf.
  unfold bind at 1. unfold alloc_duration at 1.
  set (s0 := mkStore (creatures s) (durations s ++ [blank BleedingDuration])
               (spells s) (rng s)).
  assert (Hd0 : durations s0 !! e = Some d).
  { unfold s0; cbn [durations]. rewrite lookup_app_l by exact Hlt. exact Hd. }
  rewrite (bind_get_duration _ _ _ _ Hd0).
  rewrite (bind_Ok _ _ _ _ _ (modify_duration_Ok _ _ _ _ Hd0)).
  rewrite Hn, bind_attr.
  set (s1 := update_duration e (set_N_wounds (N_wounds d + 1)) s0).
  assert (Hd1 : durations s1 !! e = Some (set_N_wounds (N_wounds d + 1) d)).
  { unfold s1. rewrite update_duration_lookup, decide_True, Hd0; reflexivity. }
  rewrite (bind_Ok _ _ _ _ _ (modify_duration_Ok _ _ _ _ Hd1)).
  set (s2 := update_duration e (set_duration (Some (Z.max n max_duration))) s1).
  assert (Hself : durations s2 !! length (durations s) = Some (blank BleedingDuration)).
  { unfold s2, s1. rewrite !update_duration_lookup, !decide_False by lia.
    unfold s0; cbn [durations]. rewrite lookup_app_r by lia.
    rewrite Nat.sub_diag. reflexivity. }
  exists s2. split; [reflexivity|]. split.
  { unfold s2. rewrite update_duration_lookup, decide_True, Hd1; reflexivity. }
  split; [exact Hself|]. split.
  { intros j Hj1 Hj2. unfold s2, s1.
    rewrite !update_duration_lookup, !decide_False by congruence.
    unfold s0; cbn [durations].
    destruct (decide (j < length (durations s))%nat) as [Hj|Hj].
    - apply lookup_app_l, Hj.
    - rewrite (lookup_ge_None_2 (durations s)) by lia.
      apply lookup_ge_None_2. rewrite length_app; cbn. lia. }
  split; [reflexivity|]. split; [reflexivity|].
  unfold Duration_end. rewrite (bind_get_duration _ _ _ _ Hself). cbn [kind blank].
  unfold BleedingDuration_end. rewrite (bind_get_duration _ _ _ _ Hself). reflexivity.
Qed.

Lemma bleeding_stacks_witness :
  exists s',
    BleedingDuration_init 0 (ADie d6) piercing 8 bleeding_arena = Ok 2%nat s'
    /\ (N_wounds <$> durations s' !! 0%nat) = Some 2
    /\ (duration <$> durations s' !! 0%nat) = Some (Some 8)
    /\ creatures s' = creatures bleeding_arena
    /\ Duration_end 2 s' = Raise AttributeError s'.
Proof.
  destruct (bleeding_stacks bleeding_arena 0
              (set_hp 9 (set_list start_turn_duration [0%nat; 1%nat] (plain_creature 10)))
              0%nat
              (mkDuration BleedingDuration (Some 5) None (Some 0%nat) 0 false false false
                 0 1 (ADie d4) slashing)
              5 (ADie d6) piercing 8 eq_refl eq_refl eq_refl eq_refl)
    as (s' & H1 & H2 & _ & _ & H5 & _ & H7).
  exists s'. split; [exact H1|]. rewrite H2. repeat split; [exact H5 | exact H7].
Defined.

(** The [n] rolls of the wound dice. *)
Lemma roll_wounds_range die : forall n damage s,
  1 <= sides die ->
  exists x,
    roll_wounds n (ADie die) damage s = Ok x (set_rng (advance (rng s) n) s)
    /\ damage + Z.of_nat n <= x <= damage + Z.of_nat n * sides die.
Proof.
  induction n as [|n IH]; intros damage s H; cbn [roll_wounds].
  - exists damage. split; [|lia]. unfold ret, set_rng, advance. destruct s as [? ? ? [? ?]].
    cbn. repeat f_equal. lia.
  - rewrite (bind_Ok _ _ _ _ _ (with_rng_Ok _ _)). cbn [Roller_call].
    destruct (Die_call_bounds die 1 (rng s) H) as [Hr Ha].
    destruct (IH (damage + (Die_call die 1 (rng s)).1)
                (set_rng (Die_call die 1 (rng s)).2 s) H) as (x & Hx & Hb).
    exists x. split; [|lia].
    rewrite Hx, Ha. unfold set_rng; cbn [creatures durations spells rng].
    rewrite advance_advance. reflexivity.
Qed.

(** X11.  At the start of the target's turn a bleeding effect rolls its
    wound die once per wound, deals the total as one hit of its damage type
    and counts its duration down by one.  Stated for a target of the base
    class that survives the hit, does not concentrate and is not turned, and
    for an effect that does not expire on this turn. *)
Theorem bleeding_turn s self d t c die n :
  durations s !! self = Some d -> kind d = BleedingDuration ->
  target d = Some t -> wound_damage d = ADie die -> 1 <= sides die ->
  duration d = Some n -> n <> 1 -> 0 <= N_wounds d ->
  creatures s !! t = Some c -> klass c = Generic ->
  slots c concentration = None -> slots c turned = None ->
  2 * (N_wounds d * sides die) < hp c ->
  exists x s',
    BleedingDuration_start_turn_effect self s = Ok tt s'
    /\ N_wounds d <= x <= N_wounds d * sides die
    /\ field hp s' t = Some (hp c - mitigated (traits c) (damage_type d) x)
    /\ durations s' !! self = Some (set_duration (Some (n - 1)) d)
    /\ rng s' = advance (rng s) (Z.to_nat (N_wounds d)).
Proof.
  intros Hd Hk Ht Hw Hs Hn Hn1 Hnw Hc Hkl Hconc Hturn Hhp.
  unfold BleedingDuration_start_turn_effect.
  rewrite (bind_get_duration _ _ _ _ Hd), Hw.
  destruct (roll_wounds_range die (Z.to_nat (N_wounds d)) 0 s Hs) as (x & Hx & Hr).
  rewrite Z2Nat.id in Hr by exact Hnw.
  rewrite (bind_Ok _ _ _ _ _ Hx), Ht, bind_attr.
  set (s0 := set_rng (advance (rng s) (Z.to_nat (N_wounds d))) s) in *.
  assert (Hc0 : creatures s0 !! t = Some c) by exact Hc.
  pose proof (mitigated_at_most_double (traits c) (damage_type d) x) as Hm.
  destruct (Creature_take_damage_quiet s0 t c x (damage_type d) None false 0 None Hc0)
    as (s1 & H1 & Hc1 & Hd1 & Hr1); try assumption.
  { cbn [optional_mitigated]. nia. }
  { cbn [optional_mitigated]. nia. }
  assert (Htd : take_damage t x (damage_type d) None false 0 None s0
                = Ok (mitigated (traits c) (damage_type d) x, 0) s1).
  { unfold take_damage. rewrite (bind_get_creature _ _ _ _ Hc0), Hkl. exact H1. }
  rewrite (bind_Ok _ _ _ _ _ Htd).
  assert (Hds : durations s1 !! self = Some d) by (rewrite Hd1; exact Hd).
  unfold tick. rewrite (bind_get_duration _ _ _ _ Hds), Hk.
  unfold Duration_tick. rewrite (bind_get_duration _ _ _ _ Hds), Hn, bind_attr.
  rewrite (bind_Ok _ _ _ _ _ (modify_duration_Ok _ _ _ _ Hds)).
  rewrite (proj2 (Z.eqb_neq (n - 1) 0)) by lia. cbn [when].
  exists x. eexists. split; [reflexivity|]. split; [lia|]. split.
  { unfold field, update_duration; cbn [creatures]. rewrite Hc1. cbn.
    f_equal. cbn [optional_mitigated]. lia. }
  split.
  { rewrite update_duration_lookup, decide_True, Hds; reflexivity. }
  cbn [rng update_duration]. exact Hr1.
Qed.

Lemma bleeding_turn_witness :
  exists x s',
    BleedingDuration_start_turn_effect 0 bleeding_arena = Ok tt s'
    /\ 1 <= x <= 1 * 4
    /\ field hp s' 0 = Some (9 - mitigated plain_traits slashing x)
    /\ (duration <$> durations s' !! 0%nat) = Some (Some (5 - 1)).
Proof.
  destruct (bleeding_turn bleeding_arena 0%nat
              (mkDuration BleedingDuration (Some 5) None (Some 0%nat) 0 false false false
                 0 1 (ADie d4) slashing)
              0%nat
              (set_hp 9 (set_list start_turn_duration [0%nat; 1%nat] (plain_creature 10)))
              d4 5)
    as (x & s' & H1 & H2 & H3 & H4 & _); try reflexivity; try (cbn; lia).
  exists x, s'. split; [exact H1|]. split; [exact H2|]. split; [exact H3|].
  rewrite H4. reflexivity.
Defined.

(** ** Round trips *)

Lemma valid_update_2 s i f j :
  is_Some (creatures s !! j) -> is_Some (creatures (update_creature i f s) !! j).
Proof. apply valid_update. Qed.

Lemma lookup_new_object {A} (l : list A) (x : A) : (l ++ [x]) !! length l = Some x.
Proof. rewrite lookup_app_r by lia. rewrite Nat.sub_diag. reflexivity. Qed.

Ltac same_creature_tac :=
  unfold same_creature; cbn;
  repeat split; intros;
  repeat match goal with
         | |- context [decide (?a = ?b)] => destruct (decide (a = b)); subst
         end;
  try reflexivity; try congruence; try lia.

(** The assignments of a condition with a clock, made by its constructor and
    undone by its [end()]: a counter and the end-of-turn list of the target,
    the start-of-turn list of the creature that applied it. *)
Lemma timed_condition_ops s0 k self target_ applier_ ct ca :
  creatures s0 !! target_ = Some ct -> creatures s0 !! applier_ = Some ca ->
  self ∉ lists ct end_turn_duration -> self ∉ lists ca start_turn_duration ->
  exists sa sb s1 sc sd s2,
    add_counter target_ k 1 s0 = Ok tt sa
    /\ list_append target_ end_turn_duration self sa = Ok tt sb
    /\ list_append applier_ start_turn_duration self sb = Ok tt s1
    /\ add_counter target_ k (-1) s1 = Ok tt sc
    /\ list_remove target_ end_turn_duration self sc = Ok tt sd
    /\ list_remove applier_ start_turn_duration self sd = Ok tt s2
    /\ durations s1 = durations s0 /\ spells s1 = spells s0 /\ rng s1 = rng s0
    /\ durations s2 = durations s0 /\ spells s2 = spells s0 /\ rng s2 = rng s0
    /\ (forall j, field (fun c => slots c concentration) s1 j
                  = field (fun c => slots c concentration) s0 j)
    /\ Forall2 same_creature (creatures s0) (creatures s2).
Proof.
  intros Hct Hca Hnt Hna.
  assert (Vt : is_Some (creatures s0 !! target_)) by eauto.
  assert (Va : is_Some (creatures s0 !! applier_)) by eauto.
  set (sa := update_creature target_ (fun c => set_counter k (counters c k + 1) c) s0).
  set (sb := update_creature target_
               (fun c => set_list end_turn_duration (lists c end_turn_duration ++ [self]) c) sa).
  set (s1 := update_creature applier_
               (fun c => set_list start_turn_duration
                           (lists c start_turn_duration ++ [self]) c) sb).
  set (sc := update_creature target_ (fun c => set_counter k (counters c k + -1) c) s1).
  set (sd := update_creature target_
               (set_list end_turn_duration (lists ct end_turn_duration)) sc).
  set (s2 := update_creature applier_
               (set_list start_turn_duration (lists ca start_turn_duration)) sd).
  exists sa, sb, s1, sc, sd, s2.
  split; [apply add_counter_Ok, Vt|].
  split; [apply list_append_Ok; unfold sa; apply valid_update_2, Vt|].
  split; [apply list_append_Ok; unfold sb, sa; do 2 apply valid_update_2; exact Va|].
  split; [apply add_counter_Ok; unfold s1, sb, sa; do 3 apply valid_update_2; exact Vt|].
  split.
  { apply (list_remove_Ok _ _ _ _ (lists ct end_turn_duration ++ [self]));
      [|apply remove_first_app_last, Hnt].
    unfold sc, s1, sb, sa.
    rewrite field_update_frame by reflexivity.
    rewrite field_update_frame by reflexivity.
    rewrite field_update_eq.
    rewrite (field_update_frame (fun c => lists (set_list end_turn_duration
               (lists c end_turn_duration ++ [self]) c) end_turn_duration))
      by reflexivity.
    unfold field. rewrite Hct. reflexivity. }
  split.
  { apply (list_remove_Ok _ _ _ _ (lists ca start_turn_duration ++ [self]));
      [|apply remove_first_app_last, Hna].
    unfold sd, sc, s1, sb, sa.
    rewrite field_update_frame by reflexivity.
    rewrite field_update_frame by reflexivity.
    rewrite field_update_eq.
    rewrite (field_update_frame (fun c => lists (set_list start_turn_duration
               (lists c start_turn_duration ++ [self]) c) start_turn_duration))
      by reflexivity.
    rewrite (field_update_frame (fun c => lists (set_list start_turn_duration
               (lists c start_turn_duration ++ [self]) c) start_turn_duration))
      by reflexivity.
    unfold field. rewrite Hca. reflexivity. }
  do 6 (split; [reflexivity|]). split.
  { intros j. unfold s1, sb, sa. rewrite !field_update_frame by reflexivity. reflexivity. }
  apply Forall2_same_length_lookup. split.
  { unfold s2, sd, sc, s1, sb, sa, update_creature; cbn [creatures].
    rewrite !length_alter. reflexivity. }
  intros i x y Hx Hy.
  unfold s2, sd, sc, s1, sb, sa in Hy. rewrite !update_creature_lookup in Hy.
  rewrite Hx in Hy.
  repeat case_decide; simplify_eq/=; same_creature_tac.
Qed.

Lemma bind_alloc {B} d (k : nat -> M B) s :
  bind (alloc_duration d) k s
  = k (length (durations s))
      (mkStore (creatures s) (durations s ++ [d]) (spells s) (rng s)).
Proof. reflexivity. Qed.

Lemma registered_fresh s i c a :
  registered_exist s i -> creatures s !! i = Some c -> length (durations s) ∉ lists c a.
Proof.
  intros Hr Hc Hin.
  assert (H : (length (durations s) < length (durations s))%nat); [|lia].
  apply (Hr a). exists (lists c a). split; [|exact Hin].
  unfold field. rewrite Hc. reflexivity.
Qed.

Lemma break_concentration_none s i :
  field (fun c => slots c concentration) s i = Some None ->
  break_concentration i s = Ok tt s.
Proof.
  unfold field, break_concentration. intros H.
  destruct (creatures s !! i) as [c|] eqn:Hc; [|discriminate].
  injection H as H. rewrite (bind_get_creature _ _ _ _ Hc), H. reflexivity.
Qed.

(** X12.  Creating and at once ending a frightened, slowed, paralyzed or
    stunned condition is a round trip: both calls return, and every
    attribute of every creature, the spells and the generator are as before
    (for paralyzed and stunned, on a target that does not concentrate on a
    spell, since their constructors end the target's concentration).  The
    applier and the target may be the same creature. *)
Theorem timed_conditions_round_trip s applier_ target_ ct ca save_dc max_duration :
  creatures s !! target_ = Some ct -> creatures s !! applier_ = Some ca ->
  registered_exist s target_ -> registered_exist s applier_ ->
  round_trip (FrightenedDuration_init applier_ target_ save_dc max_duration) s
  /\ round_trip (SlowedDuration_init applier_ target_ save_dc) s
  /\ (slots ct concentration = None ->
      round_trip (ParalyzedDuration_init applier_ target_ save_dc max_duration) s
      /\ round_trip (StunnedDuration_init applier_ target_ save_dc max_duration) s).
Proof.
  intros Hct Hca Ht Ha.
  pose proof (registered_fresh s target_ ct end_turn_duration Ht Hct) as Hnt.
  pose proof (registered_fresh s applier_ ca start_turn_duration Ha Hca) as Hna.
  assert (Hops : forall k dd,
            target dd = Some target_ -> applier dd = Some applier_ ->
            let s0 := mkStore (creatures s) (durations s ++ [dd]) (spells s) (rng s) in
            exists sa sb s1 sc sd s2,
              add_counter target_ k 1 s0 = Ok tt sa
              /\ list_append target_ end_turn_duration (length (durations s)) sa = Ok tt sb
              /\ list_append applier_ start_turn_duration (length (durations s)) sb
                 = Ok tt s1
              /\ add_counter target_ k (-1) s1 = Ok tt sc
              /\ list_remove target_ end_turn_duration (length (durations s)) sc = Ok tt sd
              /\ list_remove applier_ start_turn_duration (length (durations s)) sd
                 = Ok tt s2
              /\ durations s1 !! length (durations s) = Some dd
              /\ durations s2 = durations s ++ [dd]
              /\ spells s2 = spells s /\ rng s2 = rng s
              /\ field (fun c => slots c concentration) s1 target_
                 = Some (slots ct concentration)
              /\ Forall2 same_creature (creatures s) (creatures s2)).
  { intros k dd _ _ s0.
    destruct (timed_condition_ops s0 k (length (durations s)) target_ applier_ ct ca
                Hct Hca Hnt Hna)
      as (sa & sb & s1 & sc & sd & s2 & H1 & H2 & H3 & H4 & H5 & H6
          & D1 & _ & _ & D2 & S2 & R2 & C1 & F).
    exists sa, sb, s1, sc, sd, s2. repeat (split; [assumption|]).
    split; [rewrite D1; apply lookup_new_object|].
    repeat (split; [assumption|]).
    split; [|exact F].
    rewrite C1. unfold field, s0; cbn [creatures]. rewrite Hct. reflexivity. }
  split; [|split; [|intros Hconc; split]].
  - unfold round_trip, FrightenedDuration_init. rewrite bind_alloc.
    edestruct (Hops frightened) as (sa & sb & s1 & sc & sd & s2 & H1 & H2 & H3 & H4 & H5
                                    & H6 & D1 & D2 & S2 & R2 & C1 & F);
      [| |exists s1, s2; eexists;
          rewrite (bind_Ok _ _ _ _ _ H1), (bind_Ok _ _ _ _ _ H2), (bind_Ok _ _ _ _ _ H3)];
      [reflexivity | reflexivity |].
    split; [reflexivity|]. split; [|repeat split; eassumption].
    unfold Duration_end. rewrite (bind_get_duration _ _ _ _ D1). cbn [kind].
    unfold FrightenedDuration_end. rewrite (bind_get_duration _ _ _ _ D1).
    cbn [target applier]. rewrite !bind_attr.
    rewrite (bind_Ok _ _ _ _ _ H4), (bind_Ok _ _ _ _ _ H5). exact H6.
  - unfold round_trip, SlowedDuration_init. rewrite bind_alloc.
    edestruct (Hops slowed) as (sa & sb & s1 & sc & sd & s2 & H1 & H2 & H3 & H4 & H5
                                & H6 & D1 & D2 & S2 & R2 & C1 & F);
      [| |exists s1, s2; eexists;
          rewrite (bind_Ok _ _ _ _ _ H1), (bind_Ok _ _ _ _ _ H2), (bind_Ok _ _ _ _ _ H3)];
      [reflexivity | reflexivity |].
    split; [reflexivity|]. split; [|repeat split; eassumption].
    unfold Duration_end. rewrite (bind_get_duration _ _ _ _ D1). cbn [kind].
    unfold SlowedDuration_end. rewrite (bind_get_duration _ _ _ _ D1).
    cbn [target applier]. rewrite !bind_attr.
    rewrite (bind_Ok _ _ _ _ _ H4), (bind_Ok _ _ _ _ _ H5). exact H6.
  - unfold round_trip, ParalyzedDuration_init. rewrite bind_alloc.
    edestruct (Hops paralyzed) as (sa & sb & s1 & sc & sd & s2 & H1 & H2 & H3 & H4 & H5
                                   & H6 & D1 & D2 & S2 & R2 & C1 & F);
      [| |exists s1, s2; eexists;
          rewrite (bind_Ok _ _ _ _ _ H1), (bind_Ok _ _ _ _ _ H2), (bind_Ok _ _ _ _ _ H3)];
      [reflexivity | reflexivity |].
    rewrite Hconc in C1. rewrite (bind_Ok _ _ _ _ _ (break_concentration_none _ _ C1)).
    split; [reflexivity|]. split; [|repeat split; eassumption].
    unfold Duration_end. rewrite (bind_get_duration _ _ _ _ D1). cbn [kind].
    unfold ParalyzedDuration_end. rewrite (bind_get_duration _ _ _ _ D1).
    cbn [target applier]. rewrite !bind_attr.
    rewrite (bind_Ok _ _ _ _ _ H4), (bind_Ok _ _ _ _ _ H5). exact H6.
  - unfold round_trip, StunnedDuration_init. rewrite bind_alloc.
    edestruct (Hops stunned) as (sa & sb & s1 & sc & sd & s2 & H1 & H2 & H3 & H4 & H5
                                 & H6 & D1 & D2 & S2 & R2 & C1 & F);
      [| |exists s1, s2; eexists;
          rewrite (bind_Ok _ _ _ _ _ H1), (bind_Ok _ _ _ _ _ H2), (bind_Ok _ _ _ _ _ H3)];
      [reflexivity | reflexivity |].
    rewrite Hconc in C1. rewrite (bind_Ok _ _ _ _ _ (break_concentration_none _ _ C1)).
    split; [reflexivity|]. split; [|repeat split; eassumption].
    unfold Duration_end. rewrite (bind_get_duration _ _ _ _ D1). cbn [kind].
    unfold StunnedDuration_end. rewrite (bind_get_duration _ _ _ _ D1).
    cbn [target applier]. rewrite !bind_attr.
    rewrite (bind_Ok _ _ _ _ _ H4), (bind_Ok _ _ _ _ _ H5). exact H6.
Qed.

Lemma timed_conditions_round_trip_witness :
  round_trip (FrightenedDuration_init 0 1 13 10) (arena [plain_creature 10; plain_creature 8] 1)
  /\ round_trip (SlowedDuration_init 0 1 13) (arena [plain_creature 10; plain_creature 8] 1).
Proof.
  destruct (timed_conditions_round_trip (arena [plain_creature 10; plain_creature 8] 1)
              0 1 (plain_creature 8) (plain_creature 10) 13 10 eq_refl eq_refl)
    as (H1 & H2 & _).
  - intros a x (l & Hl & Hx). injection Hl as <-. inversion Hx.
  - intros a x (l & Hl & Hx). injection Hl as <-. inversion Hx.
  - split; [exact H1 | exact H2].
Defined.

(** The assignments of a condition on one creature: a counter and one of
    its lists. *)
Lemma own_condition_ops s0 k a self target_ ct :
  creatures s0 !! target_ = Some ct -> self ∉ lists ct a ->
  exists sa s1 sc s2,
    add_counter target_ k 1 s0 = Ok tt sa
    /\ list_append target_ a self sa = Ok tt s1
    /\ add_counter target_ k (-1) s1 = Ok tt sc
    /\ list_remove target_ a self sc = Ok tt s2
    /\ durations s1 = durations s0
    /\ durations s2 = durations s0 /\ spells s2 = spells s0 /\ rng s2 = rng s0
    /\ Forall2 same_creature (creatures s0) (creatures s2).
Proof.
  intros Hct Hnt.
  assert (Vt : is_Some (creatures s0 !! target_)) by eauto.
  set (sa := update_creature target_ (fun c => set_counter k (counters c k + 1) c) s0).
  set (s1 := update_creature target_ (fun c => set_list a (lists c a ++ [self]) c) sa).
  set (sc := update_creature target_ (fun c => set_counter k (counters c k + -1) c) s1).
  set (s2 := update_creature target_ (set_list a (lists ct a)) sc).
  exists sa, s1, sc, s2.
  split; [apply add_counter_Ok, Vt|].
  split; [apply list_append_Ok; unfold sa; apply valid_update_2, Vt|].
  split; [apply add_counter_Ok; unfold s1, sa; do 2 apply valid_update_2; exact Vt|].
  split.
  { apply (list_remove_Ok _ _ _ _ (lists ct a ++ [self]));
      [|apply remove_first_app_last, Hnt].
    unfold sc, s1, sa.
    rewrite field_update_frame by reflexivity.
    rewrite field_update_eq.
    rewrite (field_update_frame (fun c => lists (set_list a (lists c a ++ [self]) c) a))
      by reflexivity.
    unfold field. rewrite Hct. cbn. rewrite decide_True by reflexivity. reflexivity. }
  do 4 (split; [reflexivity|]).
  apply Forall2_same_length_lookup. split.
  { unfold s2, sc, s1, sa, update_creature; cbn [creatures].
    rewrite !length_alter. reflexivity. }
  intros i x y Hx Hy.
  unfold s2, sc, s1, sa in Hy. rewrite !update_creature_lookup in Hy.
  rewrite Hx in Hy.
  repeat case_decide; simplify_eq/=; same_creature_tac.
Qed.

(** X13.  Creating and at once ending a Reckless Attack effect, a
    restrained condition or a one-turn frightened condition is a round trip:
    both calls return and every attribute of every creature is as before. *)
Theorem own_conditions_round_trip s target_ ct check_dc max_duration :
  creatures s !! target_ = Some ct -> registered_exist s target_ ->
  round_trip (RecklessDuration_init target_ max_duration) s
  /\ round_trip (RestrainedDuration_init target_ check_dc) s
  /\ round_trip (FrightenedOneTurnDuration_init target_) s.
Proof.
  intros Hct Ht.
  assert (Hops : forall k a dd,
            let s0 := mkStore (creatures s) (durations s ++ [dd]) (spells s) (rng s) in
            exists sa s1 sc s2,
              add_counter target_ k 1 s0 = Ok tt sa
              /\ list_append target_ a (length (durations s)) sa = Ok tt s1
              /\ add_counter target_ k (-1) s1 = Ok tt sc
              /\ list_remove target_ a (length (durations s)) sc = Ok tt s2
              /\ durations s1 !! length (durations s) = Some dd
              /\ durations s2 = durations s ++ [dd]
              /\ spells s2 = spells s /\ rng s2 = rng s
              /\ Forall2 same_creature (creatures s) (creatures s2)).
  { intros k a dd s0.
    destruct (own_condition_ops s0 k a (length (durations s)) target_ ct Hct
                (registered_fresh s target_ ct a Ht Hct))
      as (sa & s1 & sc & s2 & H1 & H2 & H3 & H4 & D1 & D2 & S2 & R2 & F).
    exists sa, s1, sc, s2. repeat (split; [assumption|]).
    split; [rewrite D1; apply lookup_new_object|].
    repeat (split; [assumption|]). exact F. }
  split; [|split].
  - unfold round_trip, RecklessDuration_init. rewrite bind_alloc.
    edestruct (Hops target_adv start_turn_duration)
      as (sa & s1 & sc & s2 & H1 & H2 & H3 & H4 & D1 & D2 & S2 & R2 & F).
    exists s1, s2. eexists.
    rewrite (bind_Ok _ _ _ _ _ H1), (bind_Ok _ _ _ _ _ H2).
    split; [reflexivity|]. split; [|repeat split; eassumption].
    unfold Duration_end. rewrite (bind_get_duration _ _ _ _ D1). cbn [kind].
    unfold RecklessDuration_end. rewrite (bind_get_duration _ _ _ _ D1).
    cbn [target]. rewrite !bind_attr. rewrite (bind_Ok _ _ _ _ _ H3). exact H4.
  - unfold round_trip, RestrainedDuration_init. rewrite bind_alloc.
    edestruct (Hops restrained start_turn_duration)
      as (sa & s1 & sc & s2 & H1 & H2 & H3 & H4 & D1 & D2 & S2 & R2 & F).
    exists s1, s2. eexists.
    rewrite (bind_Ok _ _ _ _ _ H1), (bind_Ok _ _ _ _ _ H2).
    split; [reflexivity|]. split; [|repeat split; eassumption].
    unfold Duration_end. rewrite (bind_get_duration _ _ _ _ D1). cbn [kind].
    unfold RestrainedDuration_end. rewrite (bind_get_duration _ _ _ _ D1).
    cbn [target]. rewrite !bind_attr. rewrite (bind_Ok _ _ _ _ _ H3). exact H4.
  - unfold round_trip, FrightenedOneTurnDuration_init. rewrite bind_alloc.
    edestruct (Hops frightened end_turn_duration)
      as (sa & s1 & sc & s2 & H1 & H2 & H3 & H4 & D1 & D2 & S2 & R2 & F).
    exists s1, s2. eexists.
    rewrite (bind_Ok _ _ _ _ _ H1), (bind_Ok _ _ _ _ _ H2).
    split; [reflexivity|]. split; [|repeat split; eassumption].
    unfold Duration_end. rewrite (bind_get_duration _ _ _ _ D1). cbn [kind].
    unfold FrightenedOneTurnDuration_end. rewrite (bind_get_duration _ _ _ _ D1).
    cbn [target]. rewrite !bind_attr. rewrite (bind_Ok _ _ _ _ _ H3). exact H4.
Qed.

Lemma own_conditions_round_trip_witness :
  round_trip (RecklessDuration_init 0 1) (arena [plain_creature 10] 1)
  /\ round_trip (RestrainedDuration_init 0 12) (arena [plain_creature 10] 1).
Proof.
  destruct (own_conditions_round_trip (arena [plain_creature 10] 1)
              0 (plain_creature 10) 12 1 eq_refl) as (H1 & H2 & _).
  - intros a x (l & Hl & Hx). injection Hl as <-. inversion Hx.
  - split; [exact H1 | exact H2].
Defined.

Lemma remove_first_None v l : v ∉ l -> remove_first v l = None.
Proof.
  induction l as [|x t IH]; intros H; [reflexivity|].
  apply not_elem_of_cons in H as [H1 H2]. cbn [remove_first].
  rewrite decide_False by congruence. rewrite IH by exact H2. reflexivity.
Qed.

Lemma list_remove_absent s i a v c :
  creatures s !! i = Some c -> v ∉ lists c a -> list_remove i a v s = Raise ValueError s.
Proof.
  intros Hc Hv. unfold list_remove.
  rewrite (bind_get_creature _ _ _ _ Hc), (remove_first_None _ _ Hv). reflexivity.
Qed.

(** X14.  [end()] is not idempotent.  For the classes whose [end()] first
    decrements a condition counter of the target, ending an effect that is
    not (or no longer) on the target's list raises [ValueError] from
    [list.remove], and the counter has already been decremented. *)
Theorem end_unregistered_raises s self d t ct k a :
  durations s !! self = Some d ->
  end_counter (kind d) = Some (k, a) ->
  target d = Some t ->
  (applier d = None ->
   kind d = RecklessDuration \/ kind d = RestrainedDuration
   \/ kind d = FrightenedOneTurnDuration) ->
  creatures s !! t = Some ct -> self ∉ lists ct a ->
  Duration_end self s
  = Raise ValueError
      (update_creature t (fun c => set_counter k (counters c k + -1) c) s).
Proof.
  intros Hd Hk Ht Ha Hc Hn.
  assert (Hc1 : creatures (update_creature t
                             (fun c => set_counter k (counters c k + -1) c) s) !! t
                = Some (set_counter k (counters ct k + -1) ct)).
  { rewrite update_creature_lookup_eq, Hc. reflexivity. }
  assert (Hr : list_remove t a self
                 (update_creature t (fun c => set_counter k (counters c k + -1) c) s)
               = Raise ValueError
                   (update_creature t (fun c => set_counter k (counters c k + -1) c) s)).
  { apply (list_remove_absent _ _ _ _ _ Hc1). exact Hn. }
  assert (Hcnt : add_counter t k (-1) s
                 = Ok tt (update_creature t
                            (fun c => set_counter k (counters c k + -1) c) s)).
  { apply add_counter_Ok. eauto. }
  unfold Duration_end. rewrite (bind_get_duration _ _ _ _ Hd).
  destruct (kind d) eqn:Ek; cbn in Hk; try discriminate; injection Hk as <- <-;
    unfold FrightenedDuration_end, FrightenedOneTurnDuration_end, ParalyzedDuration_end,
      PoisonedDuration_end, RecklessDuration_end, RestrainedDuration_end,
      SlowedDuration_end, StunnedDuration_end;
    rewrite (bind_get_duration _ _ _ _ Hd), Ht, bind_attr;
    try (destruct (applier d) as [ap|];
         [rewrite bind_attr
         |destruct (Ha eq_refl) as [E|[E|E]]; discriminate]);
    rewrite (bind_Ok _ _ _ _ _ Hcnt);
    first [exact Hr | apply (bind_Raise _ _ _ _ _ Hr)].
Qed.

Lemma end_unregistered_raises_witness :
  Duration_end 0 ended_arena
  = Raise ValueError
      (update_creature 0
         (fun c => set_counter restrained (counters c restrained + -1) c) ended_arena).
Proof.
  apply (end_unregistered_raises ended_arena 0%nat
           (mkDuration RestrainedDuration None None (Some 0%nat) 12 false false false 0 0
              (ADie d4) acid)
           0%nat (plain_creature 10) restrained start_turn_duration);
    try reflexivity.
  - intros _. right; left; reflexivity.
  - intros H. inversion H.
Defined.

(** ** The clock of an effect *)

Lemma update_duration_twice s i f g :
  update_duration i g (update_duration i f s) = update_duration i (g ∘ f) s.
Proof.
  unfold update_duration; cbn [creatures durations spells rng]. f_equal.
  apply list_alter_alter_eq.
Qed.

Lemma update_duration_ext s i f g :
  (forall x, durations s !! i = Some x -> f x = g x) ->
  update_duration i f s = update_duration i g s.
Proof.
  intros H. unfold update_duration. f_equal.
  apply list_alter_ext; [exact H | reflexivity].
Qed.

Lemma update_duration_same s i d n :
  durations s !! i = Some d -> duration d = Some n ->
  update_duration i (set_duration (Some n)) s = s.
Proof.
  intros Hd Hn. unfold update_duration. destruct s as [cs ds sp g]; cbn in *. f_equal.
  apply list_eq. intros j. destruct (decide (i = j)) as [<-|Hne].
  - rewrite list_lookup_alter_eq, Hd. cbn. f_equal. destruct d; cbn in *. subst. reflexivity.
  - apply list_lookup_alter_ne, Hne.
Qed.

(** One tick of an effect with a clock whose counter does not reach zero. *)
Lemma tick_counts_down s self d n :
  durations s !! self = Some d -> kind d <> GrappleDuration -> duration d = Some n ->
  n <> 1 ->
  tick self s = Ok tt (update_duration self (set_duration (Some (n - 1))) s).
Proof.
  intros Hd Hk Hn Hn1.
  assert (E : tick self s = Duration_tick self s).
  { unfold tick. rewrite (bind_get_duration _ _ _ _ Hd).
    destruct (kind d); try reflexivity. congruence. }
  rewrite E. unfold Duration_tick.
  rewrite (bind_get_duration _ _ _ _ Hd), Hn, bind_attr.
  rewrite (bind_Ok _ _ _ _ _ (modify_duration_Ok _ _ _ _ Hd)).
  rewrite (proj2 (Z.eqb_neq (n - 1) 0)) by lia. reflexivity.
Qed.

Lemma ticks_count_down k : forall s self d n,
  durations s !! self = Some d -> kind d <> GrappleDuration -> duration d = Some n ->
  ~ (1 <= n <= Z.of_nat k) ->
  ticks k self s = Ok tt (update_duration self (set_duration (Some (n - Z.of_nat k))) s).
Proof.
  induction k as [|k IH]; intros s self d n Hd Hk Hn Hr; cbn [ticks].
  - rewrite Z.sub_0_r. rewrite (update_duration_same _ _ _ _ Hd Hn). reflexivity.
  - rewrite (bind_Ok _ _ _ _ _ (tick_counts_down _ _ _ _ Hd Hk Hn ltac:(lia))).
    rewrite (IH _ self (set_duration (Some (n - 1)) d) (n - 1)).
    + rewrite update_duration_twice. f_equal. apply update_duration_ext.
      intros x _. unfold compose. destruct x; unfold set_duration; cbn.
      do 2 f_equal. lia.
    + rewrite update_duration_lookup, decide_True, Hd; reflexivity.
    + exact Hk.
    + reflexivity.
    + lia.
Qed.

(** X15.  The clock of an effect.  For every class but [GrappleDuration],
    [k] ticks of an effect with duration [n] only count the duration down to
    [n - k] as long as the count does not pass through zero, so that an
    effect created with a duration of zero or less never expires; and the
    [n]-th tick of an effect with a duration of [n >= 1] sets the duration
    to 0 and calls [end()]. *)
Theorem tick_countdown s self d n :
  durations s !! self = Some d -> kind d <> GrappleDuration -> duration d = Some n ->
  (forall k, ~ (1 <= n <= Z.of_nat k) ->
     ticks k self s
     = Ok tt (update_duration self (set_duration (Some (n - Z.of_nat k))) s))
  /\ (1 <= n ->
      (ticks (Z.to_nat n - 1) self >> tick self) s
      = Duration_end self (update_duration self (set_duration (Some 0)) s)).
Proof.
  intros Hd Hk Hn. split.
  - intros k Hr. apply (ticks_count_down k s self d n Hd Hk Hn Hr).
  - intros H1.
    rewrite (bind_Ok _ _ _ _ _
               (ticks_count_down (Z.to_nat n - 1) s self d n Hd Hk Hn ltac:(lia))).
    replace (n - Z.of_nat (Z.to_nat n - 1)) with 1 by lia.
    set (s1 := update_duration self (set_duration (Some 1)) s).
    assert (Hd1 : durations s1 !! self = Some (set_duration (Some 1) d)).
    { unfold s1. rewrite update_duration_lookup, decide_True, Hd; reflexivity. }
    unfold tick. rewrite (bind_get_duration _ _ _ _ Hd1).
    assert (E : forall m, match kind (set_duration (Some 1) d) with
                          | GrappleDuration => ret tt
                          | _ => m
                          end = m).
    { intros m. cbn [kind set_duration]. destruct (kind d); try reflexivity. congruence. }
    rewrite E. unfold Duration_tick.
    rewrite (bind_get_duration _ _ _ _ Hd1). cbn [duration set_duration].
    rewrite bind_attr.
    rewrite (bind_Ok _ _ _ _ _ (modify_duration_Ok _ _ _ _ Hd1)).
    cbn [Z.sub Z.add Z.opp Z.pos_sub Z.eqb when]. unfold s1.
    rewrite update_duration_twice. reflexivity.
Qed.

Lemma tick_countdown_witness :
  ticks 7 0 (reckless_arena 0)
  = Ok tt (update_duration 0 (set_duration (Some (0 - 7))) (reckless_arena 0))
  /\ (ticks (Z.to_nat 3 - 1) 0 >> tick 0) (reckless_arena 3)
     = Duration_end 0 (update_duration 0 (set_duration (Some 0)) (reckless_arena 3)).
Proof.
  split.
  - apply (proj1 (tick_countdown (reckless_arena 0) 0%nat
                    (mkDuration RecklessDuration (Some 0) None (Some 0%nat) 0
                       false false false 0 0 (ADie d4) acid) 0
                    eq_refl ltac:(discriminate) eq_refl) 7%nat).
    cbn. lia.
  - apply (proj2 (tick_countdown (reckless_arena 3) 0%nat
                    (mkDuration RecklessDuration (Some 3) None (Some 0%nat) 0
                       false false false 0 0 (ADie d4) acid) 3
                    eq_refl ltac:(discriminate) eq_refl)).
    lia.
Defined.

(** ** Incapacitating conditions and concentration *)

Lemma timed_condition_init_ops s0 k self target_ applier_ ct :
  creatures s0 !! target_ = Some ct -> is_Some (creatures s0 !! applier_) ->
  exists sa sb s1,
    add_counter target_ k 1 s0 = Ok tt sa
    /\ list_append target_ end_turn_duration self sa = Ok tt sb
    /\ list_append applier_ start_turn_duration self sb = Ok tt s1
    /\ durations s1 = durations s0 /\ spells s1 = spells s0 /\ rng s1 = rng s0
    /\ field (fun c => counters c k) s1 target_ = Some (counters ct k + 1)
    /\ field (fun c => lists c end_turn_duration) s1 target_
       = Some (lists ct end_turn_duration ++ [self])
    /\ (forall A (g : Creature -> A),
          (forall c a v, a <> spirit_guardians -> g (set_list a v c) = g c) ->
          (forall c k v, g (set_counter k v c) = g c) ->
          forall j, field g s1 j = field g s0 j).
Proof.
  intros Hct Va.
  assert (Vt : is_Some (creatures s0 !! target_)) by eauto.
  set (sa := update_creature target_ (fun c => set_counter k (counters c k + 1) c) s0).
  set (sb := update_creature target_
               (fun c => set_list end_turn_duration (lists c end_turn_duration ++ [self]) c) sa).
  set (s1 := update_creature applier_
               (fun c => set_list start_turn_duration
                           (lists c start_turn_duration ++ [self]) c) sb).
  exists sa, sb, s1.
  split; [apply add_counter_Ok, Vt|].
  split; [apply list_append_Ok; unfold sa; apply valid_update_2, Vt|].
  split; [apply list_append_Ok; unfold sb, sa; do 2 apply valid_update_2; exact Va|].
  do 3 (split; [reflexivity|]). split; [|split].
  - unfold s1, sb, sa. rewrite !field_update_frame by reflexivity.
    rewrite field_update_eq. unfold field. rewrite Hct. cbn.
    rewrite decide_True by reflexivity. reflexivity.
  - unfold s1, sb, sa. rewrite field_update_frame by reflexivity.
    rewrite field_update_eq.
    rewrite (field_update_frame (fun c => lists (set_list end_turn_duration
               (lists c end_turn_duration ++ [self]) c) end_turn_duration))
      by reflexivity.
    unfold field. rewrite Hct. reflexivity.
  - intros A g Hl Hk j. unfold s1, sb, sa.
    rewrite !field_update_frame; [reflexivity | | |]; intros c;
      first [apply Hk | apply Hl; discriminate].
Qed.

(** X16.  The constructors of the paralyzed and of the stunned condition end
    the concentration spell of the target: on a target that concentrates on
    a spell that can be ended, they return with the target's concentration
    cleared, the condition counter raised by one and the effect registered
    last on the target's end-of-turn list. *)
Theorem incapacitation_breaks_concentration s applier_ target_ ct sp save_dc max_duration :
  creatures s !! target_ = Some ct -> is_Some (creatures s !! applier_) ->
  slots ct concentration = Some sp -> spell_wf s target_ sp ->
  (exists s',
     ParalyzedDuration_init applier_ target_ save_dc max_duration s
     = Ok (length (durations s)) s'
     /\ field (fun c => slots c concentration) s' target_ = Some None
     /\ field (fun c => counters c paralyzed) s' target_ = Some (counters ct paralyzed + 1)
     /\ field (fun c => lists c end_turn_duration) s' target_
        = Some (lists ct end_turn_duration ++ [length (durations s)]))
  /\ (exists s',
        StunnedDuration_init applier_ target_ save_dc max_duration s
        = Ok (length (durations s)) s'
        /\ field (fun c => slots c concentration) s' target_ = Some None
        /\ field (fun c => counters c stunned) s' target_ = Some (counters ct stunned + 1)
        /\ field (fun c => lists c end_turn_duration) s' target_
           = Some (lists ct end_turn_duration ++ [length (durations s)])).
Proof.
  intros Hct Va Hsp Hwf.
  assert (Hgen : forall k dd,
            k = paralyzed \/ k = stunned ->
            exists s',
              (add_counter target_ k 1 >>
               list_append target_ end_turn_duration (length (durations s)) >>
               list_append applier_ start_turn_duration (length (durations s)) >>
               break_concentration target_ >>
               ret (length (durations s)))
                (mkStore (creatures s) (durations s ++ [dd]) (spells s) (rng s))
              = Ok (length (durations s)) s'
              /\ field (fun c => slots c concentration) s' target_ = Some None
              /\ field (fun c => counters c k) s' target_ = Some (counters ct k + 1)
              /\ field (fun c => lists c end_turn_duration) s' target_
                 = Some (lists ct end_turn_duration ++ [length (durations s)])).
  { intros k dd Hk.
    set (s0 := mkStore (creatures s) (durations s ++ [dd]) (spells s) (rng s)).
    destruct (timed_condition_init_ops s0 k (length (durations s)) target_ applier_ ct
                Hct Va)
      as (sa & sb & s1 & H1 & H2 & H3 & _ & S1 & _ & C1 & L1 & F1).
    rewrite (bind_Ok _ _ _ _ _ H1), (bind_Ok _ _ _ _ _ H2), (bind_Ok _ _ _ _ _ H3).
    assert (Hslot : field (fun c => slots c concentration) s1 target_ = Some (Some sp)).
    { rewrite F1 by reflexivity. unfold field, s0; cbn [creatures].
      rewrite Hct, <- Hsp. reflexivity. }
    assert (Hwf1 : spell_wf s1 target_ sp).
    { apply (spell_wf_frame s s1); [exact S1 | | | exact Hwf].
      - intros j. rewrite F1 by reflexivity. reflexivity.
      - intros j. rewrite F1; [reflexivity | | reflexivity].
        intros c a v Ha. cbn. rewrite decide_False by congruence. reflexivity. }
    destruct (Spell_end_Ok s1 target_ sp Hwf1) as (s' & He & Hc').
    assert (Hb : break_concentration target_ s1 = Ok tt s').
    { unfold break_concentration, field in *.
      destruct (creatures s1 !! target_) as [c1|] eqn:Hc1; [|discriminate].
      injection Hslot as Hslot. rewrite (bind_get_creature _ _ _ _ Hc1), Hslot. exact He. }
    rewrite (bind_Ok _ _ _ _ _ Hb). exists s'. split; [reflexivity|].
    split; [exact Hc'|]. split.
    - refine (preserves_Ok _ _ _ _ _ (Spell_end_frame_counter sp k target_ _ _ _ _) C1 He);
        destruct Hk as [-> | ->]; discriminate.
    - refine (preserves_Ok _ _ _ _ _ (Spell_end_frame _ _ _ _ _) L1 He).
      repeat split; intros; reflexivity. }
  split.
  - unfold ParalyzedDuration_init. rewrite bind_alloc. apply Hgen. left; reflexivity.
  - unfold StunnedDuration_init. rewrite bind_alloc. apply Hgen. right; reflexivity.
Qed.

Lemma incapacitation_breaks_concentration_witness :
  exists s',
    ParalyzedDuration_init 0 0 13 10 concentrating_arena = Ok 0%nat s'
    /\ field (fun c => slots c concentration) s' 0 = Some None
    /\ field (fun c => counters c paralyzed) s' 0 = Some (0 + 1).
Proof.
  destruct (incapacitation_breaks_concentration concentrating_arena 0 0
              (concentrating_creature 20) 0%nat 13 10 eq_refl)
    as [(s' & H1 & H2 & H3 & _) _].
  - eexists; reflexivity.
  - reflexivity.
  - exists (mkSpell 0 (Bless [])). repeat split; try reflexivity.
    + eexists; reflexivity.
    + constructor.
  - exists s'. split; [exact H1|]. split; [exact H2 | exact H3].
Defined.

(** ** Turn Undead *)

(** X17.  Any hit ends Turn Undead, also one that deals no damage.  When
    [take_damage] is called on a turned creature of the base class that
    survives and does not concentrate, the turning effect is ended: the
    creature is no longer turned and the effect leaves the start-of-turn list
    of the turner, whatever the damage taken (zero for an immune creature). *)
Theorem any_hit_ends_turning s self c p pt dealer ranged d dd turner l l' :
  creatures s !! self = Some c -> klass c = Generic ->
  0 < hp c -> mitigated (traits c) pt p < hp c ->
  slots c concentration = None -> slots c turned = Some d ->
  durations s !! d = Some dd -> kind dd = TurnUndeadDuration ->
  target dd = Some self -> applier dd = Some turner ->
  field (fun c => lists c start_turn_duration) s turner = Some l ->
  remove_first d l = Some l' ->
  exists s',
    take_damage self p pt dealer ranged 0 None s = Ok (mitigated (traits c) pt p, 0) s'
    /\ field (fun c => slots c turned) s' self = Some None
    /\ field (fun c => lists c start_turn_duration) s' turner = Some l'
    /\ field hp s' self = Some (hp c - mitigated (traits c) pt p).
Proof.
  intros Hc Hk Hhp Hm Hconc Hturn Hd Hkd Ht Ha Hl Hr.
  pose proof (mitigated_nonneg (traits c) pt p) as H0.
  assert (H1 : exists s1 c1,
             take_damage_type self p pt s = Ok (mitigated (traits c) pt p) s1
             /\ creatures s1 !! self = Some c1
             /\ hp c1 = hp c - mitigated (traits c) pt p
             /\ slots c1 = slots c
             /\ durations s1 = durations s
             /\ field (fun c => lists c start_turn_duration) s1 turner = Some l).
  { rewrite (take_damage_type_unfold _ _ _ _ _ Hc).
    destruct (Z.eqb_spec (mitigated (traits c) pt p) 0) as [E|E].
    - exists s, c. rewrite E. repeat split; auto. lia.
    - eexists _, _. split; [reflexivity|].
      rewrite update_creature_lookup_eq, Hc. split; [reflexivity|].
      cbn [hp set_hp]. split; [lia|]. do 2 (split; [reflexivity|]).
      rewrite field_update_frame by reflexivity. exact Hl. }
  destruct H1 as (s1 & c1 & H1 & Hc1 & Hhp1 & Hs1 & Hd1 & Hl1).
  unfold take_damage. rewrite (bind_get_creature _ _ _ _ Hc), Hk.
  unfold Creature_take_damage.
  rewrite (bind_Ok _ _ _ _ _ H1), bind_ret.
  rewrite (bind_get_creature _ _ _ _ Hc1).
  rewrite (proj2 (Z.eqb_neq (hp c1) 0)) by lia. cbn [when]. rewrite bind_ret.
  rewrite (bind_get_creature _ _ _ _ Hc1), Hs1, Hconc.
  rewrite bool_decide_eq_false_2 by (intros H; apply H; reflexivity).
  cbn [andb]. rewrite bind_ret.
  rewrite (bind_get_creature _ _ _ _ Hc1), Hs1, Hturn.
  assert (Hd' : durations s1 !! d = Some dd) by (rewrite Hd1; exact Hd).
  set (s2 := update_creature self (set_slot turned None) s1).
  assert (He : Duration_end d s1
               = Ok tt (update_creature turner (set_list start_turn_duration l') s2)).
  { unfold Duration_end. rewrite (bind_get_duration _ _ _ _ Hd'), Hkd.
    unfold TurnUndeadDuration_end.
    rewrite (bind_get_duration _ _ _ _ Hd'), Ht, Ha, !bind_attr.
    rewrite bind_modify_creature by (rewrite Hc1; eauto).
    apply (list_remove_Ok _ _ _ _ l); [|exact Hr].
    unfold s2. rewrite field_update_frame by reflexivity. exact Hl1. }
  rewrite (bind_Ok _ _ _ _ _ He). eexists. split; [reflexivity|].
  split; [|split].
  - rewrite field_update_frame by reflexivity.
    unfold s2. rewrite field_update_eq. unfold field. rewrite Hc1. reflexivity.
  - rewrite field_update_eq. unfold field in *.
    destruct (creatures s2 !! turner) as [x|] eqn:Hx.
    + cbn. rewrite decide_True by reflexivity. reflexivity.
    + exfalso. unfold s2 in Hx.
      assert (V : is_Some (creatures (update_creature self (set_slot turned None) s1)
                             !! turner)).
      { apply valid_update_2. destruct (creatures s1 !! turner); [eauto | discriminate]. }
      rewrite Hx in V. destruct V; discriminate.
  - rewrite field_update_frame by reflexivity.
    unfold s2. rewrite field_update_frame by reflexivity.
    unfold field. rewrite Hc1. cbn. f_equal. exact Hhp1.
Qed.

Lemma any_hit_ends_turning_witness :
  exists s',
    take_damage 0 7 fire None false 0 None turned_arena = Ok (0, 0) s'
    /\ field (fun c => slots c turned) s' 0 = Some None
    /\ field (fun c => lists c start_turn_duration) s' 1 = Some [].
Proof.
  destruct (any_hit_ends_turning turned_arena 0 fire_immune_turned 7 fire None false
              0%nat turning_1_0 1%nat [0%nat] [] eq_refl eq_refl)
    as (s' & H1 & H2 & H3 & _); try reflexivity; try (vm_compute; congruence).
  exists s'. split; [exact H1|]. split; [exact H2 | exact H3].
Defined.

(** ** Shield of Faith *)

(** X18.  [ShieldOfFaith.end] cannot end the spell of a verbose caster: it
    raises [NameError] before any assignment, so the caster keeps
    concentrating and keeps the bonus to its armor class; and a verbose
    caster of the base class that falls unconscious while concentrating on
    Shield of Faith is set prone and then the call raises.  For a caster
    that is not verbose the spell ends: the concentration is cleared and the
    armor class loses the 2 points. *)
Theorem shield_of_faith_end s sp_id sp c :
  spells s !! sp_id = Some sp -> effect sp = ShieldOfFaith ->
  creatures s !! caster sp = Some c ->
  (verbose c = true ->
   Spell_end sp_id s = Raise NameError s
   /\ (klass c = Generic -> death_ward c = false -> lists c grappling = [] ->
       slots c concentration = Some sp_id ->
       fall_unconscious (caster sp) s
       = Raise NameError (update_creature (caster sp) (set_prone true) s)))
  /\ (verbose c = false ->
      Spell_end sp_id s
      = Ok tt (update_creature (caster sp)
                 (fun c => set_base_armor_class (base_armor_class c - 2)
                             (set_slot concentration None c)) s)).
Proof.
  intros Hsp He Hc. split.
  - intros Hv.
    assert (Hend : forall s0 c0, spells s0 = spells s ->
              creatures s0 !! caster sp = Some c0 -> verbose c0 = true ->
              Spell_end sp_id s0 = Raise NameError s0).
    { intros s0 c0 Hs0 Hc0 Hv0. unfold Spell_end.
      assert (Hsp0 : spells s0 !! sp_id = Some sp) by (rewrite Hs0; exact Hsp).
      rewrite (bind_get_spell _ _ _ _ Hsp0), He.
      rewrite (bind_get_creature _ _ _ _ Hc0), Hv0. reflexivity. }
    split; [apply (Hend s c eq_refl Hc Hv)|].
    intros Hk Hw Hg Hconc.
    unfold fall_unconscious. rewrite (bind_get_creature _ _ _ _ Hc), Hk.
    unfold Creature_fall_unconscious.
    rewrite (bind_get_creature _ _ _ _ Hc), Hw. cbn [andb].
    rewrite bind_modify_creature by (rewrite Hc; eauto).
    set (s1 := update_creature (caster sp) (set_prone true) s).
    assert (Hc1 : creatures s1 !! caster sp = Some (set_prone true c)).
    { unfold s1. rewrite update_creature_lookup_eq, Hc. reflexivity. }
    rewrite (bind_get_creature _ _ _ _ Hc1). cbn [lists set_prone]. rewrite Hg.
    cbn [for_each]. rewrite bind_ret.
    rewrite (bind_get_creature _ _ _ _ Hc1). cbn [slots set_prone]. rewrite Hconc.
    apply (Hend s1 (set_prone true c) eq_refl Hc1 Hv).
  - intros Hv. unfold Spell_end.
    rewrite (bind_get_spell _ _ _ _ Hsp), He.
    rewrite (bind_get_creature _ _ _ _ Hc), Hv. cbn [when]. rewrite bind_ret.
    rewrite bind_modify_creature by (rewrite Hc; eauto).
    rewrite modify_creature_valid by (apply valid_update_2; rewrite Hc; eauto).
    rewrite update_creature_twice. reflexivity.
Qed.

Lemma shield_of_faith_end_witness :
  Spell_end 0 shielded_arena = Raise NameError shielded_arena
  /\ fall_unconscious 0 shielded_arena
     = Raise NameError (update_creature 0 (set_prone true) shielded_arena).
Proof.
  destruct (shield_of_faith_end shielded_arena 0 (mkSpell 0 ShieldOfFaith) verbose_caster
              eq_refl eq_refl eq_refl) as [H _].
  destruct (H eq_refl) as [H1 H2].
  split; [exact H1|]. apply H2; reflexivity.
Defined.

(** ** Conditions and hit points *)

Lemma alloc_duration_keeps_hp d : keeps_hp (alloc_duration d).
Proof. intros v s H. exact H. Qed.

Ltac keeps_hp_init :=
  intros ?;
  apply preserves_bind; [apply alloc_duration_keeps_hp | intros ?];
  unfold break_concentration, Spell_end; pres hp_leaf.

(** X19.  The conditions of [duration.py] never touch hit points.  The
    [end()] method of each of the thirteen effect classes of [duration.py],
    the [end()] of the five concentration spells (Bane, Bless, Greater
    Invisibility, Shield of Faith, Spirit Guardians), a saving throw, a skill
    check, an attempt to escape a grapple and the constructors of the
    condition classes of [duration.py] leave the hit points and the maximum
    hit points of every creature as they are, whether the call returns or
    raises.  (Effect classes defined outside [duration.py] are not covered:
    some of them deal damage when they end.) *)
Theorem conditions_keep_hit_points :
  (forall effect, keeps_hp (BleedingDuration_end effect))
  /\ (forall effect, keeps_hp (EngulfedDuration_end effect))
  /\ (forall effect, keeps_hp (FrightenedDuration_end effect))
  /\ (forall effect, keeps_hp (FrightenedOneTurnDuration_end effect))
  /\ (forall effect, keeps_hp (GrappleDuration_end effect))
  /\ (forall effect, keeps_hp (ParalyzedDuration_end effect))
  /\ (forall effect, keeps_hp (PoisonedDuration_end effect))
  /\ (forall effect, keeps_hp (RecklessDuration_end effect))
  /\ (forall effect, keeps_hp (RestrainedDuration_end effect))
  /\ (forall effect, keeps_hp (SlowedDuration_end effect))
  /\ (forall effect, keeps_hp (StunnedDuration_end effect))
  /\ (forall effect, keeps_hp (SwallowedDuration_end effect))
  /\ (forall effect, keeps_hp (TurnUndeadDuration_end effect))
  /\ (forall spell, keeps_hp (Spell_end spell))
  /\ (forall creature ability dc adv disadv save_type,
        keeps_hp (saving_throw creature ability dc adv disadv save_type))
  /\ (forall creature skill dc adv disadv,
        keeps_hp (skill_check creature skill dc adv disadv))
  /\ (forall creature adv, keeps_hp (escape_grapple creature adv))
  /\ (forall a t dc n, keeps_hp (FrightenedDuration_init a t dc n))
  /\ (forall t, keeps_hp (FrightenedOneTurnDuration_init t))
  /\ (forall a t r st ep, keeps_hp (GrappleDuration_init a t r st ep))
  /\ (forall a t dc n, keeps_hp (ParalyzedDuration_init a t dc n))
  /\ (forall a t dc n, keeps_hp (StunnedDuration_init a t dc n))
  /\ (forall a t dc, keeps_hp (SlowedDuration_init a t dc))
  /\ (forall t n, keeps_hp (RecklessDuration_init t n))
  /\ (forall t dc, keeps_hp (RestrainedDuration_init t dc))
  /\ (forall a t th dc, keeps_hp (SwallowedDuration_init a t th dc))
  /\ (forall a t, keeps_hp (TurnUndeadDuration_init a t)).
Proof.
  assert (Hsave : forall creature ability dc adv disadv save_type,
            keeps_hp (saving_throw creature ability dc adv disadv save_type))
    by exact saving_throw_keeps_hp.
  assert (Hskill : forall creature skill adv disadv,
            keeps_hp (roll_skill creature skill adv disadv)).
  { intros. unfold roll_skill. keeps_hp_tac. }
  do 13 (split; [intros effect;
                 unfold BleedingDuration_end, EngulfedDuration_end,
                   FrightenedDuration_end, FrightenedOneTurnDuration_end,
                   GrappleDuration_end, ParalyzedDuration_end, PoisonedDuration_end,
                   RecklessDuration_end, RestrainedDuration_end, SlowedDuration_end,
                   StunnedDuration_end, SwallowedDuration_end, TurnUndeadDuration_end;
                 keeps_hp_tac|]).
  split; [exact Spell_end_keeps_hp|].
  split; [exact Hsave|].
  split.
  { intros creature skill dc adv disadv v. unfold skill_check.
    repeat first [apply Hskill | pres_step hp_leaf]. }
  split.
  { intros creature adv v. unfold escape_grapple.
    repeat first [apply Hskill | pres_step hp_leaf]. }
  unfold FrightenedDuration_init, FrightenedOneTurnDuration_init, GrappleDuration_init,
    ParalyzedDuration_init, StunnedDuration_init, SlowedDuration_init,
    RecklessDuration_init, RestrainedDuration_init, SwallowedDuration_init,
    TurnUndeadDuration_init.
  repeat split; intros; keeps_hp_init.
Qed.

(** ** Sides and targets of an encounter *)

Lemma with_positive_hp_Ok s side :
  Forall (fun i => is_Some (creatures s !! i)) side ->
  with_positive_hp side s = Ok (filter (fun i => has_positive_hp s i = true) side) s.
Proof.
  induction 1 as [|i t [c Hc] Ht IH]; cbn [with_positive_hp]; [reflexivity|].
  rewrite (bind_get_creature _ _ _ _ Hc), (bind_Ok _ _ _ _ _ IH). unfold ret. f_equal.
  destruct (0 <? hp c) eqn:E.
  - rewrite filter_cons_True; [reflexivity|]. unfold has_positive_hp. rewrite Hc. exact E.
  - rewrite filter_cons_False; [reflexivity|]. unfold has_positive_hp. rewrite Hc, E.
    discriminate.
Qed.

Lemma has_positive_hp_spec s i :
  has_positive_hp s i = true <-> exists c, creatures s !! i = Some c /\ 0 < hp c.
Proof.
  unfold has_positive_hp. destruct (creatures s !! i) as [c|].
  - rewrite Z.ltb_lt. split; [eauto|]. intros (c' & E & H). injection E as <-. exact H.
  - split; [discriminate|]. intros (c' & E & _). discriminate.
Qed.

Lemma choice_Ok s a :
  a <> [] -> exists t g, choice a s = Ok t (set_rng g s) /\ t ∈ a.
Proof.
  intros Ha. unfold choice. rewrite with_rng_Ok.
  pose proof (integers_range 0 (Z.of_nat (length a) - 1) (rng s)) as Hr.
  destruct (integers 0 (Z.of_nat (length a) - 1) (rng s)) as [k g']; cbn [fst snd] in *.
  assert (Hlen : (0 < length a)%nat) by (destruct a; [congruence | cbn; lia]).
  exists (nth (Z.to_nat k) a 0%nat), g'. split; [reflexivity|].
  apply list_elem_of_In, nth_In. lia.
Qed.

(** X20.  [choose_target] for one target.  A chooser that is not swallowed
    gets a foe (an ally when [target_allies] is set) with positive hit
    points, and [None], without a draw, exactly when there is none; a
    swallowed chooser always gets its swallower, whatever the side and the
    hit points of the swallower. *)
Theorem choose_target_valid s side_A side_B chooser c (target_allies : bool) :
  creatures s !! chooser = Some c ->
  Forall (fun i => is_Some (creatures s !! i)) (side_A ++ side_B) ->
  let pool := if target_allies then get_allies side_A side_B chooser
              else get_foes side_A side_B chooser in
  (slots c swallowed = None ->
   exists r g,
     choose_target side_A side_B chooser target_allies s = Ok r (set_rng g s)
     /\ match r with
        | Some t => t ∈ pool /\ exists ct, creatures s !! t = Some ct /\ 0 < hp ct
        | None =>
            g = rng s
            /\ forall t ct, t ∈ pool -> creatures s !! t = Some ct -> hp ct <= 0
        end)
  /\ (forall d dd swallower,
        slots c swallowed = Some d -> durations s !! d = Some dd ->
        applier dd = Some swallower ->
        exists g,
          choose_target side_A side_B chooser target_allies s
          = Ok (Some swallower) (set_rng g s)).
Proof.
  intros Hc Hall pool. apply Forall_app in Hall as [HA HB]. split.
  - intros Hsw. unfold choose_target.
    rewrite (bind_get_creature _ _ _ _ Hc), Hsw.
    assert (Hpool : Forall (fun i => is_Some (creatures s !! i)) pool).
    { unfold pool, get_allies, get_foes.
      destruct target_allies, (bool_decide (chooser ∈ side_A)); assumption. }
    assert (E : (if target_allies
                 then with_positive_hp (get_allies side_A side_B chooser)
                 else with_positive_hp (get_foes side_A side_B chooser)) s
                = Ok (filter (fun i => has_positive_hp s i = true) pool) s).
    { unfold pool. destruct target_allies; apply with_positive_hp_Ok; exact Hpool. }
    rewrite (bind_Ok _ _ _ _ _ E).
    set (valid := filter (fun i => has_positive_hp s i = true) pool).
    destruct (bool_decide (length valid = 0%nat)) eqn:El.
    + apply bool_decide_eq_true in El. apply nil_length_inv in El.
      exists None, (rng s). split; [unfold ret, set_rng; destruct s; reflexivity|].
      split; [reflexivity|]. intros t ct Ht Hct.
      destruct (Z_le_gt_dec (hp ct) 0) as [H|H]; [exact H|].
      assert (Hin : t ∈ valid).
      { apply list_elem_of_filter. split; [|exact Ht].
        apply has_positive_hp_spec. exists ct. split; [exact Hct | lia]. }
      rewrite El in Hin. inversion Hin.
    + apply bool_decide_eq_false in El.
      destruct (choice_Ok s valid) as (t & g & Hch & Hin).
      { intros E0. apply El. rewrite E0. reflexivity. }
      exists (Some t), g. rewrite (bind_Ok _ _ _ _ _ Hch). split; [reflexivity|].
      apply list_elem_of_filter in Hin as [Hp Hin]. split; [exact Hin|].
      apply has_positive_hp_spec, Hp.
  - intros d dd swallower Hsw Hd Ha. unfold choose_target.
    rewrite (bind_get_creature _ _ _ _ Hc), Hsw.
    rewrite bind_assoc, (bind_get_duration _ _ _ _ Hd), Ha.
    rewrite bind_assoc, bind_attr, bind_ret. cbn [length bool_decide].
    rewrite bool_decide_eq_false_2 by discriminate.
    destruct (choice_Ok s [swallower] ltac:(discriminate)) as (t & g & Hch & Hin).
    apply list_elem_of_singleton in Hin as ->.
    exists g. rewrite (bind_Ok _ _ _ _ _ Hch). reflexivity.
Qed.

Lemma choose_target_valid_witness :
  exists r g,
    choose_target [0%nat] [1%nat; 2%nat] 0 false
      (arena [plain_creature 10; plain_creature 0; plain_creature 5] 1)
    = Ok r (set_rng g (arena [plain_creature 10; plain_creature 0; plain_creature 5] 1))
    /\ match r with
       | Some t =>
           t ∈ [1%nat; 2%nat]
           /\ exists ct,
                creatures (arena [plain_creature 10; plain_creature 0; plain_creature 5] 1)
                  !! t = Some ct /\ 0 < hp ct
       | None =>
           g = rng (arena [plain_creature 10; plain_creature 0; plain_creature 5] 1)
           /\ forall t ct,
                t ∈ [1%nat; 2%nat] ->
                creatures (arena [plain_creature 10; plain_creature 0; plain_creature 5] 1)
                  !! t = Some ct -> hp ct <= 0
       end.
Proof.
  apply (proj1 (choose_target_valid
                  (arena [plain_creature 10; plain_creature 0; plain_creature 5] 1)
                  [0%nat] [1%nat; 2%nat] 0 (plain_creature 10) false eq_refl
                  ltac:(repeat constructor; eexists; reflexivity))).
  reflexivity.
Defined.

(** X21.  Allies and foes.  A creature of side A has side A as allies and
    side B as foes; every other creature, also one that is on neither side,
    has side B as allies and side A as foes.  When the sides are disjoint,
    being a foe is symmetric among the creatures of the encounter, every
    such creature is its own ally and none is its own foe. *)
Theorem foes_symmetric (side_A side_B : list nat) :
  (forall c, c ∈ side_A ->
     get_allies side_A side_B c = side_A /\ get_foes side_A side_B c = side_B)
  /\ (forall c, c ∉ side_A ->
        get_allies side_A side_B c = side_B /\ get_foes side_A side_B c = side_A)
  /\ ((forall c, c ∈ side_A -> c ∉ side_B) ->
      forall c c', c ∈ side_A ++ side_B -> c' ∈ side_A ++ side_B ->
        (c' ∈ get_foes side_A side_B c <-> c ∈ get_foes side_A side_B c')
        /\ c ∈ get_allies side_A side_B c
        /\ c ∉ get_foes side_A side_B c).
Proof.
  unfold get_allies, get_foes. split; [|split].
  - intros c Hc. rewrite bool_decide_eq_true_2 by exact Hc. split; reflexivity.
  - intros c Hc. rewrite bool_decide_eq_false_2 by exact Hc. split; reflexivity.
  - intros Hdis c c' Hc Hc'.
    apply elem_of_app in Hc. apply elem_of_app in Hc'.
    destruct (decide (c ∈ side_A)) as [HA|HA];
      destruct (decide (c' ∈ side_A)) as [HA'|HA'];
      rewrite ?(bool_decide_eq_true_2 _ HA), ?(bool_decide_eq_false_2 _ HA),
        ?(bool_decide_eq_true_2 _ HA'), ?(bool_decide_eq_false_2 _ HA');
      pose proof (Hdis c) as Hd; pose proof (Hdis c') as Hd';
      repeat split; try tauto;
      try (intros H; tauto).
Qed.

Lemma foes_symmetric_witness :
  (2%nat ∈ get_foes [0%nat; 1%nat] [2%nat] 0 <-> 0%nat ∈ get_foes [0%nat; 1%nat] [2%nat] 2)
  /\ 0%nat ∈ get_allies [0%nat; 1%nat] [2%nat] 0
  /\ 0%nat ∉ get_foes [0%nat; 1%nat] [2%nat] 0.
Proof.
  apply (proj2 (proj2 (foes_symmetric [0%nat; 1%nat] [2%nat]))).
  - intros c Hc Hc'. apply list_elem_of_singleton in Hc' as ->.
    apply elem_of_cons in Hc as [Hc|Hc]; [discriminate|].
    apply list_elem_of_singleton in Hc. discriminate.
  - apply elem_of_app. left. left.
  - apply elem_of_app. right. left.
Defined.

Lemma alive_flags_Ok s side :
  Forall (fun i => is_Some (creatures s !! i)) side ->
  alive_flags side s = Ok (has_positive_hp s <$> side) s.
Proof.
  induction 1 as [|i t [c Hc] Ht IH]; cbn [alive_flags]; [reflexivity|].
  rewrite (bind_get_creature _ _ _ _ Hc), (bind_Ok _ _ _ _ _ IH). unfold ret.
  cbn [fmap list_fmap]. unfold has_positive_hp at 2. rewrite Hc. reflexivity.
Qed.

Lemma numpy_any_spec s side :
  numpy_any (has_positive_hp s <$> side) = true
  <-> exists i c, i ∈ side /\ creatures s !! i = Some c /\ 0 < hp c.
Proof.
  unfold numpy_any. rewrite existsb_exists. split.
  - intros (b & Hin & Hb). apply list_elem_of_In, list_elem_of_fmap in Hin as (i & -> & Hi).
    apply has_positive_hp_spec in Hb as (c & Hc & Hp). eauto.
  - intros (i & c & Hi & Hc & Hp). exists true. split; [|reflexivity].
    apply list_elem_of_In, list_elem_of_fmap. exists i. split; [|exact Hi].
    symmetry. apply has_positive_hp_spec. eauto.
Qed.

(** X22.  [Encounter.active] returns, changes nothing, and answers true
    exactly when each side has a creature with positive hit points; so an
    encounter with an empty side is never active. *)
Theorem Encounter_active_spec s side_A side_B :
  Forall (fun i => is_Some (creatures s !! i)) (side_A ++ side_B) ->
  exists b,
    Encounter_active side_A side_B s = Ok b s
    /\ (b = true <->
        (exists i c, i ∈ side_A /\ creatures s !! i = Some c /\ 0 < hp c)
        /\ (exists i c, i ∈ side_B /\ creatures s !! i = Some c /\ 0 < hp c))
    /\ (side_A = [] \/ side_B = [] -> b = false).
Proof.
  intros Hall. apply Forall_app in Hall as [HA HB].
  unfold Encounter_active. rewrite (bind_Ok _ _ _ _ _ (alive_flags_Ok s side_A HA)).
  pose proof (numpy_any_spec s side_A) as SA.
  pose proof (numpy_any_spec s side_B) as SB.
  destruct (numpy_any (has_positive_hp s <$> side_A)) eqn:EA.
  - rewrite (bind_Ok _ _ _ _ _ (alive_flags_Ok s side_B HB)).
    exists (numpy_any (has_positive_hp s <$> side_B)). split; [reflexivity|]. split.
    + rewrite SB. split; [intros H; split; [apply SA; reflexivity | exact H] | tauto].
    + intros [-> | ->]; [discriminate | reflexivity].
  - exists false. split; [reflexivity|]. split.
    + split; [discriminate|]. intros [H _]. apply SA in H. discriminate.
    + reflexivity.
Qed.

Lemma Encounter_active_spec_witness :
  exists b,
    Encounter_active [0%nat] [] (arena [plain_creature 10] 1)
    = Ok b (arena [plain_creature 10] 1)
    /\ b = false.
Proof.
  destruct (Encounter_active_spec (arena [plain_creature 10] 1) [0%nat] [])
    as (b & H1 & _ & H3).
  - repeat constructor. eexists; reflexivity.
  - exists b. split; [exact H1|]. apply H3. right; reflexivity.
Defined.

(** ** The statistics of a character *)

(** X23.  The hit points of a character are at least 1; at level 1 they are
    the maximum of the hit die plus the Constitution modifier; and each
    further level adds the mean of the hit die (for a die with an even
    number of sides, half the sides plus one) plus the Constitution
    modifier, as long as the total stays positive. *)
Theorem Character_hit_points (hit_die : Die) (level con : Z) :
  1 <= Character_get_total_hp hit_die level con
  /\ Character_get_total_hp hit_die 1 con = Z.max 1 (sides hit_die + con)
  /\ (0 <= sides hit_die -> Z.even (sides hit_die) = true ->
      Die_mean hit_die = sides hit_die `div` 2 + 1)
  /\ (1 <= level -> 1 <= sides hit_die + con -> 0 <= Die_mean hit_die + con ->
      Character_get_total_hp hit_die (level + 1) con
      = Character_get_total_hp hit_die level con + (Die_mean hit_die + con)).
Proof.
  unfold Character_get_total_hp. split; [lia|]. split; [f_equal; lia|]. split.
  - intros H _. unfold Die_mean. rewrite int_half_floor by exact H. reflexivity.
  - intros Hl Hs Hm. set (m := Die_mean hit_die) in *.
    assert (0 <= (level - 1) * (m + con)) by (apply Z.mul_nonneg_nonneg; lia).
    rewrite !Z.max_r by nia. nia.
Qed.

Lemma Character_hit_points_witness :
  Character_get_total_hp (mkDie 10) (4 + 1) 2
  = Character_get_total_hp (mkDie 10) 4 2 + (Die_mean (mkDie 10) + 2).
Proof.
  apply (proj2 (proj2 (proj2 (Character_hit_points (mkDie 10) 4 2)))); vm_compute; congruence.
Defined.

(** X24.  The proficiency bonus of a character of level 1 to 20 follows the
    table of the game: 2 at levels 1 to 4, then one more every four levels,
    up to 6 at levels 17 to 20; it never decreases with the level. *)
Theorem Character_proficiency_table (level : Z) :
  1 <= level <= 20 ->
  Character_proficiency level
  = (if level <=? 4 then 2 else if level <=? 8 then 3 else if level <=? 12 then 4
     else if level <=? 16 then 5 else 6)
  /\ forall level', level <= level' ->
       Character_proficiency level <= Character_proficiency level'.
Proof.
  intros H. unfold Character_proficiency. split.
  - assert (E : level = 1 \/ level = 2 \/ level = 3 \/ level = 4 \/ level = 5
                \/ level = 6 \/ level = 7 \/ level = 8 \/ level = 9 \/ level = 10
                \/ level = 11 \/ level = 12 \/ level = 13 \/ level = 14 \/ level = 15
                \/ level = 16 \/ level = 17 \/ level = 18 \/ level = 19 \/ level = 20)
      by lia.
    repeat (destruct E as [-> | E]; [reflexivity|]). subst. reflexivity.
  - intros level' Hle.
    assert ((level - 1) ÷ 4 <= (level' - 1) ÷ 4); [|lia].
    apply Z.quot_le_mono; lia.
Qed.

Lemma Character_proficiency_table_witness :
  Character_proficiency 9 = 4 /\ Character_proficiency 9 <= Character_proficiency 13.
Proof.
  destruct (Character_proficiency_table 9 ltac:(lia)) as [H1 H2].
  split; [exact H1 | apply H2; lia].
Defined.

(** X25.  The hit points of a creature that rolls its hit dice are at least
    1 and lie between the totals for all ones and for all maximum faces,
    each die with the Constitution modifier added; the roll draws one number
    per hit die. *)
Theorem Creature_total_hp_range (hit_die : Die) (total_hit_dice : nat) (con : Z) (g : Rng) :
  1 <= sides hit_die ->
  let r := Creature_get_total_hp hit_die total_hit_dice con g in
  1 <= r.1
  /\ Z.max 1 (Z.of_nat total_hit_dice * (1 + con)) <= r.1
  /\ r.1 <= Z.max 1 (Z.of_nat total_hit_dice * (sides hit_die + con))
  /\ r.2 = advance g total_hit_dice.
Proof.
  intros H. cbn zeta. unfold Creature_get_total_hp.
  destruct (Die_call_bounds hit_die total_hit_dice g H) as [Hr Ha].
  destruct (Die_call hit_die total_hit_dice g) as [x g']; cbn [fst snd] in *.
  split; [lia|]. split; [lia|]. split; [lia | exact Ha].
Qed.

Lemma Creature_total_hp_range_witness :
  1 <= (Creature_get_total_hp (mkDie 8) 3 (-4) (fixed_rng 2)).1
  /\ (Creature_get_total_hp (mkDie 8) 3 (-4) (fixed_rng 2)).2 = advance (fixed_rng 2) 3.
Proof.
  destruct (Creature_total_hp_range (mkDie 8) 3 (-4) (fixed_rng 2)) as (H1 & _ & _ & H4).
  - cbn. lia.
  - split; [exact H1 | exact H4].
Defined.

(** ** Round trip of a grapple *)

Ltac valid_tac := repeat apply valid_update_2; eauto.

Ltac field_eval H :=
  repeat first [rewrite field_update_frame by reflexivity | rewrite field_update_eq];
  unfold field; cbn [creatures]; rewrite H; cbn; reflexivity.

(** One statement of a constructor or of [end()], run on an explicit store:
    [Hc1] and [Hc2] give the creatures of the original store, [not_listed] closes
    the goal that the new effect is not yet on a list. *)
Ltac run_statement Hc1 Hc2 not_listed :=
  lazymatch goal with
  | |- context [bind (ret ?a) ?k ?s0] => rewrite (bind_ret a k s0)
  | |- context [bind (list_append ?i ?a ?v) ?k ?s0] =>
      let H := fresh "V" in
      assert (H : is_Some (creatures s0 !! i)) by valid_tac;
      rewrite (bind_Ok _ _ _ _ _ (list_append_Ok s0 i a v H)); clear H
  | |- context [bind (add_counter ?i ?c ?n) ?k ?s0] =>
      let H := fresh "V" in
      assert (H : is_Some (creatures s0 !! i)) by valid_tac;
      rewrite (bind_Ok _ _ _ _ _ (add_counter_Ok s0 i c n H)); clear H
  | |- context [bind (modify_creature ?i ?f) ?k ?s0] =>
      let H := fresh "V" in
      assert (H : is_Some (creatures s0 !! i)) by valid_tac;
      rewrite (bind_modify_creature i f k s0 H); clear H
  | |- context [bind (list_remove ?i ?a ?v) ?k ?s0] =>
      let H := fresh "R" in
      eassert (H : list_remove i a v s0 = Ok tt _);
      [ eapply list_remove_Ok;
        [ first [field_eval Hc1 | field_eval Hc2]
        | apply remove_first_app_last; not_listed ]
      | rewrite (bind_Ok _ _ _ _ _ H); clear H ]
  end.

(** X26.  Creating and at once ending a grapple is a round trip whatever
    its options (restraining, stunning, escape priority): both calls return
    and every attribute of every creature is as before. *)
Theorem grapple_round_trip s grappler_ target_ cg ct
    (restrained_ stunned_ escape_priority_ : bool) :
  creatures s !! grappler_ = Some cg -> creatures s !! target_ = Some ct ->
  registered_exist s grappler_ -> registered_exist s target_ ->
  round_trip (GrappleDuration_init grappler_ target_ restrained_ stunned_ escape_priority_) s.
Proof.
  intros Hcg Hct Hg Ht.
  pose proof (registered_fresh s grappler_ cg grappling Hg Hcg) as Fg.
  pose proof (registered_fresh s target_ ct grappled Ht Hct) as Ft.
  pose proof (registered_fresh s target_ ct start_turn_duration Ht Hct) as Fs.
  unfold round_trip, GrappleDuration_init. rewrite bind_alloc.
  unfold Duration_end, GrappleDuration_end.
  destruct escape_priority_, restrained_, stunned_.
  all: lazymatch goal with
       | |- context [mkStore _ (_ ++ [?d]) _ _] => set (dd := d)
       end.
  all: set (s0 := mkStore (creatures s) (durations s ++ [dd]) (spells s) (rng s)).
  all: assert (Hcg0 : creatures s0 !! grappler_ = Some cg) by exact Hcg.
  all: assert (Hct0 : creatures s0 !! target_ = Some ct) by exact Hct.
  all: assert (Hd : forall s1, durations s1 = durations s0 ->
                      durations s1 !! length (durations s) = Some dd)
         by (intros s1 ->; apply lookup_new_object).
  all: do 2 eexists; exists dd; cbn [when].
  all: repeat run_statement Hcg0 Hct0 ltac:(idtac).
  all: (split; [reflexivity|]).
  all: lazymatch goal with
       | |- context [bind (get_duration ?i) ?k ?st] =>
           rewrite (bind_get_duration i k st dd (Hd st eq_refl))
       end; cbn [kind dd].
  all: lazymatch goal with
       | |- context [bind (get_duration ?i) ?k ?st] =>
           rewrite (bind_get_duration i k st dd (Hd st eq_refl))
       end.
  all: cbn [applier target escape_priority grapple_restrained grapple_stunned dd when].
  all: rewrite !bind_attr.
  all: repeat run_statement Hcg0 Hct0 ltac:(first [exact Fg | exact Ft | exact Fs]).
  all: (split; [first [reflexivity | apply add_counter_Ok; valid_tac]|]).
  all: (do 3 (split; [reflexivity|])).
  all: apply Forall2_same_length_lookup; split;
         [unfold update_creature; cbn [creatures]; rewrite !length_alter; reflexivity|].
  all: intros i x y Hx Hy; clear Hcg0 Hct0 Hd; subst s0 dd.
  all: destruct (decide (grappler_ = target_)) as [Egt|Egt];
       destruct (decide (target_ = i)) as [Eti|Eti];
       destruct (decide (grappler_ = i)) as [Egi|Egi]; try congruence.
  all: repeat (rewrite update_creature_lookup in Hy;
               first [ rewrite decide_True in Hy by congruence
                     | rewrite decide_False in Hy by congruence ]).
  all: cbn [creatures] in Hy; rewrite Hx in Hy; simplify_eq/=; same_creature_tac.
Qed.

Lemma grapple_round_trip_witness :
  round_trip (GrappleDuration_init 0 1 true false true)
    (arena [plain_creature 10; plain_creature 8] 1).
Proof.
  apply (grapple_round_trip (arena [plain_creature 10; plain_creature 8] 1)
           0 1 (plain_creature 10) (plain_creature 8) true false true eq_refl eq_refl).
  - intros a x (l & Hl & Hx). injection Hl as <-. inversion Hx.
  - intros a x (l & Hl & Hx). injection Hl as <-. inversion Hx.
Defined.
